(** * JobSwiper: application pipeline, swipe store and compatibility scorer

    A shallow embedding of the server side of JobSwiper (server/routes.ts,
    server/storage.ts, server/hhAuth.ts, server/openrouter.ts and
    shared/schema.ts) together with the properties its specification states.

    Conventions of the embedding.
    - The relational store is a record of tables, each table a list of rows;
      a statement is a function on that record.  A statement raises where
      the schema says so: an insert of a row whose user id or resume id
      names no row of the table it references, and a statement with a value
      for an [integer] column that is no 32-bit integer.  The connection
      itself is taken to be reliable.
    - A query without [ORDER BY] that the code reads the first row of (the
      selected resume of a user) returns the rows in an order the world
      chooses.
    - Everything that happens outside the process (the LLM endpoint, the
      hh.ru token, resume and negotiation endpoints, the clock) is an oracle
      in an environment record; an oracle answering [None] stands for a
      rejected promise (a thrown exception).
    - A JavaScript string is a [string], its characters standing for code
      units (the two notions of length agree on ASCII text); a JavaScript
      number is a [JS.number]: a rational (every finite double is one) or NaN
      or an infinity. *)

From Stdlib Require Import ZArith QArith Qround List String Ascii Bool Lia.
From Stdlib Require Import DecimalString.
Import ListNotations.

Local Close Scope Q_scope.
Local Open Scope Z_scope.
Local Open Scope string_scope.

(** ** The fragments of JavaScript the server relies on *)

Module JS.

(** Numbers.  [Fin q] is a finite number, read exactly. *)
Inductive number : Type :=
| NaN
| PosInf
| NegInf
| Fin (q : Q).

Definition of_Z (z : Z) : number := Fin (inject_Z z).

(** [geb a b] is the comparison [a >= b]; it is false as soon as one side
    is NaN. *)
Definition geb (a b : number) : bool :=
  match a, b with
  | NaN, _ => false
  | _, NaN => false
  | PosInf, _ => true
  | _, NegInf => true
  | NegInf, _ => false
  | Fin _, PosInf => false
  | Fin x, Fin y => Qle_bool y x
  end.

Definition is_nan (a : number) : bool :=
  match a with NaN => true | _ => false end.

(** [Math.round]: the nearest integer, halves going up. *)
Definition Math_round (a : number) : number :=
  match a with
  | Fin q => Fin (inject_Z (Qfloor (q + (1 # 2))%Q))
  | _ => a
  end.

(** [Math.min] and [Math.max] on two arguments: NaN is contagious. *)
Definition Math_min (a b : number) : number :=
  if is_nan a || is_nan b then NaN else if geb b a then a else b.

Definition Math_max (a b : number) : number :=
  if is_nan a || is_nan b then NaN else if geb a b then a else b.

(** Truthiness of a string value and of a possibly missing one
    ([undefined] and [null] are both [None]). *)
Definition truthy_str (s : string) : bool := negb (String.eqb s "").

Definition truthy (o : option string) : bool :=
  match o with
  | Some s => truthy_str s
  | None => false
  end.

(** [o || d] where the default [d] is a string. *)
Definition or_else (o : option string) (d : string) : string :=
  match o with
  | Some s => if truthy_str s then s else d
  | None => d
  end.

(** [a || b] where both sides may be missing: the first truthy one. *)
Definition or_opt (a b : option string) : option string :=
  if truthy a then a else b.

(** [o || null]. *)
Definition or_null (o : option string) : option string :=
  if truthy o then o else None.

(** A value found in a parsed JSON document, as far as the server looks at
    it.  An object or array carries what [ToNumber] makes of it. *)
Inductive value : Type :=
| VUndefined
| VNull
| VBool (b : bool)
| VNum (n : number)
| VStr (s : string)
| VObj (prim : number).

Definition value_truthy (v : value) : bool :=
  match v with
  | VUndefined | VNull => false
  | VBool b => b
  | VNum NaN => false
  | VNum (Fin q) => negb (Qeq_bool q 0)
  | VNum _ => true
  | VStr s => truthy_str s
  | VObj _ => true
  end.

Section ToNumber.
(** [StringToNumber] of the language, kept abstract. *)
Variable StringToNumber : string -> number.

Definition ToNumber (v : value) : number :=
  match v with
  | VUndefined => NaN
  | VNull => of_Z 0
  | VBool b => of_Z (if b then 1 else 0)
  | VNum n => n
  | VStr s => StringToNumber s
  | VObj n => n
  end.
End ToNumber.

(** White space, for [trim] and the [\s] class.  A string is a sequence of
    8-bit characters here, so this is the white space of ASCII; the spaces
    JavaScript knows beyond it (U+00A0 and the like) are ordinary characters
    of the model. *)
Definition is_space (c : ascii) : bool :=
  match nat_of_ascii c with
  | 9%nat | 10%nat | 11%nat | 12%nat | 13%nat | 32%nat => true
  | _ => false
  end.

Fixpoint trimStart (s : string) : string :=
  match s with
  | String c r => if is_space c then trimStart r else s
  | EmptyString => EmptyString
  end.

Fixpoint trimEnd (s : string) : string :=
  match s with
  | String c r =>
      match trimEnd r with
      | EmptyString => if is_space c then EmptyString else String c EmptyString
      | r' => String c r'
      end
  | EmptyString => EmptyString
  end.

Definition trim (s : string) : string := trimEnd (trimStart s).

(** The value of a character as a digit in the given radix (10 or 16). *)
Definition digit_of (radix : Z) (c : ascii) : option Z :=
  let n := Z.of_nat (nat_of_ascii c) in
  let v :=
    if (48 <=? n)%Z && (n <=? 57)%Z then Some (n - 48)
    else if (97 <=? n)%Z && (n <=? 122)%Z then Some (n - 87)
    else if (65 <=? n)%Z && (n <=? 90)%Z then Some (n - 55)
    else None in
  match v with
  | Some d => if (d <? radix)%Z then Some d else None
  | None => None
  end.

(** The longest prefix of digits, read as a number; [None] when there is no
    digit at all. *)
Fixpoint digits_prefix (radix : Z) (s : string) (acc : option Z) : option Z :=
  match s with
  | String c r =>
      match digit_of radix c with
      | Some d =>
          digits_prefix radix r
            (Some (radix * match acc with Some a => a | None => 0 end + d))
      | None => acc
      end
  | EmptyString => acc
  end.

(** Leading white space and an optional sign, as [parseInt] strips them. *)
Definition strip_sign (s : string) : bool * string :=
  match trimStart s with
  | String "-" r => (true, r)
  | String "+" r => (false, r)
  | t => (false, t)
  end.

Definition signed_digits (radix : Z) (neg : bool) (body : string) : number :=
  match digits_prefix radix body None with
  | Some n => of_Z (if neg then - n else n)
  | None => NaN
  end.

(** [parseInt(s, 10)]; NaN when no digit follows the sign. *)
Definition parseInt10 (s : string) : number :=
  let '(neg, body) := strip_sign s in signed_digits 10 neg body.

(** [parseInt(s)]: as above, except that a [0x] prefix selects radix 16. *)
Definition parseInt (s : string) : number :=
  let '(neg, body) := strip_sign s in
  match body with
  | String "0" (String "x" r) => signed_digits 16 neg r
  | String "0" (String "X" r) => signed_digits 16 neg r
  | _ => signed_digits 10 neg body
  end.

(** [n || d] for a number [n] that is an integer or NaN, as [parseInt]
    returns: the integer when it is not zero. *)
Definition int_or {A : Type} (n : number) (some : Z -> A) (d : A) : A :=
  match n with
  | Fin q => if Qeq_bool q 0 then d else some (Qfloor q)
  | NaN => d
  | _ => d
  end.

(** An integer-valued number as an integer; nothing for NaN and the
    infinities. *)
Definition to_int (n : number) : option Z :=
  match n with
  | Fin q => Some (Qfloor q)
  | _ => None
  end.


End JS.

(** ** server/openrouter.ts: the score-to-bucket mapping *)

Module Bucket.

Inductive color : Type := green | yellow | red.

Definition scoreToColor (score : JS.number) : color :=
  if JS.geb score (JS.of_Z 75) then green
  else if JS.geb score (JS.of_Z 40) then yellow
  else red.

(** The buckets as the specification words them: 75 and above is green,
    40 up to 75 is yellow, below 40 is red. *)
Definition in_bucket (q : Q) (c : color) : Prop :=
  match c with
  | green => (75 <= q)%Q
  | yellow => (40 <= q)%Q /\ (q < 75)%Q
  | red => (q < 40)%Q
  end.

End Bucket.

(** ** server/openrouter.ts *)

Module OpenRouter.
Import Bucket.

Definition nl : string := String (ascii_of_nat 10) EmptyString.

Definition String_of_Z (z : Z) : string := NilZero.string_of_int (Z.to_int z).

Fixpoint join (sep : string) (l : list string) : string :=
  match l with
  | [] => ""
  | [x] => x
  | x :: r => x ++ sep ++ join sep r
  end.

(** The [Job] shape of shared/schema.ts, as far as the prompts read it. *)
Record Job : Type := mkJob {
  job_id : Z;
  job_title : string;
  job_company : string;
  job_salary : string;
  job_description : string;
  job_tags : list string
}.

(** The two prompt templates are fixed texts with two holes each; a prompt
    is kept as the pair of texts that fill them. *)
Inductive prompt : Type :=
| CoverLetterPrompt (vacancyBlock resume : string)
| CompatibilityPrompt (vacancyBlock resume : string).

(** What the chat-completion call comes back with. *)
Inductive completion : Type :=
| FetchThrows
| HttpError (status : Z)
| Completion (content : JS.value).

(** The object [JSON.parse] returns, restricted to the two fields read. *)
Record CompatibilityResponse : Type := mkResponse {
  resp_score : JS.value;
  resp_explanation : JS.value
}.

(** The runtime and the outside world of this module. *)
Record Env : Type := mkEnv {
  OPENROUTER_API_KEY : option string;
  chat : prompt -> completion;
  StringToNumber : string -> JS.number;
  (** [JSON.parse]; [None] is a SyntaxError. *)
  JSON_parse : string -> option CompatibilityResponse;
  (** first capture of the first of the four score patterns that matches *)
  scoreMatch : string -> option string;
  (** first capture of the first of the three explanation patterns *)
  explMatch : string -> option string
}.

Definition is_markup (c : ascii) : bool :=
  match c with
  | "*"%char | "#"%char | "_"%char | "-"%char => true
  | _ => false
  end.

Fixpoint replace_markup (s : string) : string :=
  match s with
  | String c r => String (if is_markup c then " "%char else c) (replace_markup r)
  | EmptyString => EmptyString
  end.

(** [replace(/\s+/g, " ")]: [in_run] says the previous character was white. *)
Fixpoint collapse_spaces (in_run : bool) (s : string) : string :=
  match s with
  | String c r =>
      if JS.is_space c
      then if in_run then collapse_spaces true r
           else String " "%char (collapse_spaces true r)
      else String c (collapse_spaces false r)
  | EmptyString => EmptyString
  end.

Definition sanitize (text : string) : string :=
  JS.trim (collapse_spaces false (replace_markup text)).

Definition fallbackLetter (_vacancy : Job) : string :=
  JS.trim
    (nl ++ "Имею релевантный опыт работы и занимался развитием маркетинговых и продуктовых направлений. Работал с аналитикой, гипотезами, процессами и улучшением метрик."
        ++ nl ++ nl
        ++ "Мой опыт и навыки позволяют закрывать задачи по развитию продукта и маркетинговых направлений."
        ++ nl).

Definition dash : string := "—".

Definition tags_line (tags : list string) : string :=
  match tags with
  | [] => dash
  | _ => join ", " tags
  end.

Definition coverLetterVacancyBlock (vacancy : Job) : string :=
  JS.trim
    (nl ++ "=== ВАКАНСИЯ НАЧАЛО ===" ++ nl
        ++ "Название вакансии: " ++ job_title vacancy ++ nl
        ++ "Компания: " ++ job_company vacancy ++ nl
        ++ "Зарплата: " ++ JS.or_else (Some (job_salary vacancy)) dash ++ nl
        ++ "Краткое описание / обязанности:" ++ nl
        ++ JS.or_else (Some (job_description vacancy)) dash ++ nl
        ++ "Ключевые теги/направления:" ++ nl
        ++ tags_line (job_tags vacancy) ++ nl
        ++ "=== ВАКАНСИЯ КОНЕЦ ===" ++ nl).

(** The body of the [try] block: [None] is an exception on its way to the
    [catch]. *)
Definition coverLetter_try (e : Env) (p : prompt) (vacancy : Job) : option string :=
  match chat e p with
  | FetchThrows => None
  | HttpError _ => Some (fallbackLetter vacancy)
  | Completion content =>
      if JS.value_truthy content
      then match content with
           | JS.VStr text => Some (sanitize (JS.trim text))
           | _ => None
           end
      else Some (fallbackLetter vacancy)
  end.

Definition generateCoverLetter (e : Env) (resume : string) (vacancy : Job) : string :=
  if negb (JS.truthy (OPENROUTER_API_KEY e)) then fallbackLetter vacancy
  else
    let p := CoverLetterPrompt (coverLetterVacancyBlock vacancy) resume in
    match coverLetter_try e p vacancy with
    | Some letter => letter
    | None => fallbackLetter vacancy
    end.

Record CompatibilityResult : Type := mkResult {
  vacancyId : string;
  score : JS.number;
  color : Bucket.color;
  explanation : string
}.

Definition compatibilityVacancyBlock (vacancy : Job) : string :=
  JS.trim
    (nl ++ "Название: " ++ job_title vacancy ++ nl
        ++ "Компания: " ++ job_company vacancy ++ nl
        ++ "Зарплата: " ++ JS.or_else (Some (job_salary vacancy)) dash ++ nl
        ++ "Описание: " ++ JS.or_else (Some (job_description vacancy)) dash ++ nl
        ++ "Теги: " ++ tags_line (job_tags vacancy) ++ nl).

(** [text.match(/\{[\s\S]*?\}/)]: from the first opening brace to the first
    closing brace after it. *)
Fixpoint upto_close (s : string) : option string :=
  match s with
  | String c r =>
      if Ascii.eqb c "}"%char then Some (String c EmptyString)
      else option_map (String c) (upto_close r)
  | EmptyString => None
  end.

Fixpoint jsonMatch (s : string) : option string :=
  match s with
  | String c r =>
      if Ascii.eqb c "{"%char then option_map (String c) (upto_close r)
      else jsonMatch r
  | EmptyString => None
  end.

Definition clamp (n : JS.number) : JS.number :=
  JS.Math_max (JS.of_Z 0) (JS.Math_min (JS.of_Z 100) n).

(** The inner [try]: the response parsed as JSON.  [None] is an exception
    caught by the inner [catch], after which the code falls through to the
    pattern-based extraction. *)
Definition parsed_try (e : Env) (vacancyId : string) (json : string)
  : option CompatibilityResult :=
  match JSON_parse e json with
  | None => None
  | Some parsed =>
      let score :=
        clamp (JS.Math_round (JS.ToNumber (StringToNumber e) (resp_score parsed))) in
      let color := scoreToColor score in
      let expl :=
        if JS.value_truthy (resp_explanation parsed)
        then resp_explanation parsed
        else JS.VStr "Анализ выполнен." in
      match expl with
      | JS.VStr s => Some (mkResult vacancyId score color (sanitize s))
      | _ => None
      end
  end.

Definition extracted (e : Env) (vacancyId : string) (text : string)
  : CompatibilityResult :=
  match scoreMatch e text with
  | Some digits =>
      let score := clamp (JS.parseInt10 digits) in
      let color := scoreToColor score in
      let explanation :=
        match explMatch e text with
        | Some m => sanitize m
        | None => "Анализ на основе навыков и опыта."
        end in
      mkResult vacancyId score color explanation
  | None =>
      mkResult vacancyId (JS.of_Z 50) yellow "Не удалось извлечь оценку совместимости."
  end.

(** The outer [try] block; [None] is an exception for the outer [catch]. *)
Definition compatibility_try (e : Env) (vacancyId : string) (p : prompt)
  : option CompatibilityResult :=
  match chat e p with
  | FetchThrows => None
  | HttpError _ => Some (mkResult vacancyId (JS.of_Z 50) yellow "Ошибка анализа.")
  | Completion content =>
      let text := if JS.value_truthy content then content else JS.VStr "" in
      match text with
      | JS.VStr text =>
          match jsonMatch text with
          | Some json =>
              match parsed_try e vacancyId json with
              | Some r => Some r
              | None => Some (extracted e vacancyId text)
              end
          | None => Some (extracted e vacancyId text)
          end
      | _ => None
      end
  end.

(** The length of the resume is counted in the 8-bit characters of the
    string; it is the [length] of JavaScript for a text in ASCII. *)
Definition calculateCompatibility (e : Env) (resume : string) (vacancy : Job)
  : CompatibilityResult :=
  let vacancyId := String_of_Z (job_id vacancy) in
  if negb (JS.truthy (OPENROUTER_API_KEY e))
     || negb (JS.truthy_str resume)
     || (String.length (JS.trim resume) <? 50)%nat
  then mkResult vacancyId (JS.of_Z 50) yellow "Недостаточно данных для анализа совместимости."
  else
    let p := CompatibilityPrompt (compatibilityVacancyBlock vacancy)
               (String.substring 0 3000 resume) in
    match compatibility_try e vacancyId p with
    | Some r => r
    | None => mkResult vacancyId (JS.of_Z 50) yellow "Ошибка при расчёте совместимости."
    end.

End OpenRouter.

(** ** shared/schema.ts: the tables *)

Module Schema.

(** Rows keep the columns the handlers below read or write.  Time stamps are
    milliseconds since the epoch. *)
Record User : Type := mkUser {
  user_id : string;
  hhUserId : option string;
  hhAccessToken : option string;
  hhRefreshToken : option string;
  hhTokenExpiresAt : option Z
}.

Record Swipe : Type := mkSwipe {
  swipe_id : Z;
  swipe_userId : string;
  swipe_vacancyId : string;
  swipe_direction : string;
  swipe_createdAt : Z
}.

Record Resume : Type := mkResume {
  resume_id : Z;
  resume_userId : option string;
  hhResumeId : option string;
  resume_title : option string;
  content : string;
  selected : bool;
  updatedAt : Z
}.

Record Application : Type := mkApplication {
  app_id : Z;
  app_userId : option string;
  app_vacancyId : option string;
  jobId : option Z;
  jobTitle : string;
  company : string;
  resumeId : option Z;
  coverLetter : option string;
  hhNegotiationId : option string;
  status : string;
  errorReason : option string;
  appliedAt : Z
}.

Record AiCompatibility : Type := mkAiCompatibility {
  ai_id : Z;
  ai_userId : string;
  ai_vacancyId : string;
  ai_score : Z;
  ai_color : string;
  ai_explanation : string
}.

(** The store: the tables and the three serial counters in use. *)
Record Db : Type := mkDb {
  users : list User;
  swipes : list Swipe;
  resumes : list Resume;
  applications : list Application;
  aiCompatibility : list AiCompatibility;
  swipes_seq : Z;
  resumes_seq : Z;
  applications_seq : Z
}.

Definition with_users (l : list User) (d : Db) : Db :=
  mkDb l (swipes d) (resumes d) (applications d) (aiCompatibility d)
       (swipes_seq d) (resumes_seq d) (applications_seq d).

Definition with_swipes (l : list Swipe) (seq : Z) (d : Db) : Db :=
  mkDb (users d) l (resumes d) (applications d) (aiCompatibility d)
       seq (resumes_seq d) (applications_seq d).

Definition with_resumes (l : list Resume) (seq : Z) (d : Db) : Db :=
  mkDb (users d) (swipes d) l (applications d) (aiCompatibility d)
       (swipes_seq d) seq (applications_seq d).

Definition with_applications (l : list Application) (seq : Z) (d : Db) : Db :=
  mkDb (users d) (swipes d) (resumes d) l (aiCompatibility d)
       (swipes_seq d) (resumes_seq d) seq.

Definition with_aiCompatibility (l : list AiCompatibility) (d : Db) : Db :=
  mkDb (users d) (swipes d) (resumes d) (applications d) l
       (swipes_seq d) (resumes_seq d) (applications_seq d).

(** [eq(column, value)] on a nullable text column. *)
Definition eq_col (c : option string) (v : string) : bool :=
  match c with
  | Some s => String.eqb s v
  | None => false
  end.

(** [UPDATE t SET ... WHERE p]: every row matching [p] is rewritten. *)
Definition update_where {A : Type} (p : A -> bool) (f : A -> A) (l : list A) : list A :=
  map (fun r => if p r then f r else r) l.

Definition set_selected (b : bool) (r : Resume) : Resume :=
  mkResume (resume_id r) (resume_userId r) (hhResumeId r) (resume_title r)
           (content r) b (updatedAt r).

Definition set_content (c : string) (t : Z) (r : Resume) : Resume :=
  mkResume (resume_id r) (resume_userId r) (hhResumeId r) (resume_title r)
           c (selected r) t.

Definition set_synced (title c : string) (t : Z) (r : Resume) : Resume :=
  mkResume (resume_id r) (resume_userId r) (hhResumeId r) (Some title)
           c (selected r) t.

Definition set_tokens (access refresh : string) (expires : Z) (u : User) : User :=
  mkUser (user_id u) (hhUserId u) (Some access) (Some refresh) (Some expires).

(** The columns the background task of the apply route writes; [None] leaves
    a column as it is. *)
Record ApplicationSet : Type := mkSet {
  set_coverLetter : option (option string);
  set_resumeId : option (option Z);
  set_status : option string;
  set_errorReason : option (option string);
  set_hhNegotiationId : option (option string)
}.

Definition assign {A : Type} (new : option A) (old : A) : A :=
  match new with
  | Some v => v
  | None => old
  end.

Definition apply_set (s : ApplicationSet) (a : Application) : Application :=
  mkApplication (app_id a) (app_userId a) (app_vacancyId a) (jobId a)
                (jobTitle a) (company a)
                (assign (set_resumeId s) (resumeId a))
                (assign (set_coverLetter s) (coverLetter a))
                (assign (set_hhNegotiationId s) (hhNegotiationId a))
                (assign (set_status s) (status a))
                (assign (set_errorReason s) (errorReason a))
                (appliedAt a).

(** The values of an [integer] column: a parameter outside this range makes
    the statement fail before it runs. *)
Definition int4 (z : Z) : bool := (- 2 ^ 31 <=? z)%Z && (z <? 2 ^ 31)%Z.

Definition int4_or_null (z : option Z) : bool :=
  match z with
  | Some i => int4 i
  | None => true
  end.

(** [references(() => users.id)]: whether the users table has a row with
    this id.  An insert of a row that references no user fails. *)
Definition has_user (userId : string) (d : Db) : bool :=
  existsb (fun u => String.eqb (user_id u) userId) (users d).

(** The same on a nullable column: a null references nothing. *)
Definition references_user (userId : option string) (d : Db) : bool :=
  match userId with
  | Some u => has_user u d
  | None => true
  end.


End Schema.

(** ** server/storage.ts: the methods of [DbStorage] used by the routes *)

Module Storage.
Import Schema.

(** The methods that insert return [None] where the promise is rejected: the
    row references no user.  The serial drawn for the row is not given back,
    and no row is added. *)
Definition createSwipe (now : Z) (userId vacancyId direction : string) (d : Db)
  : option Swipe * Db :=
  let created := mkSwipe (swipes_seq d) userId vacancyId direction now in
  if has_user userId d
  then (Some created, with_swipes (swipes d ++ [created]) (swipes_seq d + 1) d)
  else (None, with_swipes (swipes d) (swipes_seq d + 1) d).

Definition getSwipedVacancyIds (userId : string) (d : Db) : list string :=
  map swipe_vacancyId
      (filter (fun s => String.eqb (swipe_userId s) userId) (swipes d)).

Definition hasSwipedVacancy (userId vacancyId : string) (d : Db) : bool :=
  match filter (fun s => String.eqb (swipe_userId s) userId
                         && String.eqb (swipe_vacancyId s) vacancyId)
               (swipes d) with
  | _ :: _ => true
  | [] => false
  end.

(** [ORDER BY updated_at DESC LIMIT 1]: the most recently updated row, the
    earliest inserted one among equals. *)
Fixpoint latest (l : list Resume) (best : option Resume) : option Resume :=
  match l with
  | [] => best
  | r :: t =>
      latest t
        match best with
        | Some b => if (updatedAt b <? updatedAt r)%Z then Some r else best
        | None => Some r
        end
  end.

Definition is_manual (userId : string) (r : Resume) : bool :=
  eq_col (resume_userId r) userId
  && match hhResumeId r with None => true | Some _ => false end.

Definition getManualResume (userId : string) (d : Db) : option Resume :=
  latest (filter (is_manual userId) (resumes d)) None.

Definition saveManualResume (now : Z) (userId content : string) (d : Db)
  : option Resume * Db :=
  match getManualResume userId d with
  | Some existing =>
      let d' :=
        with_resumes
          (update_where (fun r => (resume_id r =? resume_id existing)%Z)
                        (set_content content now) (resumes d))
          (resumes_seq d) d in
      (Some (set_content content now existing), d')
  | None =>
      let created :=
        mkResume (resumes_seq d) (Some userId) None None content false now in
      if has_user userId d
      then (Some created, with_resumes (resumes d ++ [created]) (resumes_seq d + 1) d)
      else (None, with_resumes (resumes d) (resumes_seq d + 1) d)
  end.

Definition deleteCompatibility (userId vacancyId : string) (d : Db) : Db :=
  with_aiCompatibility
    (filter (fun c => negb (String.eqb (ai_userId c) userId
                            && String.eqb (ai_vacancyId c) vacancyId))
            (aiCompatibility d))
    d.

(** [DELETE FROM swipes WHERE user_id = userId] *)
Definition deleteAllSwipes (userId : string) (d : Db) : Db :=
  with_swipes (filter (fun s => negb (String.eqb (swipe_userId s) userId)) (swipes d))
              (swipes_seq d) d.

Definition getCompatibility (userId vacancyId : string) (d : Db)
  : option AiCompatibility :=
  find (fun c => String.eqb (ai_userId c) userId
                 && String.eqb (ai_vacancyId c) vacancyId)
       (aiCompatibility d).

(** A number as a parameter for an [integer] column: the database takes an
    integer in range and refuses everything else, NaN included. *)
Definition as_integer (n : JS.number) : option Z :=
  match n with
  | JS.Fin q =>
      if Qeq_bool q (inject_Z (Qfloor q)) && int4 (Qfloor q)
      then Some (Qfloor q)
      else None
  | _ => None
  end.

(** Delete, then insert: two statements, so that the delete stands when the
    insert fails, which it does for a score that is no integer and for a user
    id that names no user.  The serial of the new row is the database's
    choice and comes in as [id]. *)
Definition saveCompatibility (id : Z) (userId vacancyId : string) (score : JS.number)
  (color explanation : string) (d : Db) : option AiCompatibility * Db :=
  let d1 := deleteCompatibility userId vacancyId d in
  match as_integer score with
  | Some score =>
      let created := mkAiCompatibility id userId vacancyId score color explanation in
      if has_user userId d1
      then (Some created, with_aiCompatibility (aiCompatibility d1 ++ [created]) d1)
      else (None, d1)
  | None => (None, d1)
  end.

Definition is_pending (userId : string) (a : Application) : bool :=
  eq_col (app_userId a) userId
  && match coverLetter a with None => true | Some _ => false end
  && (String.eqb (status a) "pending" || String.eqb (status a) "queued").

Definition getPendingApplicationsCount (userId : string) (d : Db) : nat :=
  List.length (filter (is_pending userId) (applications d)).

Definition updateApplicationCoverLetter (id : Z) (coverLetter : string) (d : Db)
  : option Application * Db :=
  let hit a := (app_id a =? id)%Z in
  let d1 :=
    with_applications
      (update_where hit (apply_set (mkSet (Some (Some coverLetter)) None None None None))
                    (applications d))
      (applications_seq d) d in
  (find hit (applications d1), d1).

End Storage.

(** ** Effects: the store, and a log of what leaves the process

    An asynchronous function of the server is a computation over the store
    that may throw.  The log records, in order, the calls to the outside
    world and the writes to the applications table. *)

Module Effect.
Import Schema.

Inductive event : Type :=
| Generate (resume : string) (vacancy : OpenRouter.Job)
| RefreshToken (refresh_token : string)
| Negotiate (accessToken vacancyId resumeId message : string)
| UpdateApplication (id : Z) (s : ApplicationSet).

Record state : Type := mkState {
  db : Db;
  log : list event
}.

(** [None] as a result is a thrown exception; the state reached at that
    point is kept. *)
Definition M (A : Type) : Type := state -> option A * state.

Definition ret {A : Type} (a : A) : M A := fun s => (Some a, s).

Definition throw {A : Type} : M A := fun s => (None, s).

Definition bind {A B : Type} (m : M A) (k : A -> M B) : M B :=
  fun s =>
    match m s with
    | (Some a, s') => k a s'
    | (None, s') => (None, s')
    end.

Definition try_catch {A : Type} (m : M A) (handler : M A) : M A :=
  fun s =>
    match m s with
    | (Some a, s') => (Some a, s')
    | (None, s') => handler s'
    end.

Definition get_db : M Db := fun s => (Some (db s), s).

Definition modify_db (f : Db -> Db) : M unit :=
  fun s => (Some tt, mkState (f (db s)) (log s)).

Definition emit (ev : event) : M unit :=
  fun s => (Some tt, mkState (db s) (log s ++ [ev])).

(** An awaited promise: its value, or a throw when it was rejected. *)
Definition await {A : Type} (o : option A) : M A :=
  match o with
  | Some a => ret a
  | None => throw
  end.

Definition run {A : Type} (m : M A) (d : Db) : option A * state :=
  m (mkState d []).

End Effect.

Declare Scope effect_scope.
Delimit Scope effect_scope with effect.
Notation "'let*' x ':=' m 'in' k" :=
  (Effect.bind m (fun x => k))
    (at level 10, x name, m at level 100, k at level 200) : effect_scope.
Notation "m1 ';;' m2" :=
  (Effect.bind m1 (fun _ => m2))
    (at level 100, m2 at level 200, right associativity) : effect_scope.
Local Open Scope effect_scope.

(** ** server/hhAuth.ts *)

Module HhAuth.
Import Schema Effect.

Record TokenResponse : Type := mkTokens {
  access_token : string;
  refresh_token : string;
  expires_in : Z
}.

Record HHResumeShort : Type := mkShort {
  short_id : string;
  short_title : string
}.

(** A resume as hh.ru details it; [detail_text] is the text [resumeToText]
    renders from it. *)
Record HHResumeDetail : Type := mkDetail {
  detail_title : string;
  detail_text : string
}.

Definition resumeToText (detail : HHResumeDetail) : string := detail_text detail.

(** The body of a failed negotiation request, once parsed. *)
Record ErrorData : Type := mkErrorData {
  err_description : option string;
  err_error : option string;
  err_errors : list (string * string)
}.

Record HttpResponse : Type := mkHttp {
  http_status : Z;
  header_Location : option string;
  (** [response.json()]; [None] when the body does not parse *)
  http_json : option ErrorData
}.

Record NegotiationResponse : Type := mkNegotiation {
  neg_id : option string;
  neg_error : option string;
  neg_errors : list (string * string)
}.

(** hh.ru and the clock. *)
Record Env : Type := mkEnv {
  now : Z;
  post_token_refresh : string -> option TokenResponse;
  post_negotiations : string -> string -> string -> string -> option HttpResponse;
  get_resumes_mine : string -> option (list HHResumeShort);
  get_resume : string -> string -> option HHResumeDetail
}.

Definition refreshHHToken (e : Env) (refreshToken : string) : M TokenResponse :=
  emit (RefreshToken refreshToken) ;;
  await (post_token_refresh e refreshToken).

Definition expired (e : Env) (expiresAt : option Z) : bool :=
  match expiresAt with
  | Some t => negb (now e <? t)%Z
  | None => true
  end.

Definition getValidAccessToken (e : Env) (userId : string) : M (option string) :=
  let* d := get_db in
  match find (fun u => String.eqb (user_id u) userId) (users d) with
  | None => ret None
  | Some user =>
      match hhAccessToken user, hhRefreshToken user with
      | Some access, Some refresh =>
          if negb (JS.truthy_str access) || negb (JS.truthy_str refresh)
          then ret None
          else if negb (expired e (hhTokenExpiresAt user))
          then ret (Some access)
          else
            try_catch
              (let* tokens := refreshHHToken e refresh in
               let newExpiresAt := (now e + expires_in tokens * 1000)%Z in
               modify_db (fun d =>
                 with_users
                   (update_where (fun u => String.eqb (user_id u) userId)
                      (set_tokens (access_token tokens) (refresh_token tokens)
                                  newExpiresAt)
                      (users d))
                   d) ;;
               ret (Some (access_token tokens)))
              (ret None)
      | _, _ => ret None
      end
  end.

Definition getHHResumes (e : Env) (accessToken : string) : M (list HHResumeShort) :=
  await (get_resumes_mine e accessToken).

Definition getHHResumeDetail (e : Env) (accessToken resumeId : string)
  : M HHResumeDetail :=
  await (get_resume e accessToken resumeId).

(** [location.split("/").pop()]: what follows the last slash. *)
Fixpoint after_last_slash (s acc : string) : string :=
  match s with
  | String c r =>
      if Ascii.eqb c "/"%char then after_last_slash r ""
      else after_last_slash r (acc ++ String c EmptyString)
  | EmptyString => acc
  end.

Definition response_ok (r : HttpResponse) : bool :=
  (200 <=? http_status r)%Z && (http_status r <=? 299)%Z.

Definition negotiation_of (r : HttpResponse) : NegotiationResponse :=
  let not_created :=
    if negb (response_ok r)
    then
      let errorData :=
        match http_json r with
        | Some data => data
        | None => mkErrorData None None []
        end in
      mkNegotiation None
        (Some (JS.or_else
                 (JS.or_opt (err_description errorData) (err_error errorData))
                 ("HTTP " ++ OpenRouter.String_of_Z (http_status r))))
        (err_errors errorData)
    else mkNegotiation None None [] in
  match header_Location r with
  | Some location =>
      if (http_status r =? 201)%Z && JS.truthy_str location
      then mkNegotiation (Some (after_last_slash location "")) None []
      else not_created
  | None => not_created
  end.

Definition applyToVacancy (e : Env) (accessToken vacancyId resumeId message : string)
  : M NegotiationResponse :=
  emit (Negotiate accessToken vacancyId resumeId message) ;;
  let* response := await (post_negotiations e accessToken vacancyId resumeId message) in
  ret (negotiation_of response).

End HhAuth.

(** ** server/routes.ts *)

Module Routes.
Import Schema Effect.

(** The outside world.  [heap] is where each row of the resumes table lies
    in the table's file: a query without [ORDER BY] returns the rows it
    matches by position in the heap, and an update, which writes a new
    version of the row, moves it.  Nothing is assumed of it, so that every
    order in which the database may return the rows is covered. *)
Record World : Type := mkWorld {
  llm : OpenRouter.Env;
  hh : HhAuth.Env;
  heap : Resume -> Z
}.

(** What a query without [ORDER BY] returns first among the rows it matches:
    the one that lies first in the heap. *)
Fixpoint first_in_heap (pos : Resume -> Z) (l : list Resume) (best : option Resume)
  : option Resume :=
  match l with
  | [] => best
  | r :: t =>
      first_in_heap pos t
        match best with
        | Some b => if (pos r <? pos b)%Z then Some r else best
        | None => Some r
        end
  end.

(** A request field that must be truthy: [if (!x) return missing]. *)
Definition required {R : Type} (o : option string) (missing : R) (k : string -> R) : R :=
  match o with
  | Some s => if JS.truthy_str s then k s else missing
  | None => missing
  end.

(** *** GET /api/hh/jobs *)

Record HHJob : Type := mkHHJob {
  hh_id : string;
  hh_title : string;
  hh_company : string;
  hh_salary : string;
  hh_description : string;
  hh_descriptionFull : string;
  hh_location : string;
  hh_employmentType : string;
  hh_tags : list string
}.

(** One page of the hh.ru search, after [adaptHHVacancy] on each item. *)
Record HHPage : Type := mkPage {
  page_jobs : list HHJob;
  page_found : Z;
  page_pages : Z
}.

Record HHJobsResponse : Type := mkJobsResponse {
  jobs : list HHJob;
  hasMore : bool;
  total : Z;
  batch : Z
}.

Inductive jobs_reply : Type :=
| JobsOk (r : HHJobsResponse)
| JobsFailed.

(** [new Set(ids).has(x)] *)
Definition Set_has (ids : list string) (x : string) : bool :=
  existsb (String.eqb x) ids.

Definition parse_batch (param : option string) : Z :=
  match param with
  | Some s => JS.int_or (JS.parseInt s) (fun z => z) 1
  | None => 1
  end.

(** [fetched] is the answer of hh.ru to the search this request builds;
    [None] when the call fails or answers with an error status. *)
Definition get_hh_jobs (fetched : option HHPage) (userId batch_param : option string)
  (d : Db) : jobs_reply :=
  let batch := parse_batch batch_param in
  match fetched with
  | None => JobsFailed
  | Some data =>
      let jobs := page_jobs data in
      let jobs :=
        required userId jobs
          (fun userId =>
             let swipedIds := Storage.getSwipedVacancyIds userId d in
             filter (fun job => negb (Set_has swipedIds (hh_id job))) jobs) in
      JobsOk (mkJobsResponse jobs (batch <? page_pages data)%Z (page_found data) batch)
  end.

(** *** POST /api/swipes *)

Record SwipeRequest : Type := mkSwipeRequest {
  sw_vacancyId : option string;
  sw_direction : option string;
  sw_userId : option string
}.

Inductive swipe_reply : Type :=
| SwipeBadRequest (error : string)
| SwipeAlready
| SwipeCreated (swipe : Swipe).

Definition post_swipes (now : Z) (req : SwipeRequest) (d : Db) : swipe_reply * Db :=
  required (sw_userId req) (SwipeBadRequest "User ID is required", d) (fun userId =>
  required (sw_vacancyId req) (SwipeBadRequest "Vacancy ID is required", d) (fun vacancyId =>
  required (sw_direction req)
    (SwipeBadRequest "Direction must be 'left' or 'right'", d) (fun direction =>
  if negb (existsb (String.eqb direction) ["left"; "right"])
  then (SwipeBadRequest "Direction must be 'left' or 'right'", d)
  else if Storage.hasSwipedVacancy userId vacancyId d
  then (SwipeAlready, d)
  else
    match Storage.createSwipe now userId vacancyId direction d with
    | (Some swipe, d1) =>
        (SwipeCreated swipe, Storage.deleteCompatibility userId vacancyId d1)
    | (None, d1) => (SwipeBadRequest "Failed to record swipe", d1)
    end))).

(** *** POST /api/resume *)

Record ResumeRequest : Type := mkResumeRequest {
  (** [None] when the field is not a string *)
  rs_content : option string;
  rs_userId : option string
}.

Inductive resume_reply : Type :=
| ResumeBadRequest (error : string)
| ResumeSaved (resume : Resume)
| ResumeFailed (error : string).

Definition post_resume (now : Z) (req : ResumeRequest) (d : Db) : resume_reply * Db :=
  match rs_content req with
  | None => (ResumeBadRequest "Content must be a string", d)
  | Some content =>
      required (rs_userId req) (ResumeBadRequest "User ID is required", d) (fun userId =>
        match Storage.saveManualResume now userId content d with
        | (Some resume, d1) => (ResumeSaved resume, d1)
        | (None, d1) => (ResumeFailed "Failed to save resume", d1)
        end)
  end.

(** *** POST /api/hh/resumes/select *)

Record SelectRequest : Type := mkSelectRequest {
  sel_userId : option string;
  (** the row id the client sends, a number; [parseInt] returns it as it is
      when it is an integer that JavaScript holds exactly *)
  sel_resumeId : option Z
}.

Inductive select_reply : Type :=
| SelectBadRequest (error : string)
| SelectNotFound
| SelectOk (updated : Resume)
| SelectFailed (error : string).

(** Two statements.  The second one fails for an id that is no value of the
    integer column; the first one has run by then, and the handler's [catch]
    answers. *)
Definition post_resumes_select (req : SelectRequest) (d : Db) : select_reply * Db :=
  let missing := (SelectBadRequest "User ID and Resume ID required", d) in
  required (sel_userId req) missing (fun userId =>
    match sel_resumeId req with
    | None => missing
    | Some resumeId =>
        if (resumeId =? 0)%Z then missing
        else
          let deselected :=
            update_where (fun r => eq_col (resume_userId r) userId)
                         (set_selected false) (resumes d) in
          if negb (int4 resumeId)
          then (SelectFailed "Failed to select resume",
                with_resumes deselected (resumes_seq d) d)
          else
            let chosen r :=
              (resume_id r =? resumeId)%Z && eq_col (resume_userId r) userId in
            let d1 :=
              with_resumes (update_where chosen (set_selected true) deselected)
                           (resumes_seq d) d in
            match find chosen (resumes d1) with
            | Some updated => (SelectOk updated, d1)
            | None => (SelectNotFound, d1)
            end
    end).

(** *** Resume synchronisation: POST /api/hh/resumes/sync and the block of
    GET /auth/hh/callback that follows the sign-in *)

Definition find_synced (userId hhId : string) (d : Db) : option Resume :=
  find (fun r => eq_col (resume_userId r) userId && eq_col (hhResumeId r) hhId)
       (resumes d).

Definition update_synced (e : HhAuth.Env) (existing : Resume)
  (detail : HhAuth.HHResumeDetail) : M Resume :=
  let f := set_synced (HhAuth.detail_title detail) (HhAuth.resumeToText detail)
                      (HhAuth.now e) in
  modify_db (fun d =>
    with_resumes
      (update_where (fun r => (resume_id r =? resume_id existing)%Z) f (resumes d))
      (resumes_seq d) d) ;;
  ret (f existing).

(** The user row exists where this insert runs: the sync route has read the
    token from it, the callback has just written it. *)
Definition insert_synced (e : HhAuth.Env) (userId hhId : string)
  (detail : HhAuth.HHResumeDetail) (selected : bool) : M Resume :=
  let* d := get_db in
  let created :=
    mkResume (resumes_seq d) (Some userId) (Some hhId)
             (Some (HhAuth.detail_title detail)) (HhAuth.resumeToText detail)
             selected (HhAuth.now e) in
  modify_db (fun d => with_resumes (resumes d ++ [created]) (resumes_seq d + 1) d) ;;
  ret created.

Fixpoint sync_loop (e : HhAuth.Env) (userId accessToken : string)
  (hhResumes : list HhAuth.HHResumeShort) (syncedResumes : list Resume)
  : M (list Resume) :=
  match hhResumes with
  | [] => ret syncedResumes
  | hhResume :: rest =>
      let* detail := HhAuth.getHHResumeDetail e accessToken (HhAuth.short_id hhResume) in
      let* d := get_db in
      let* row :=
        match find_synced userId (HhAuth.short_id hhResume) d with
        | Some existing => update_synced e existing detail
        | None =>
            insert_synced e userId (HhAuth.short_id hhResume) detail
                          (List.length syncedResumes =? 0)%nat
        end in
      sync_loop e userId accessToken rest (syncedResumes ++ [row])%list
  end.

Inductive sync_reply : Type :=
| SyncBadRequest (error : string)
| SyncUnauthorized
| SyncFailed
| SyncOk (synced : list Resume).

Definition post_resumes_sync (e : HhAuth.Env) (userId : option string) : M sync_reply :=
  required userId (ret (SyncBadRequest "User ID required")) (fun userId =>
    try_catch
      (let* accessToken := HhAuth.getValidAccessToken e userId in
       required accessToken (ret SyncUnauthorized) (fun accessToken =>
         let* hhResumes := HhAuth.getHHResumes e accessToken in
         let* synced := sync_loop e userId accessToken hhResumes [] in
         ret (SyncOk synced)))
      (ret SyncFailed)).

Fixpoint callback_loop (e : HhAuth.Env) (userId accessToken : string)
  (hhResumes : list HhAuth.HHResumeShort) : M unit :=
  match hhResumes with
  | [] => ret tt
  | hhResume :: rest =>
      let* detail := HhAuth.getHHResumeDetail e accessToken (HhAuth.short_id hhResume) in
      let* d := get_db in
      let* _ :=
        match find_synced userId (HhAuth.short_id hhResume) d with
        | Some existing => update_synced e existing detail
        | None => insert_synced e userId (HhAuth.short_id hhResume) detail true
        end in
      callback_loop e userId accessToken rest
  end.

(** The callback, from the point where the user row is known and the fresh
    access token is at hand; a failure of the synchronisation is logged and
    dropped. *)
Definition callback_sync (e : HhAuth.Env) (userId accessToken : string) : M unit :=
  try_catch
    (let* hhResumes := HhAuth.getHHResumes e accessToken in
     callback_loop e userId accessToken hhResumes)
    (ret tt).

(** *** POST /api/apply/async *)

Record VacancyData : Type := mkVacancyData {
  vd_title : option string;
  vd_company : option string;
  vd_salary : option string;
  vd_description : option string;
  vd_tags : option (list string)
}.

Record ApplyRequest : Type := mkApplyRequest {
  ap_userId : option string;
  ap_vacancyId : option string;
  ap_vacancyData : option VacancyData;
  ap_resumeText : option string;
  ap_isDemo : bool
}.

(** [vacancyData?.f] *)
Definition opt_field {A : Type} (vd : option VacancyData) (f : VacancyData -> option A)
  : option A :=
  match vd with
  | Some v => f v
  | None => None
  end.

Record Queued : Type := mkQueued {
  q_status : string;
  q_applicationId : Z;
  q_message : string
}.

Inductive apply_reply : Type :=
| ApplyBadRequest (error : string)
| ApplyQueued (body : Queued)
| ApplyFailed (error : string).

Definition update_application (id : Z) (s : ApplicationSet) : M unit :=
  emit (UpdateApplication id s) ;;
  modify_db (fun d =>
    with_applications
      (update_where (fun a => (app_id a =? id)%Z) (apply_set s) (applications d))
      (applications_seq d) d).

(** The rows [WHERE user_id = userId AND selected = true] matches. *)
Definition selected_rows (userId : string) (d : Db) : list Resume :=
  filter (fun r => eq_col (resume_userId r) userId && selected r) (resumes d).

(** [const [selectedResume] = await db.select()...]: the first row of a query
    that has no [ORDER BY].  With no user id the comparison is against a null
    and selects nothing. *)
Definition select_selected (w : World) (userId : option string) : M (option Resume) :=
  let* d := get_db in
  ret match userId with
      | Some u => first_in_heap (heap w) (selected_rows u d) None
      | None => None
      end.

Definition background_vacancy (vacancyId : string) (vacancyData : option VacancyData)
  : OpenRouter.Job :=
  OpenRouter.mkJob
    (JS.int_or (JS.parseInt vacancyId) (fun z => z) 0)
    (JS.or_else (opt_field vacancyData vd_title) "")
    (JS.or_else (opt_field vacancyData vd_company) "")
    (JS.or_else (opt_field vacancyData vd_salary) "")
    (JS.or_else (opt_field vacancyData vd_description) "")
    match opt_field vacancyData vd_tags with
    | Some tags => tags
    | None => []
    end.

(** The first [try] of the background task: the cover letter. *)
Definition background_letter (w : World) (req : ApplyRequest) (vacancyId : string)
  : M string :=
  try_catch
    (let vacancy := background_vacancy vacancyId (ap_vacancyData req) in
     let* selectedResume := try_catch (select_selected w (ap_userId req)) (ret None) in
     let resumeTextFinal :=
       match selectedResume with
       | Some r => JS.or_else (Some (content r)) ""
       | None => ""
       end in
     emit (Generate resumeTextFinal vacancy) ;;
     ret (OpenRouter.generateCoverLetter (llm w) resumeTextFinal vacancy))
    (ret "Ошибка генерации сопроводительного письма.").

Definition background_submit (w : World) (userId vacancyId coverLetter : string)
  (id : Z) : M unit :=
  let* accessToken := HhAuth.getValidAccessToken (hh w) userId in
  let unauthenticated :=
    update_application id
      (mkSet (Some (Some coverLetter)) None (Some "failed")
             (Some (Some "Не авторизован на hh.ru")) None) in
  required accessToken unauthenticated (fun accessToken =>
    let* selectedResume := select_selected w (Some userId) in
    let no_resume :=
      update_application id
        (mkSet (Some (Some coverLetter)) None (Some "failed")
               (Some (Some "Не выбрано резюме")) None) in
    match selectedResume with
    | None => no_resume
    | Some selectedResume =>
        required (hhResumeId selectedResume) no_resume (fun hhResumeId =>
          let* result :=
            HhAuth.applyToVacancy (hh w) accessToken vacancyId hhResumeId coverLetter in
          if JS.truthy (HhAuth.neg_error result)
          then
            update_application id
              (mkSet (Some (Some coverLetter)) (Some (Some (resume_id selectedResume)))
                     (Some "failed") (Some (HhAuth.neg_error result)) None)
          else
            update_application id
              (mkSet (Some (Some coverLetter)) (Some (Some (resume_id selectedResume)))
                     (Some "success") None
                     (Some (JS.or_null (HhAuth.neg_id result)))))
    end).

(** The callback handed to [setImmediate]. *)
Definition background (w : World) (req : ApplyRequest) (vacancyId : string) (id : Z)
  : M unit :=
  try_catch
    (let* coverLetter := background_letter w req vacancyId in
     let demo :=
       update_application id
         (mkSet (Some (Some coverLetter)) None (Some "demo") None None) in
     if ap_isDemo req then demo
     else
       required (ap_userId req) demo (fun userId =>
         background_submit w userId vacancyId coverLetter id))
    (update_application id
       (mkSet None None (Some "failed")
              (Some (Some "Внутренняя ошибка обработки")) None)).

(** The handler up to the response: the reply, the store, and the task it
    schedules.  The insert fails, and the [catch] of the handler answers with
    the error status, for a job id that is no value of the integer column
    and for a user id that names no user; in the second case the serial
    drawn for the row is not given back. *)
Definition post_apply_async (w : World) (req : ApplyRequest) (d : Db)
  : apply_reply * Db * option (M unit) :=
  required (ap_vacancyId req) (ApplyBadRequest "Vacancy ID required", d, None)
    (fun vacancyId =>
       let jobTitle := JS.or_else (opt_field (ap_vacancyData req) vd_title) "Вакансия" in
       let company := JS.or_else (opt_field (ap_vacancyData req) vd_company) "Компания" in
       let jobId := JS.int_or (JS.parseInt vacancyId) (@Some Z) None in
       let pendingApp :=
         mkApplication (applications_seq d) (JS.or_null (ap_userId req))
                       (Some vacancyId) jobId jobTitle company
                       None None None "pending" None (HhAuth.now (hh w)) in
       if negb (int4_or_null jobId)
       then (ApplyFailed "Failed to queue application", d, None)
       else if negb (references_user (app_userId pendingApp) d)
       then (ApplyFailed "Failed to queue application",
             with_applications (applications d) (applications_seq d + 1) d,
             None)
       else
         let d1 :=
           with_applications (applications d ++ [pendingApp])
                             (applications_seq d + 1) d in
         let d2 :=
           required (ap_userId req) d1
             (fun userId => Storage.deleteCompatibility userId vacancyId d1) in
         (ApplyQueued
            (mkQueued "queued" (app_id pendingApp) "Отклик поставлен в очередь"),
          d2,
          Some (background w req vacancyId (app_id pendingApp)))).

(** The whole operation: the handler, then the task it scheduled. *)
Definition submitApplication (w : World) (req : ApplyRequest) (d : Db)
  : apply_reply * state :=
  match post_apply_async w req d with
  | (reply, d1, Some task) => (reply, snd (run task d1))
  | (reply, d1, None) => (reply, mkState d1 [])
  end.


(** *** POST /api/swipes/reset *)

Inductive reset_reply : Type :=
| ResetBadRequest (error : string)
| ResetOk (message : string).

Definition post_swipes_reset (userId : option string) (d : Db) : reset_reply * Db :=
  required userId (ResetBadRequest "User ID is required", d) (fun userId =>
    (ResetOk "Swipes reset successfully", Storage.deleteAllSwipes userId d)).

(** *** GET /api/applications/pending-count *)

Definition get_pending_count (userId : option string) (d : Db) : nat :=
  required userId 0%nat (fun userId => Storage.getPendingApplicationsCount userId d).

(** *** PATCH /api/applications/:id/cover-letter *)

Inductive patch_reply : Type :=
| PatchBadRequest (error : string)
| PatchNotFound
| PatchOk (updated : Application)
| PatchFailed.

(** The values of the [integer] column the statement compares with. *)
Definition is_int4 (id : Z) : bool := int4 id.

(** [coverLetter] is [None] when the field of the body is not a string.  An id
    that is NaN or out of the range of the integer column makes the statement
    fail, which the handler catches. *)
Definition patch_cover_letter (id_param : string) (coverLetter : option string) (d : Db)
  : patch_reply * Db :=
  match coverLetter with
  | None => (PatchBadRequest "Cover letter must be a string", d)
  | Some coverLetter =>
      match JS.to_int (JS.parseInt id_param) with
      | Some id =>
          if is_int4 id
          then
            match Storage.updateApplicationCoverLetter id coverLetter d with
            | (Some updated, d1) => (PatchOk updated, d1)
            | (None, d1) => (PatchNotFound, d1)
            end
          else (PatchFailed, d)
      | None => (PatchFailed, d)
      end
  end.

(** *** GET /api/hh/areas *)

(** A node of the region tree hh.ru answers with. *)
Inductive AreaNode : Type :=
| mkArea (id name : option string) (areas : option (list AreaNode)).

Fixpoint walk (node : AreaNode) : list (string * string) :=
  match node with
  | mkArea id name areas =>
      (match id, name with
       | Some i, Some n => if JS.truthy_str i && JS.truthy_str n then [(i, n)] else []
       | _, _ => []
       end
       ++ match areas with
          | Some children => flat_map walk children
          | None => []
          end)%list
  end.

(** The two module-level variables of the cache. *)
Record AreasCache : Type := mkAreasCache {
  hhAreasCache : option (list (string * string));
  hhAreasCacheUpdatedAt : option Z
}.

Definition HH_AREAS_TTL_MS : Z := 1000 * 60 * 60.

Inductive areas_reply : Type :=
| AreasOk (flat : list (string * string))
| AreasFailed.

(** [fetched] is what hh.ru answers when asked; [None] is a failed call or an
    error status. *)
Definition get_hh_areas (now : Z) (fetched : option (list AreaNode)) (c : AreasCache)
  : areas_reply * AreasCache :=
  let refetch :=
    match fetched with
    | None => (AreasFailed, c)
    | Some data =>
        let flat := flat_map walk data in
        (AreasOk flat, mkAreasCache (Some flat) (Some now))
    end in
  match hhAreasCache c, hhAreasCacheUpdatedAt c with
  | Some cached, Some updatedAt =>
      if negb (updatedAt =? 0)%Z && (now - updatedAt <? HH_AREAS_TTL_MS)%Z
      then (AreasOk cached, c)
      else refetch
  | _, _ => refetch
  end.

(** *** POST /api/hh/apply, the synchronous route *)







End Routes.

(** ** Observations on the store and on the log, for the statements below *)

Module Observe.
Import Schema Effect.

Definition same_pair (userId vacancyId : string) (s : Swipe) : bool :=
  String.eqb (swipe_userId s) userId && String.eqb (swipe_vacancyId s) vacancyId.

(** How many swipe rows the store keeps for a pair. *)
Definition count_swipes (userId vacancyId : string) (d : Db) : nat :=
  List.length (filter (same_pair userId vacancyId) (swipes d)).

Definition selected_external (userId : string) (r : Resume) : bool :=
  eq_col (resume_userId r) userId
  && match hhResumeId r with Some _ => true | None => false end
  && selected r.

(** How many resumes that came from hh.ru a user has marked selected. *)
Definition count_selected_external (userId : string) (d : Db) : nat :=
  List.length (filter (selected_external userId) (resumes d)).

Definition at_most_one_selected (userId : string) (d : Db) : Prop :=
  (count_selected_external userId d <= 1)%nat.

(** The resume texts handed to the cover-letter generator, in order. *)
Definition fed_resumes (l : list event) : list string :=
  flat_map (fun ev => match ev with Generate resume _ => [resume] | _ => [] end) l.

(** The requests sent to the negotiation endpoint of hh.ru. *)
Definition is_negotiate (ev : event) : bool :=
  match ev with Negotiate _ _ _ _ => true | _ => false end.

Definition submissions (l : list event) : list event := filter is_negotiate l.

(** The writes made to the application row [id], in order. *)
Definition updates_of (id : Z) (l : list event) : list ApplicationSet :=
  flat_map (fun ev =>
              match ev with
              | UpdateApplication i s => if (i =? id)%Z then [s] else []
              | _ => []
              end) l.



(** The selected resume of a user as the task reads it: the row its query
    returns first. *)
Definition selected_row (w : Routes.World) (userId : string) (d : Db) : option Resume :=
  Routes.first_in_heap (Routes.heap w) (Routes.selected_rows userId d) None.

(** The text the task takes from it; empty when the query returns no row or
    the request names no user. *)
Definition resume_text (w : Routes.World) (userId : option string) (d : Db) : string :=
  match userId with
  | Some u => match selected_row w u d with Some r => content r | None => "" end
  | None => ""
  end.

(** Whether the applications table takes the row the apply route builds for
    a request: the vacancy id, read as a number, is a value of the integer
    column, and the user id, when the request has one, names a user. *)
Definition storable (req : Routes.ApplyRequest) (d : Db) : bool :=
  match Routes.ap_vacancyId req with
  | Some vacancyId =>
      int4_or_null (JS.int_or (JS.parseInt vacancyId) (@Some Z) None)
      && references_user (JS.or_null (Routes.ap_userId req)) d
  | None => false
  end.


(** The cover letter the task generates for a request: the generator run on
    the text of the selected resume the task reads and on the vacancy
    snapshot. *)
Definition cover_letter (w : Routes.World) (req : Routes.ApplyRequest)
  (vacancyId : string) (d : Db) : string :=
  OpenRouter.generateCoverLetter (Routes.llm w)
    (resume_text w (Routes.ap_userId req) d)
    (Routes.background_vacancy vacancyId (Routes.ap_vacancyData req)).

(** The answer of the token manager on a store, run on its own. *)
Definition token_of (e : HhAuth.Env) (userId : string) (d : Db) : option string :=
  match fst (run (HhAuth.getValidAccessToken e userId) d) with
  | Some token => token
  | None => None
  end.



(** A score as the scorer is meant to return it: an integer from 0 to 100. *)
Definition in_range (n : JS.number) : Prop :=
  exists z, (0 <= z <= 100)%Z /\ n = JS.of_Z z.

(** What every result of the scorer satisfies. *)
Definition sound (r : OpenRouter.CompatibilityResult) : Prop :=
  (OpenRouter.score r = JS.NaN \/ in_range (OpenRouter.score r))
  /\ OpenRouter.color r = Bucket.scoreToColor (OpenRouter.score r).

(** The statuses in which the pipeline leaves an application. *)
Definition terminal (status : string) : Prop :=
  status = "demo" \/ status = "failed" \/ status = "success".

Definition is_refresh (ev : event) : bool :=
  match ev with RefreshToken _ => true | _ => false end.

(** The calls made to the token endpoint of hh.ru. *)
Definition refreshes (l : list event) : list event := filter is_refresh l.

(** The store after [UPDATE applications SET s WHERE id = id]. *)
Definition written (id : Z) (s : ApplicationSet) (d : Db) : Db :=
  with_applications
    (update_where (fun a => (app_id a =? id)%Z) (apply_set s) (applications d))
    (applications_seq d) d.

(** The users table as a run of the token manager for a user leaves it:
    untouched, or with new tokens in the rows of that user. *)
Definition refreshed (userId : option string) (before after : list User) : Prop :=
  after = before
  \/ exists u access refresh expires,
       userId = Some u
       /\ after = update_where (fun r => String.eqb (user_id r) u)
                               (set_tokens access refresh expires) before.


(** Whether a character occurs in a string. *)
Fixpoint occurs (c : ascii) (s : string) : bool :=
  match s with
  | String x r => Ascii.eqb x c || occurs c r
  | EmptyString => false
  end.

(** Whether every character of a string passes a test. *)
Fixpoint every (p : ascii -> bool) (s : string) : bool :=
  match s with
  | String x r => p x && every p r
  | EmptyString => true
  end.

(** How many rows the store keeps for one resume of hh.ru and one user. *)
Definition count_synced (userId hhId : string) (d : Db) : nat :=
  List.length (filter (fun r => eq_col (resume_userId r) userId
                                && eq_col (hhResumeId r) hhId)
                      (resumes d)).

(** How many resumes typed by hand the store keeps for a user. *)
Definition count_manual (userId : string) (d : Db) : nat :=
  List.length (filter (Storage.is_manual userId) (resumes d)).

Definition not_markup (c : ascii) : bool := negb (OpenRouter.is_markup c).

Definition starts_unspaced (s : string) : bool :=
  match s with
  | String c _ => negb (JS.is_space c)
  | EmptyString => true
  end.

(** Every white character is a plain space that is followed by the given
    thing: a character that is not white, or, when [at_end] allows it, the
    end of the text. *)
Fixpoint spaces_single (at_end : bool) (s : string) : bool :=
  match s with
  | String c r =>
      (if JS.is_space c
       then Ascii.eqb c " "
            && match r with
               | String c2 _ => negb (JS.is_space c2)
               | EmptyString => at_end
               end
       else true)
      && spaces_single at_end r
  | EmptyString => true
  end.

(** A text with no white space at either end and single plain spaces
    inside. *)
Definition tidy (s : string) : bool := starts_unspaced s && spaces_single false s.

(** Whether a row of the compatibility cache is the score of one user for
    one vacancy. *)
Definition cached_for (userId vacancyId : string) (c : AiCompatibility) : bool :=
  String.eqb (ai_userId c) userId && String.eqb (ai_vacancyId c) vacancyId.

(** How many nodes a tree of regions has. *)
Fixpoint nodes (node : Routes.AreaNode) : nat :=
  match node with
  | Routes.mkArea _ _ areas =>
      S (match areas with
         | Some children => list_sum (map nodes children)
         | None => 0
         end)
  end.

(** Whether a request at [now] is answered from the cache of regions. *)
Definition fresh (now : Z) (c : Routes.AreasCache) : bool :=
  match Routes.hhAreasCache c, Routes.hhAreasCacheUpdatedAt c with
  | Some _, Some updatedAt =>
      negb (updatedAt =? 0)%Z && (now - updatedAt <? Routes.HH_AREAS_TTL_MS)%Z
  | _, _ => false
  end.

(** Requests for the regions, one after the other: each comes with its time
    and with what hh.ru would answer at that time. *)
Fixpoint areas_session (calls : list (Z * option (list Routes.AreaNode)))
  (c : Routes.AreasCache) : list Routes.areas_reply * Routes.AreasCache :=
  match calls with
  | [] => ([], c)
  | (now, fetched) :: rest =>
      let '(reply, c1) := Routes.get_hh_areas now fetched c in
      let '(replies, c2) := areas_session rest c1 in
      (reply :: replies, c2)
  end.

End Observe.

(** ** client/src/lib/pendingStore.ts: the counter behind the badge *)

Module PendingStore.

(** The module-level counter, and how many times the listeners were
    notified. *)
Record store : Type := mkStore {
  pendingCount : Z;
  notified : nat
}.

Definition initial : store := mkStore 0 0.

Definition getPendingCount (s : store) : Z := pendingCount s.

Definition incrementPending (s : store) : store :=
  mkStore (pendingCount s + 1) (S (notified s)).

Definition decrementPending (s : store) : store :=
  if (0 <? pendingCount s)%Z
  then mkStore (pendingCount s - 1) (S (notified s))
  else s.

Inductive call : Type := Increment | Decrement.

Definition step (s : store) (c : call) : store :=
  match c with
  | Increment => incrementPending s
  | Decrement => decrementPending s
  end.

Definition calls (l : list call) (s : store) : store := fold_left step l s.

(** How many of the calls are increments. *)
Definition increments (l : list call) : Z :=
  Z.of_nat (List.length
              (filter (fun c => match c with Increment => true | Decrement => false end)
                      l)).

End PendingStore.

(** ** Concrete data for the examples below *)

Module Sample.
Import Schema.

Definition empty_db : Db := mkDb [] [] [] [] [] 1 1 1.

Definition swiped_db : Db :=
  mkDb [] [mkSwipe 1 "u1" "v7" "left" 1000; mkSwipe 2 "u2" "v9" "right" 1001]
       [] [] [] 3 1 1.

Definition job (id : string) : Routes.HHJob :=
  Routes.mkHHJob id "Маркетолог" "Ромашка" "100k" "" "" "Москва" "full-time" [].

Definition page : Routes.HHPage := Routes.mkPage [job "v7"; job "v8"; job "v9"] 3 1.

Definition resume_text : string :=
  "Marketing manager, five years in B2B SaaS: analytics, growth, pricing.".

Definition vacancy : OpenRouter.Job :=
  OpenRouter.mkJob 42 "Маркетолог" "Ромашка" "100k" "Рост продукта" ["SEO"].

(** An LLM that answers with an empty JSON object. *)
Definition empty_object_llm : OpenRouter.Env :=
  OpenRouter.mkEnv (Some "key")
    (fun _ => OpenRouter.Completion (JS.VStr "{}"))
    (fun _ => JS.NaN)
    (fun json =>
       if String.eqb json "{}"
       then Some (OpenRouter.mkResponse JS.VUndefined JS.VUndefined)
       else None)
    (fun _ => None)
    (fun _ => None).

(** An hh.ru account that lists two resumes. *)
Definition two_resumes_hh : HhAuth.Env :=
  HhAuth.mkEnv 5000
    (fun _ => None)
    (fun _ _ _ _ => None)
    (fun _ => Some [HhAuth.mkShort "r1" "Маркетолог"; HhAuth.mkShort "r2" "Аналитик"])
    (fun _ id => Some (HhAuth.mkDetail id ("Резюме " ++ id))).

(** A signed-in user whose selected resume is no longer listed first. *)
Definition one_selected_db : Db :=
  mkDb [mkUser "u1" (Some "hh1") (Some "token") (Some "refresh") (Some 9000)]
       []
       [mkResume 1 (Some "u1") (Some "r2") (Some "Аналитик") "Резюме r2" true 1000]
       [] [] 1 2 1.


Definition snapshot : Routes.VacancyData :=
  Routes.mkVacancyData (Some "Маркетолог") None (Some "100k") (Some "Рост продукта")
                       (Some ["SEO"]).


Definition user_request : Routes.ApplyRequest :=
  Routes.mkApplyRequest (Some "u1") (Some "42") (Some snapshot) (Some resume_text) false.

(** hh.ru accepting every application. *)
Definition accepting_hh : HhAuth.Env :=
  HhAuth.mkEnv 5000
    (fun _ => None)
    (fun _ _ _ _ =>
       Some (HhAuth.mkHttp 201 (Some "https://api.hh.ru/negotiations/777") None))
    (fun _ => Some [])
    (fun _ _ => None).

(** A signed-in user whose stored token has expired; [two_resumes_hh]
    refuses to refresh it. *)
Definition expired_db : Db :=
  mkDb [mkUser "u1" (Some "hh1") (Some "token") (Some "refresh") (Some 1000)]
       [] [] [] [] 1 1 1.

Definition accepting_world : Routes.World :=
  Routes.mkWorld empty_object_llm accepting_hh resume_id.

(** A signed-in user who selected the resume typed by hand. *)
Definition manual_selected_db : Db :=
  mkDb [mkUser "u1" (Some "hh1") (Some "token") (Some "refresh") (Some 9000)]
       []
       [mkResume 1 (Some "u1") None None "Маркетолог, 5 лет" true 1000]
       [] [] 1 2 1.


(** hh.ru granting a fresh pair of tokens for an hour. *)
Definition refreshing_hh : HhAuth.Env :=
  HhAuth.mkEnv 5000
    (fun _ => Some (HhAuth.mkTokens "token2" "refresh2" 3600))
    (fun _ _ _ _ => None)
    (fun _ => Some [])
    (fun _ _ => None).

(** A store with two cached scores of one user. *)
Definition cached_db : Db :=
  mkDb [mkUser "u1" (Some "hh1") (Some "token") (Some "refresh") (Some 9000)]
    [] [] []
    [mkAiCompatibility 1 "u1" "42" 80 "green" "Подходит.";
     mkAiCompatibility 2 "u1" "43" 20 "red" "Не подходит."]
    1 1 1.

(** A region with one region inside and a node without a name. *)
Definition regions : list Routes.AreaNode :=
  [Routes.mkArea (Some "113") (Some "Россия")
     (Some [Routes.mkArea (Some "1") (Some "Москва") (Some []);
            Routes.mkArea (Some "2") None None])].

(** A store with one application waiting for its letter. *)
Definition waiting_row : Application :=
  mkApplication 7 (Some "u1") (Some "42") (Some 42) "Маркетолог" "Ромашка"
    None None None "pending" None 1000.

Definition waiting_db : Db :=
  mkDb [mkUser "u1" (Some "hh1") (Some "token") (Some "refresh") (Some 9000)]
    [] [] [waiting_row] [] 1 1 8.

(** Two users, one of whom has swiped a vacancy. *)
Definition swiping_db : Db :=
  mkDb [mkUser "u1" None None None None; mkUser "u2" None None None None]
       [mkSwipe 1 "u1" "v7" "left" 1000; mkSwipe 2 "u2" "v9" "right" 1001]
       [] [] [] 3 1 1.

(** A user with two selected resumes, the one typed by hand inserted first,
    and a world whose heap holds the rows in the opposite order. *)
Definition two_selected_db : Db :=
  mkDb [mkUser "u1" (Some "hh1") (Some "token") (Some "refresh") (Some 9000)]
       []
       [mkResume 1 (Some "u1") None None "Маркетолог, 5 лет" true 1000;
        mkResume 2 (Some "u1") (Some "r2") (Some "Аналитик") "Резюме r2" true 1000]
       [] [] 1 3 1.

Definition reversed_world : Routes.World :=
  Routes.mkWorld empty_object_llm accepting_hh (fun r => (- resume_id r)%Z).


End Sample.

(** * Properties *)

(** Unfolds the plumbing of [Effect.M], leaving the calls in place. *)
Ltac unfold_effects :=
  cbv [Effect.try_catch Effect.bind Effect.get_db Effect.ret Effect.emit
       Effect.modify_db Effect.await Effect.throw].

(** ** The helpers on concrete inputs *)

Example trim_both_ends : JS.trim "  a b  " = "a b".
Proof. reflexivity. Qed.

Example sanitize_markup : OpenRouter.sanitize " **Good** fit - 5_years #1 " = "Good fit 5 years 1".
Proof. reflexivity. Qed.

Example parseInt_decimal : JS.parseInt " 123abc" = JS.of_Z 123.
Proof. reflexivity. Qed.

Example parseInt_hex : JS.parseInt "0x1f" = JS.of_Z 31.
Proof. reflexivity. Qed.

Example parseInt_no_digit : JS.parseInt "abc" = JS.NaN.
Proof. reflexivity. Qed.

Example parseInt10_no_hex : JS.parseInt10 "0x1f" = JS.of_Z 0.
Proof. reflexivity. Qed.

Example round_half_up :
  JS.Math_round (JS.Fin (5 # 2)) = JS.of_Z 3
  /\ JS.Math_round (JS.Fin (- 5 # 2)) = JS.of_Z (-2).
Proof. split; reflexivity. Qed.

Example clamp_scores :
  OpenRouter.clamp (JS.of_Z 140) = JS.of_Z 100
  /\ OpenRouter.clamp (JS.of_Z (-3)) = JS.of_Z 0
  /\ OpenRouter.clamp JS.PosInf = JS.of_Z 100
  /\ OpenRouter.clamp JS.NaN = JS.NaN.
Proof. repeat split; reflexivity. Qed.

Example jsonMatch_first_object :
  OpenRouter.jsonMatch "score {a} and {b}" = Some "{a}"
  /\ OpenRouter.jsonMatch "no closing { brace" = None.
Proof. split; reflexivity. Qed.

Example negotiation_id_from_location :
  HhAuth.after_last_slash "https://api.hh.ru/negotiations/777" "" = "777".
Proof. reflexivity. Qed.

Example negotiation_error_from_status :
  HhAuth.negotiation_of (HhAuth.mkHttp 403 None None)
  = HhAuth.mkNegotiation None (Some "HTTP 403") [].
Proof. reflexivity. Qed.

Example negotiation_error_from_body :
  HhAuth.negotiation_of
    (HhAuth.mkHttp 400 None (Some (HhAuth.mkErrorData None (Some "bad_argument") [])))
  = HhAuth.mkNegotiation None (Some "bad_argument") [].
Proof. reflexivity. Qed.

(** ** Arithmetic of the score *)

Lemma geb_Fin (x y : Q) : JS.geb (JS.Fin x) (JS.Fin y) = true <-> (y <= x)%Q.
Proof. simpl. apply Qle_bool_iff. Qed.

Lemma geb_Fin_false (x y : Q) : (x < y)%Q -> JS.geb (JS.Fin x) (JS.Fin y) = false.
Proof.
  intros H. destruct (JS.geb (JS.Fin x) (JS.Fin y)) eqn:E; [|reflexivity].
  apply geb_Fin in E. exfalso. exact (Qlt_not_le _ _ H E).
Qed.

(** C8. The bucket of a score: green from 75 up, yellow from 40 up to but not
    including 75, red below 40. *)
Theorem scoreToColor_buckets (q : Q) (c : Bucket.color) :
  Bucket.in_bucket q c -> Bucket.scoreToColor (JS.Fin q) = c.
Proof.
  unfold Bucket.scoreToColor, JS.of_Z, inject_Z.
  destruct c; simpl Bucket.in_bucket.
  - intros H. apply geb_Fin in H. now rewrite H.
  - intros [H40 H75]. rewrite (geb_Fin_false _ _ H75).
    apply geb_Fin in H40. now rewrite H40.
  - intros H. rewrite (geb_Fin_false q 75%Q).
    + now rewrite (geb_Fin_false _ _ H).
    + eapply Qlt_trans; [exact H|reflexivity].
Qed.

(** The scores of the specification's scenario: 82, 55 and 10. *)
Lemma scoreToColor_buckets_witness :
  Bucket.scoreToColor (JS.of_Z 82) = Bucket.green /\
  Bucket.scoreToColor (JS.of_Z 55) = Bucket.yellow /\
  Bucket.scoreToColor (JS.of_Z 10) = Bucket.red.
Proof.
  split; [|split].
  - apply (scoreToColor_buckets (inject_Z 82) Bucket.green). simpl.
    unfold Qle. simpl. lia.
  - apply (scoreToColor_buckets (inject_Z 55) Bucket.yellow). simpl.
    unfold Qle, Qlt. simpl. lia.
  - apply (scoreToColor_buckets (inject_Z 10) Bucket.red). simpl.
    unfold Qlt. simpl. lia.
Defined.

(** ** Swipes *)

Lemma required_truthy {R : Type} (s : string) (missing : R) (k : string -> R) :
  JS.truthy_str s = true -> Routes.required (Some s) missing k = k s.
Proof. intros H. unfold Routes.required. now rewrite H. Qed.

Lemma required_falsy {R : Type} (o : option string) (missing : R) (k : string -> R) :
  JS.truthy o = false -> Routes.required o missing k = missing.
Proof.
  destruct o as [s|]; simpl; [|reflexivity].
  unfold Routes.required. now intros ->.
Qed.

Lemma Set_has_In (ids : list string) (x : string) :
  Routes.Set_has ids x = true <-> In x ids.
Proof.
  unfold Routes.Set_has. rewrite existsb_exists. split.
  - intros [y [Hy E]]. apply String.eqb_eq in E. now subst.
  - intros H. exists x. split; [assumption|apply String.eqb_refl].
Qed.

Lemma getSwipedVacancyIds_In (userId v : string) (d : Schema.Db) :
  In v (Storage.getSwipedVacancyIds userId d) <->
  exists s, In s (Schema.swipes d) /\ Schema.swipe_userId s = userId
            /\ Schema.swipe_vacancyId s = v.
Proof.
  unfold Storage.getSwipedVacancyIds. rewrite in_map_iff. split.
  - intros [s [E H]]. apply filter_In in H as [H1 H2].
    apply String.eqb_eq in H2. now exists s.
  - intros [s [H1 [H2 H3]]]. exists s. split; [assumption|].
    apply filter_In. split; [assumption|]. subst. apply String.eqb_refl.
Qed.

(** C9. A search made with a user id returns the fetched page minus the
    vacancies that user has swiped: the page filtered against the set of
    swiped ids read from the store. *)
Theorem hh_jobs_excludes_swiped (data : Routes.HHPage) (userId : string)
  (batch : option string) (d : Schema.Db) :
  JS.truthy_str userId = true ->
  exists r,
    Routes.get_hh_jobs (Some data) (Some userId) batch d = Routes.JobsOk r
    /\ Routes.jobs r =
        filter (fun job => negb (Routes.Set_has (Storage.getSwipedVacancyIds userId d)
                                                (Routes.hh_id job)))
               (Routes.page_jobs data)
    /\ (forall job, In job (Routes.jobs r) <->
                    In job (Routes.page_jobs data)
                    /\ ~ In (Routes.hh_id job) (Storage.getSwipedVacancyIds userId d))
    /\ (forall job s, In job (Routes.jobs r) -> In s (Schema.swipes d) ->
                      Schema.swipe_userId s = userId ->
                      Schema.swipe_vacancyId s <> Routes.hh_id job).
Proof.
  intros Hu. unfold Routes.get_hh_jobs. rewrite (required_truthy _ _ _ Hu).
  eexists. split; [reflexivity|]. simpl Routes.jobs.
  assert (Hin : forall job,
             In job (filter (fun job => negb (Routes.Set_has
                       (Storage.getSwipedVacancyIds userId d) (Routes.hh_id job)))
                       (Routes.page_jobs data)) <->
             In job (Routes.page_jobs data)
             /\ ~ In (Routes.hh_id job) (Storage.getSwipedVacancyIds userId d)).
  { intros job. rewrite filter_In, negb_true_iff, <- not_true_iff_false, Set_has_In.
    reflexivity. }
  split; [reflexivity|]. split; [exact Hin|].
  intros job s Hjob Hs Hsu E. apply Hin in Hjob as [_ Hnot]. apply Hnot.
  apply getSwipedVacancyIds_In. now exists s.
Qed.

Lemma hh_jobs_excludes_swiped_witness :
  JS.truthy_str "u1" = true /\
  exists r,
    Routes.get_hh_jobs (Some Sample.page) (Some "u1") (Some "1") Sample.swiped_db
    = Routes.JobsOk r
    /\ Routes.jobs r = [Sample.job "v8"; Sample.job "v9"].
Proof.
  split; [reflexivity|].
  destruct (hh_jobs_excludes_swiped Sample.page "u1" (Some "1") Sample.swiped_db
              eq_refl) as [r [E [Hjobs _]]].
  exists r. split; [exact E|]. rewrite Hjobs. reflexivity.
Defined.

Lemma hasSwipedVacancy_count (userId vacancyId : string) (d : Schema.Db) :
  Storage.hasSwipedVacancy userId vacancyId d
  = negb (Observe.count_swipes userId vacancyId d =? 0)%nat.
Proof.
  unfold Storage.hasSwipedVacancy, Observe.count_swipes.
  change (fun s => String.eqb (Schema.swipe_userId s) userId
                   && String.eqb (Schema.swipe_vacancyId s) vacancyId)
    with (Observe.same_pair userId vacancyId).
  now destruct (filter (Observe.same_pair userId vacancyId) (Schema.swipes d)).
Qed.

Lemma hasSwipedVacancy_row (s : Schema.Swipe) (d : Schema.Db) :
  In s (Schema.swipes d) ->
  Storage.hasSwipedVacancy (Schema.swipe_userId s) (Schema.swipe_vacancyId s) d = true.
Proof.
  intros H. unfold Storage.hasSwipedVacancy.
  assert (Hf : In s (filter (fun s' =>
                  String.eqb (Schema.swipe_userId s') (Schema.swipe_userId s)
                  && String.eqb (Schema.swipe_vacancyId s') (Schema.swipe_vacancyId s))
                  (Schema.swipes d))).
  { apply filter_In. split; [assumption|]. now rewrite !String.eqb_refl. }
  destruct (filter _ (Schema.swipes d)); [destruct Hf|reflexivity].
Qed.

(** Whatever the request, the handler leaves at most one more row for a pair,
    and none where a row was there. *)
Lemma post_swipes_count (now : Z) (req : Routes.SwipeRequest) (d : Schema.Db)
  (u v : string) :
  (Observe.count_swipes u v (snd (Routes.post_swipes now req d))
   <= Nat.max 1 (Observe.count_swipes u v d))%nat.
Proof.
  assert (Hsame : (Observe.count_swipes u v d
                   <= Nat.max 1 (Observe.count_swipes u v d))%nat) by lia.
  unfold Routes.post_swipes, Routes.required.
  destruct (Routes.sw_userId req) as [userId|]; [|exact Hsame].
  destruct (JS.truthy_str userId); [|exact Hsame].
  destruct (Routes.sw_vacancyId req) as [vacancyId|]; [|exact Hsame].
  destruct (JS.truthy_str vacancyId); [|exact Hsame].
  destruct (Routes.sw_direction req) as [direction|]; [|exact Hsame].
  destruct (JS.truthy_str direction); [|exact Hsame].
  destruct (negb _); [exact Hsame|].
  destruct (Storage.hasSwipedVacancy userId vacancyId d) eqn:Has; [exact Hsame|].
  rewrite hasSwipedVacancy_count in Has. apply negb_false_iff, Nat.eqb_eq in Has.
  unfold Storage.createSwipe.
  destruct (Schema.has_user userId d); [|exact Hsame].
  unfold Observe.count_swipes in *. cbn [snd].
  cbn [Storage.deleteCompatibility Schema.with_aiCompatibility Schema.with_swipes
       Schema.swipes].
  rewrite filter_app, length_app. cbn [filter].
  destruct (Observe.same_pair u v _) eqn:E; cbn [List.length]; [|lia].
  unfold Observe.same_pair in E. cbn [Schema.swipe_userId Schema.swipe_vacancyId] in E.
  apply andb_true_iff in E as [E1 E2].
  apply String.eqb_eq in E1, E2. subst. rewrite Has. lia.
Qed.

(** C7. Once a swipe of a vacancy by a user is on record, a further swipe
    request for the pair is answered [alreadySwiped] and inserts nothing;
    no request ever leaves a pair with more than one row unless it already
    had more. *)
Theorem swipe_dedup (now : Z) (userId vacancyId direction : string) (d : Schema.Db) :
  JS.truthy_str userId = true ->
  JS.truthy_str vacancyId = true ->
  direction = "left" \/ direction = "right" ->
  (exists s, In s (Schema.swipes d) /\ Schema.swipe_userId s = userId
             /\ Schema.swipe_vacancyId s = vacancyId) ->
  Routes.post_swipes now
    (Routes.mkSwipeRequest (Some vacancyId) (Some direction) (Some userId)) d
  = (Routes.SwipeAlready, d)
  /\ (forall now' req u v,
        (Observe.count_swipes u v (snd (Routes.post_swipes now' req d))
         <= Nat.max 1 (Observe.count_swipes u v d))%nat).
Proof.
  intros Hu Hv Hdir [s [Hs [Eu Ev]]]. split.
  - unfold Routes.post_swipes.
    cbn [Routes.sw_userId Routes.sw_vacancyId Routes.sw_direction].
    rewrite (required_truthy _ _ _ Hu), (required_truthy _ _ _ Hv).
    assert (Hd : JS.truthy_str direction = true) by (destruct Hdir; now subst).
    rewrite (required_truthy _ _ _ Hd).
    assert (Hin : existsb (String.eqb direction) ["left"; "right"] = true)
      by (destruct Hdir; now subst).
    rewrite Hin. cbn [negb].
    subst userId vacancyId. now rewrite (hasSwipedVacancy_row s d Hs).
  - intros now' req u v. apply post_swipes_count.
Qed.

Lemma swipe_dedup_witness :
  Routes.post_swipes 2000
    (Routes.mkSwipeRequest (Some "v7") (Some "right") (Some "u1")) Sample.swiped_db
  = (Routes.SwipeAlready, Sample.swiped_db).
Proof.
  refine (proj1 (swipe_dedup 2000 "u1" "v7" "right" Sample.swiped_db
                   eq_refl eq_refl (or_intror eq_refl) _)).
  exists (Schema.mkSwipe 1 "u1" "v7" "left" 1000).
  split; [|split]; [left|..]; reflexivity.
Defined.

(** ** The compatibility scorer *)

Lemma inject_Z_leb (a b : Z) : Qle_bool (inject_Z a) (inject_Z b) = (a <=? b)%Z.
Proof.
  destruct (a <=? b)%Z eqn:E.
  - apply Qle_bool_iff. rewrite <- Zle_Qle. now apply Z.leb_le.
  - destruct (Qle_bool _ _) eqn:F; [|reflexivity].
    apply Qle_bool_iff in F. rewrite <- Zle_Qle in F.
    apply Z.leb_le in F. congruence.
Qed.

Lemma clamp_of_Z (z : Z) :
  OpenRouter.clamp (JS.of_Z z) = JS.of_Z (Z.max 0 (Z.min 100 z)).
Proof.
  unfold OpenRouter.clamp, JS.Math_min, JS.Math_max, JS.of_Z.
  cbn [JS.is_nan orb JS.geb]. rewrite inject_Z_leb.
  destruct (100 <=? z)%Z eqn:E.
  - cbn [JS.is_nan orb JS.geb]. rewrite inject_Z_leb. cbn.
    apply Z.leb_le in E. f_equal. f_equal. lia.
  - cbn [JS.is_nan orb JS.geb]. rewrite inject_Z_leb.
    apply Z.leb_gt in E.
    destruct (z <=? 0)%Z eqn:F;
      [apply Z.leb_le in F|apply Z.leb_gt in F]; f_equal; f_equal; lia.
Qed.

Lemma clamp_round (n : JS.number) :
  n <> JS.NaN -> Observe.in_range (OpenRouter.clamp (JS.Math_round n)).
Proof.
  destruct n as [| | |q]; intros H.
  - congruence.
  - exists 100%Z. split; [lia|reflexivity].
  - exists 0%Z. split; [lia|reflexivity].
  - cbn [JS.Math_round]. fold (JS.of_Z (Qfloor (q + (1 # 2)))).
    rewrite clamp_of_Z. eexists. split; [|reflexivity]. lia.
Qed.

Lemma clamp_parseInt10 (s : string) :
  OpenRouter.clamp (JS.parseInt10 s) = JS.NaN
  \/ Observe.in_range (OpenRouter.clamp (JS.parseInt10 s)).
Proof.
  unfold JS.parseInt10. destruct (JS.strip_sign s) as [neg body].
  unfold JS.signed_digits. destruct (JS.digits_prefix 10 body None) as [n|].
  - right. rewrite clamp_of_Z. eexists. split; [|reflexivity]. lia.
  - now left.
Qed.

Lemma neutral_sound (vacancyId explanation : string) :
  Observe.sound (OpenRouter.mkResult vacancyId (JS.of_Z 50) Bucket.yellow explanation).
Proof.
  split; [|reflexivity]. right. exists 50%Z. split; [lia|reflexivity].
Qed.

Lemma parsed_try_sound (e : OpenRouter.Env) (vacancyId json : string)
  (r : OpenRouter.CompatibilityResult) :
  OpenRouter.parsed_try e vacancyId json = Some r -> Observe.sound r.
Proof.
  unfold OpenRouter.parsed_try.
  destruct (OpenRouter.JSON_parse e json) as [parsed|]; [|discriminate].
  set (n := JS.ToNumber _ _).
  destruct (if JS.value_truthy _ then _ else _); try discriminate.
  intros [= <-]. split; [|reflexivity]. cbn [OpenRouter.score].
  destruct n as [| | |q] eqn:En.
  - now left.
  - right. apply clamp_round. discriminate.
  - right. apply clamp_round. discriminate.
  - right. apply clamp_round. discriminate.
Qed.

Lemma extracted_sound (e : OpenRouter.Env) (vacancyId text : string) :
  Observe.sound (OpenRouter.extracted e vacancyId text).
Proof.
  unfold OpenRouter.extracted.
  destruct (OpenRouter.scoreMatch e text) as [digits|]; [|apply neutral_sound].
  split; [|reflexivity]. apply clamp_parseInt10.
Qed.

(** The scorer is a total function, so no input makes it throw; its score is
    an integer from 0 to 100 or NaN, and the colour is the bucket of the
    score. *)
Lemma calculateCompatibility_sound (e : OpenRouter.Env) (resume : string)
  (vacancy : OpenRouter.Job) :
  Observe.sound (OpenRouter.calculateCompatibility e resume vacancy).
Proof.
  unfold OpenRouter.calculateCompatibility.
  destruct (_ || _ || _); [apply neutral_sound|].
  destruct (OpenRouter.compatibility_try _ _ _) as [r|] eqn:E; [|apply neutral_sound].
  unfold OpenRouter.compatibility_try in E.
  destruct (OpenRouter.chat e _) as [|status|content]; [discriminate| |].
  - injection E as <-. apply neutral_sound.
  - destruct (if JS.value_truthy content then content else JS.VStr "");
      try discriminate.
    destruct (OpenRouter.jsonMatch s) as [json|].
    + destruct (OpenRouter.parsed_try e _ json) as [r'|] eqn:P.
      * injection E as <-. eapply parsed_try_sound; eassumption.
      * injection E as <-. apply extracted_sound.
    + injection E as <-. apply extracted_sound.
Qed.

(** The branches that give up on the LLM answer the neutral score: no API
    key or too short a resume, a call that throws, an error status. *)
Lemma calculateCompatibility_neutral (e : OpenRouter.Env) (resume : string)
  (vacancy : OpenRouter.Job) :
  JS.truthy (OpenRouter.OPENROUTER_API_KEY e) = false
  \/ JS.truthy_str resume = false
  \/ (String.length (JS.trim resume) < 50)%nat
  \/ (forall p, OpenRouter.chat e p = OpenRouter.FetchThrows)
  \/ (forall p, exists status, OpenRouter.chat e p = OpenRouter.HttpError status) ->
  OpenRouter.score (OpenRouter.calculateCompatibility e resume vacancy) = JS.of_Z 50
  /\ OpenRouter.color (OpenRouter.calculateCompatibility e resume vacancy)
     = Bucket.yellow.
Proof.
  intros H. unfold OpenRouter.calculateCompatibility.
  destruct (negb (JS.truthy (OpenRouter.OPENROUTER_API_KEY e))) eqn:Ekey;
    [now split|].
  destruct (negb (JS.truthy_str resume)) eqn:Eres; [now split|].
  destruct (String.length (JS.trim resume) <? 50)%nat eqn:Elen; [now split|].
  cbn [orb]. apply negb_false_iff in Ekey, Eres. apply Nat.ltb_ge in Elen.
  destruct H as [H | [H | [H | [H | H]]]]; try congruence; try lia.
  - unfold OpenRouter.compatibility_try. rewrite H. now split.
  - unfold OpenRouter.compatibility_try.
    destruct (H (OpenRouter.CompatibilityPrompt
                   (OpenRouter.compatibilityVacancyBlock vacancy)
                   (substring 0 3000 resume))) as [status ->].
    now split.
Qed.

(** C10, at the input that breaks it.  The LLM answers with a JSON object
    that has no [score] field (here the empty object): the score returned is
    NaN, filed under red, and not an integer between 0 and 100. *)
Theorem calculateCompatibility_missing_score :
  OpenRouter.calculateCompatibility Sample.empty_object_llm Sample.resume_text
    Sample.vacancy
  = OpenRouter.mkResult "42" JS.NaN Bucket.red "Анализ выполнен."
  /\ ~ Observe.in_range JS.NaN.
Proof.
  split; [vm_compute; reflexivity|].
  intros [z [_ H]]. discriminate.
Qed.

(** ** Resumes *)

(** C6, at the input that breaks it.  A first sign-in of a user whose hh.ru
    account lists two resumes: the store holds no resume before the callback
    and two selected hh.ru resumes of that user after it. *)
Theorem callback_sync_selects_every_resume :
  Observe.at_most_one_selected "u1" Sample.empty_db
  /\ Observe.count_selected_external "u1"
       (Effect.db (snd (Effect.run
          (Routes.callback_sync Sample.two_resumes_hh "u1" "token")
          Sample.empty_db))) = 2%nat.
Proof.
  split; [unfold Observe.at_most_one_selected; vm_compute; lia|].
  vm_compute. reflexivity.
Qed.

(** The sync route has the same defect when the resume it meets first is new
    while another one is already selected. *)
Lemma resumes_sync_selects_a_second :
  Observe.at_most_one_selected "u1" Sample.one_selected_db
  /\ Observe.count_selected_external "u1"
       (Effect.db (snd (Effect.run
          (Routes.post_resumes_sync Sample.two_resumes_hh (Some "u1"))
          Sample.one_selected_db))) = 2%nat.
Proof.
  split; [unfold Observe.at_most_one_selected; vm_compute; lia|].
  vm_compute. reflexivity.
Qed.

(** The other two writers of resume rows keep the invariant. *)

Lemma filter_length_map {A : Type} (p : A -> bool) (g : A -> A) (l : list A) :
  (forall r, p (g r) = p r) ->
  List.length (filter p (map g l)) = List.length (filter p l).
Proof.
  intros H. induction l as [|r l IH]; [reflexivity|].
  cbn [map filter]. rewrite H. destruct (p r); cbn [List.length]; now rewrite IH.
Qed.

Lemma filter_length_le {A : Type} (p q : A -> bool) (g : A -> A) (l : list A) :
  (forall r, p (g r) = true -> q r = true) ->
  (List.length (filter p (map g l)) <= List.length (filter q l))%nat.
Proof.
  intros H. induction l as [|r l IH]; [apply Nat.le_refl|].
  cbn [map filter]. destruct (p (g r)) eqn:E.
  - rewrite (H r E). cbn [List.length]. lia.
  - destruct (q r); cbn [List.length]; lia.
Qed.

Lemma at_most_one_with_id (x : Z) (l : list Schema.Resume) :
  NoDup (map Schema.resume_id l) ->
  (List.length (filter (fun r => (Schema.resume_id r =? x)%Z) l) <= 1)%nat.
Proof.
  induction l as [|r l IH]; intros H; [cbn; lia|].
  cbn [map] in H. inversion H as [|? ? Hnotin Hnodup]; subst.
  cbn [filter]. destruct (Schema.resume_id r =? x)%Z eqn:E; [|now apply IH].
  apply Z.eqb_eq in E. cbn [List.length].
  assert (Hnone : filter (fun r0 => (Schema.resume_id r0 =? x)%Z) l = []).
  { destruct (filter _ l) as [|r' l'] eqn:F; [reflexivity|].
    assert (Hin : In r' (filter (fun r0 => (Schema.resume_id r0 =? x)%Z) l))
      by (rewrite F; now left).
    apply filter_In in Hin as [Hin Hid]. apply Z.eqb_eq in Hid.
    exfalso. apply Hnotin. rewrite E, <- Hid. now apply in_map. }
  rewrite Hnone. cbn. lia.
Qed.

Lemma post_resume_keeps_selection (now : Z) (req : Routes.ResumeRequest)
  (d : Schema.Db) (u : string) :
  Observe.count_selected_external u (snd (Routes.post_resume now req d))
  = Observe.count_selected_external u d.
Proof.
  unfold Routes.post_resume, Routes.required.
  destruct (Routes.rs_content req) as [content|]; [|reflexivity].
  destruct (Routes.rs_userId req) as [userId|]; [|reflexivity].
  destruct (JS.truthy_str userId); [|reflexivity].
  unfold Storage.saveManualResume.
  destruct (Storage.getManualResume userId d) as [existing|];
    [|destruct (Schema.has_user userId d)];
    unfold Observe.count_selected_external;
    cbn [snd Schema.with_resumes Schema.resumes].
  - unfold Schema.update_where. apply filter_length_map.
    intros r. now destruct (Schema.resume_id r =? Schema.resume_id existing)%Z.
  - rewrite filter_app, length_app. cbn [filter].
    unfold Observe.selected_external at 2.
    cbn [Schema.hhResumeId Schema.selected]. rewrite !andb_false_r.
    cbn [List.length]. lia.
  - reflexivity.
Qed.

Lemma post_resumes_select_at_most_one (req : Routes.SelectRequest) (d : Schema.Db)
  (u : string) :
  NoDup (map Schema.resume_id (Schema.resumes d)) ->
  Observe.at_most_one_selected u d ->
  Observe.at_most_one_selected u (snd (Routes.post_resumes_select req d)).
Proof.
  intros Hids Hone. unfold Routes.post_resumes_select, Routes.required.
  destruct (Routes.sel_userId req) as [userId|]; [|exact Hone].
  destruct (JS.truthy_str userId); [|exact Hone].
  destruct (Routes.sel_resumeId req) as [resumeId|]; [|exact Hone].
  destruct (resumeId =? 0)%Z; [exact Hone|].
  assert (Hgoal : Observe.at_most_one_selected u
            (Schema.with_resumes
               (Schema.update_where
                  (fun r => (Schema.resume_id r =? resumeId)%Z
                            && Schema.eq_col (Schema.resume_userId r) userId)
                  (Schema.set_selected true)
                  (Schema.update_where
                     (fun r => Schema.eq_col (Schema.resume_userId r) userId)
                     (Schema.set_selected false) (Schema.resumes d)))
               (Schema.resumes_seq d) d)).
  { unfold Observe.at_most_one_selected, Observe.count_selected_external in *.
    cbn [Schema.with_resumes Schema.resumes].
    unfold Schema.update_where. rewrite map_map.
    destruct (String.eqb u userId) eqn:Eu.
    - apply String.eqb_eq in Eu. subst u.
      eapply Nat.le_trans; [|exact (at_most_one_with_id resumeId _ Hids)].
      apply filter_length_le. intros r.
      unfold Observe.selected_external.
      destruct (Schema.eq_col (Schema.resume_userId r) userId) eqn:Er;
        cbn [Schema.set_selected Schema.resume_id Schema.resume_userId];
        rewrite ?Er;
        destruct (Schema.resume_id r =? resumeId)%Z;
        cbn [andb Schema.set_selected Schema.resume_userId Schema.hhResumeId
             Schema.selected];
        rewrite ?Er; cbn [andb]; try reflexivity; try discriminate.
      rewrite andb_false_r. discriminate.
    - eapply Nat.le_trans; [|exact Hone]. apply Nat.eq_le_incl.
      apply filter_length_map. intros r.
      unfold Observe.selected_external.
      destruct (Schema.eq_col (Schema.resume_userId r) userId) eqn:Er.
      + assert (Hu : Schema.eq_col (Schema.resume_userId r) u = false).
        { unfold Schema.eq_col in *. destruct (Schema.resume_userId r) as [s|];
            [|reflexivity].
          apply String.eqb_eq in Er. subst s.
          rewrite String.eqb_sym. exact Eu. }
        cbn [Schema.set_selected Schema.resume_id Schema.resume_userId].
        rewrite Er.
        destruct (Schema.resume_id r =? resumeId)%Z;
          cbn [andb Schema.set_selected Schema.resume_userId];
          rewrite Hu; reflexivity.
      + rewrite Er, andb_false_r. reflexivity. }
  destruct (negb (Schema.int4 resumeId)); [|destruct (find _ _); exact Hgoal].
  unfold Observe.at_most_one_selected, Observe.count_selected_external in *.
  cbn [snd Schema.with_resumes Schema.resumes].
  eapply Nat.le_trans; [|exact Hone].
  unfold Schema.update_where. apply filter_length_le. intros r.
  unfold Observe.selected_external.
  destruct (Schema.eq_col (Schema.resume_userId r) userId); [|trivial].
  cbn [Schema.set_selected Schema.resume_userId Schema.hhResumeId Schema.selected].
  rewrite andb_false_r. discriminate.
Qed.

(** ** The application pipeline *)

Lemma or_else_empty (s : string) : JS.or_else (Some s) "" = s.
Proof.
  unfold JS.or_else, JS.truthy_str.
  destruct (String.eqb s "") eqn:E; [|reflexivity].
  apply String.eqb_eq in E. now subst.
Qed.

Lemma update_application_run (id : Z) (s : Schema.ApplicationSet) (st : Effect.state) :
  Routes.update_application id s st
  = (Some tt,
     Effect.mkState
       (Schema.with_applications
          (Schema.update_where (fun a => (Schema.app_id a =? id)%Z) (Schema.apply_set s)
             (Schema.applications (Effect.db st)))
          (Schema.applications_seq (Effect.db st)) (Effect.db st))
       (Effect.log st ++ [Effect.UpdateApplication id s])).
Proof. reflexivity. Qed.

Lemma background_letter_run (w : Routes.World) (req : Routes.ApplyRequest)
  (vacancyId : string) (st : Effect.state) :
  let text := Observe.resume_text w (Routes.ap_userId req) (Effect.db st) in
  let vacancy := Routes.background_vacancy vacancyId (Routes.ap_vacancyData req) in
  Routes.background_letter w req vacancyId st
  = (Some (OpenRouter.generateCoverLetter (Routes.llm w) text vacancy),
     Effect.mkState (Effect.db st) (Effect.log st ++ [Effect.Generate text vacancy])).
Proof.
  unfold Routes.background_letter, Routes.select_selected, Observe.resume_text,
    Observe.selected_row.
  unfold_effects.
  destruct (Routes.ap_userId req) as [u|]; [|reflexivity].
  cbn [Effect.db].
  destruct (Routes.first_in_heap _ _ _) as [r|]; [|reflexivity].
  cbn [Effect.db Effect.log]. now rewrite or_else_empty.
Qed.





Lemma storable_checks (req : Routes.ApplyRequest) (d : Schema.Db) (vacancyId : string) :
  Routes.ap_vacancyId req = Some vacancyId ->
  Observe.storable req d
  = Schema.int4_or_null (JS.int_or (JS.parseInt vacancyId) (@Some Z) None)
    && Schema.references_user (JS.or_null (Routes.ap_userId req)) d.
Proof. intros Hv. unfold Observe.storable. now rewrite Hv. Qed.


(** The handler on a request whose row the table refuses. *)
Lemma post_apply_async_refused (w : Routes.World) (req : Routes.ApplyRequest)
  (d : Schema.Db) (vacancyId : string) :
  Routes.ap_vacancyId req = Some vacancyId ->
  JS.truthy_str vacancyId = true ->
  Observe.storable req d = false ->
  exists d',
    Routes.post_apply_async w req d
    = (Routes.ApplyFailed "Failed to queue application", d', None)
    /\ Schema.applications d' = Schema.applications d
    /\ Schema.users d' = Schema.users d
    /\ Schema.resumes d' = Schema.resumes d
    /\ Schema.swipes d' = Schema.swipes d
    /\ Schema.aiCompatibility d' = Schema.aiCompatibility d.
Proof.
  intros Hv Ht Hst. rewrite (storable_checks req d vacancyId Hv) in Hst.
  unfold Routes.post_apply_async. rewrite Hv.
  rewrite (required_truthy _ _ _ Ht). cbn [Schema.app_userId].
  destruct (Schema.int4_or_null _); cbn [negb andb] in *.
  - rewrite Hst. cbn [negb]. eexists. split; [reflexivity|]. now repeat split.
  - exists d. now repeat split.
Qed.




Lemma find_update_where {A : Type} (p : A -> bool) (f : A -> A) (l : list A) :
  (forall a, p (f a) = p a) ->
  find p (Schema.update_where p f l) = option_map f (find p l).
Proof.
  intros H. induction l as [|a l IH]; [reflexivity|].
  cbn [Schema.update_where map find]. destruct (p a) eqn:E.
  - now rewrite H, E.
  - rewrite E. exact IH.
Qed.



Lemma select_selected_run (w : Routes.World) (userId : string) (st : Effect.state) :
  Routes.select_selected w (Some userId) st
  = (Some (Observe.selected_row w userId (Effect.db st)), st).
Proof. reflexivity. Qed.

Lemma applyToVacancy_run (e : HhAuth.Env) (token vacancyId resumeId message : string)
  (st : Effect.state) :
  HhAuth.applyToVacancy e token vacancyId resumeId message st
  = (option_map HhAuth.negotiation_of
       (HhAuth.post_negotiations e token vacancyId resumeId message),
     Effect.mkState (Effect.db st)
       (Effect.log st ++ [Effect.Negotiate token vacancyId resumeId message])).
Proof.
  unfold HhAuth.applyToVacancy.
  unfold_effects.
  now destruct (HhAuth.post_negotiations e token vacancyId resumeId message).
Qed.

(** The task on the demo path: one generation, one write, nothing else. *)
Lemma background_demo (w : Routes.World) (req : Routes.ApplyRequest)
  (vacancyId : string) (id : Z) (st : Effect.state) :
  Routes.ap_isDemo req = true \/ JS.truthy (Routes.ap_userId req) = false ->
  let text := Observe.resume_text w (Routes.ap_userId req) (Effect.db st) in
  let vacancy := Routes.background_vacancy vacancyId (Routes.ap_vacancyData req) in
  let letter := OpenRouter.generateCoverLetter (Routes.llm w) text vacancy in
  let write := Schema.mkSet (Some (Some letter)) None (Some "demo") None None in
  Routes.background w req vacancyId id st
  = (Some tt,
     Effect.mkState
       (Schema.with_applications
          (Schema.update_where (fun a => (Schema.app_id a =? id)%Z)
             (Schema.apply_set write) (Schema.applications (Effect.db st)))
          (Schema.applications_seq (Effect.db st)) (Effect.db st))
       (Effect.log st ++ [Effect.Generate text vacancy;
                          Effect.UpdateApplication id write])).
Proof.
  intros H text vacancy letter write. unfold Routes.background.
  unfold Effect.try_catch at 1. unfold Effect.bind at 1.
  rewrite background_letter_run. fold text vacancy letter write.
  assert (E : (if Routes.ap_isDemo req
               then Routes.update_application id write
               else Routes.required (Routes.ap_userId req)
                      (Routes.update_application id write)
                      (fun userId =>
                         Routes.background_submit w userId vacancyId letter id))
              = Routes.update_application id write).
  { destruct H as [-> | H]; [reflexivity|].
    rewrite (required_falsy _ _ _ H). now destruct (Routes.ap_isDemo req). }
  rewrite E, update_application_run. cbn [Effect.db Effect.log].
  now rewrite <- app_assoc.
Qed.






(** The task of a signed-in user outside demo mode: the cover letter, then
    the submission steps under the outer [catch]. *)
Lemma background_user (w : Routes.World) (req : Routes.ApplyRequest)
  (vacancyId userId : string) (id : Z) (st : Effect.state) :
  Routes.ap_isDemo req = false ->
  Routes.ap_userId req = Some userId ->
  JS.truthy_str userId = true ->
  let text := Observe.resume_text w (Routes.ap_userId req) (Effect.db st) in
  let vacancy := Routes.background_vacancy vacancyId (Routes.ap_vacancyData req) in
  Routes.background w req vacancyId id st
  = Effect.try_catch
      (Routes.background_submit w userId vacancyId
         (Observe.cover_letter w req vacancyId (Effect.db st)) id)
      (Routes.update_application id
         (Schema.mkSet None None (Some "failed")
            (Some (Some "Внутренняя ошибка обработки")) None))
      (Effect.mkState (Effect.db st) (Effect.log st ++ [Effect.Generate text vacancy])).
Proof.
  intros Hdemo Hu Ht text vacancy. unfold Routes.background.
  unfold Effect.try_catch at 1. unfold Effect.bind at 1.
  rewrite background_letter_run. rewrite Hdemo, Hu.
  rewrite (required_truthy _ _ _ Ht). rewrite <- Hu. reflexivity.
Qed.



(** What [applyToVacancy] makes of the answer of hh.ru. *)
Lemma or_else_truthy (o : option string) (d : string) :
  JS.truthy_str d = true -> JS.truthy_str (JS.or_else o d) = true.
Proof.
  intros H. unfold JS.or_else. destruct o as [s|]; [|exact H].
  destruct (JS.truthy_str s) eqn:E; [exact E|exact H].
Qed.

Lemma negotiation_of_error (r : HhAuth.HttpResponse) :
  HhAuth.response_ok r = false ->
  JS.truthy (HhAuth.neg_error (HhAuth.negotiation_of r)) = true.
Proof.
  intros H. unfold HhAuth.negotiation_of. rewrite H. cbn [negb].
  assert (H201 : (HhAuth.http_status r =? 201)%Z = false).
  { unfold HhAuth.response_ok in H. destruct (HhAuth.http_status r =? 201)%Z eqn:E;
      [|reflexivity].
    apply Z.eqb_eq in E. rewrite E in H. discriminate. }
  rewrite H201. cbn [andb].
  assert (Hgoal : forall data,
             JS.truthy_str
               (JS.or_else
                  (JS.or_opt (HhAuth.err_description data) (HhAuth.err_error data))
                  ("HTTP " ++ OpenRouter.String_of_Z (HhAuth.http_status r))) = true)
    by (intros data; now apply or_else_truthy).
  destruct (HhAuth.header_Location r); cbn [HhAuth.neg_error JS.truthy]; apply Hgoal.
Qed.

Lemma negotiation_of_created (r : HhAuth.HttpResponse) (location : string) :
  HhAuth.http_status r = 201%Z ->
  HhAuth.header_Location r = Some location ->
  JS.truthy_str location = true ->
  HhAuth.negotiation_of r
  = HhAuth.mkNegotiation (Some (HhAuth.after_last_slash location "")) None [].
Proof.
  intros Hs Hl Ht. unfold HhAuth.negotiation_of. now rewrite Hl, Hs, Ht.
Qed.













(** With two selected resumes the order in which the store returns the rows
    decides which text is fed. *)
Lemma heap_order_decides_fed_resume :
  Observe.fed_resumes
    (Effect.log (snd (Routes.submitApplication Sample.accepting_world
                        Sample.user_request Sample.two_selected_db)))
  = ["Маркетолог, 5 лет"]
  /\ Observe.fed_resumes
       (Effect.log (snd (Routes.submitApplication Sample.reversed_world
                           Sample.user_request Sample.two_selected_db)))
     = ["Резюме r2"].
Proof. split; reflexivity. Qed.


(** * Further properties of the code *)

(** ** The application pipeline, on every path *)

Lemma with_users_same (d : Schema.Db) : Schema.with_users (Schema.users d) d = d.
Proof. now destruct d. Qed.

(** The token manager writes to the users table only and calls the token
    endpoint at most once. *)
Lemma getValidAccessToken_frame (e : HhAuth.Env) (userId : string) (st : Effect.state) :
  exists us l,
    HhAuth.getValidAccessToken e userId st
    = (Some (Observe.token_of e userId (Effect.db st)),
       Effect.mkState (Schema.with_users us (Effect.db st)) (Effect.log st ++ l))
    /\ (l = [] \/ exists r, l = [Effect.RefreshToken r]).
Proof.
  unfold Observe.token_of, Effect.run, HhAuth.getValidAccessToken,
    HhAuth.refreshHHToken.
  unfold_effects. cbn [Effect.db Effect.log fst].
  assert (Hsame : forall o : option string,
             exists us l,
               (Some o, st)
               = (Some o, Effect.mkState (Schema.with_users us (Effect.db st))
                            (Effect.log st ++ l))
               /\ (l = [] \/ exists r, l = [Effect.RefreshToken r])).
  { intros o. exists (Schema.users (Effect.db st)), [].
    rewrite with_users_same, app_nil_r. destruct st. split; [reflexivity|now left]. }
  destruct (find _ (Schema.users (Effect.db st))) as [user|]; [|apply Hsame].
  destruct (Schema.hhAccessToken user) as [access|]; [|apply Hsame].
  destruct (Schema.hhRefreshToken user) as [refresh|]; [|apply Hsame].
  destruct (negb (JS.truthy_str access) || negb (JS.truthy_str refresh));
    [apply Hsame|].
  destruct (negb (HhAuth.expired e (Schema.hhTokenExpiresAt user)));
    [cbn [fst]; apply Hsame|].
  destruct (HhAuth.post_token_refresh e refresh) as [tokens|];
    cbn [fst Effect.db Effect.log].
  - eexists. exists [Effect.RefreshToken refresh]. split; [reflexivity|].
    right. now exists refresh.
  - exists (Schema.users (Effect.db st)), [Effect.RefreshToken refresh].
    rewrite with_users_same. split; [reflexivity|]. right. now exists refresh.
Qed.

Lemma middle_of_log (l more : list Effect.event) :
  (l = [] \/ exists r, l = [Effect.RefreshToken r]) ->
  (more = [] \/ exists t v r m, more = [Effect.Negotiate t v r m]) ->
  Observe.fed_resumes (l ++ more) = []
  /\ (forall i, Observe.updates_of i (l ++ more) = [])
  /\ List.length (Observe.submissions (l ++ more)) = List.length more
  /\ (List.length (Observe.refreshes (l ++ more)) <= 1)%nat.
Proof.
  intros [-> | [r ->]] [-> | (t & v & r' & m & ->)]; cbn; repeat split; lia.
Qed.

(** The submission steps of the task, however they end: one write to the
    row, with the status failed or success, after at most one call to the
    token endpoint and at most one negotiation request. *)
Lemma background_submit_outcome (w : Routes.World) (userId vacancyId letter : string)
  (id : Z) (st : Effect.state) :
  exists s us mid,
    Effect.try_catch (Routes.background_submit w userId vacancyId letter id)
      (Routes.update_application id
         (Schema.mkSet None None (Some "failed")
            (Some (Some "Внутренняя ошибка обработки")) None)) st
    = (Some tt,
       Effect.mkState (Observe.written id s (Schema.with_users us (Effect.db st)))
         (Effect.log st ++ mid ++ [Effect.UpdateApplication id s]))
    /\ (Schema.set_status s = Some "failed" \/ Schema.set_status s = Some "success")
    /\ Observe.fed_resumes mid = []
    /\ (forall i, Observe.updates_of i mid = [])
    /\ (List.length (Observe.submissions mid) <= 1)%nat
    /\ (List.length (Observe.refreshes mid) <= 1)%nat
    /\ (Schema.set_status s = Some "success" ->
        List.length (Observe.submissions mid) = 1%nat).
Proof.
  unfold Effect.try_catch, Routes.background_submit. unfold Effect.bind at 1.
  destruct (getValidAccessToken_frame (Routes.hh w) userId st) as (us & l & Etok & Hl).
  rewrite Etok.
  set (d2 := Schema.with_users us (Effect.db st)).
  assert (Hdone : forall s more caught,
    (more = [] \/ exists t v r m, more = [Effect.Negotiate t v r m]) ->
    (Schema.set_status s = Some "failed"
     \/ (Schema.set_status s = Some "success" /\ List.length more = 1%nat)) ->
    exists s' us' mid,
      (let (o, s'') :=
         Routes.update_application id s
           (Effect.mkState d2 ((Effect.log st ++ l) ++ more)) in
       match o with
       | Some a => (Some a, s'')
       | None => Routes.update_application id caught s''
       end)
      = (Some tt,
         Effect.mkState (Observe.written id s' (Schema.with_users us' (Effect.db st)))
           (Effect.log st ++ mid ++ [Effect.UpdateApplication id s']))
      /\ (Schema.set_status s' = Some "failed" \/ Schema.set_status s' = Some "success")
      /\ Observe.fed_resumes mid = []
      /\ (forall i, Observe.updates_of i mid = [])
      /\ (List.length (Observe.submissions mid) <= 1)%nat
      /\ (List.length (Observe.refreshes mid) <= 1)%nat
      /\ (Schema.set_status s' = Some "success" ->
          List.length (Observe.submissions mid) = 1%nat)).
  { intros s more caught Hmore Hs. exists s, us, (l ++ more)%list.
    rewrite update_application_run. cbn [Effect.db Effect.log].
    destruct (middle_of_log l more Hl Hmore) as (Hfed & Hupd & Hsub & Href).
    split; [now rewrite <- !app_assoc|].
    split; [destruct Hs as [Hs | [Hs _]]; auto|].
    split; [exact Hfed|]. split; [exact Hupd|].
    split; [rewrite Hsub; destruct Hmore as [-> | (t & v & r & m & ->)]; cbn; lia|].
    split; [exact Href|].
    intros Hsucc. rewrite Hsub.
    destruct Hs as [Hs | [_ Hs]]; [congruence|exact Hs]. }
  assert (Hdone0 : forall s caught,
    Schema.set_status s = Some "failed" ->
    exists s' us' mid,
      (let (o, s'') :=
         Routes.update_application id s (Effect.mkState d2 (Effect.log st ++ l)) in
       match o with
       | Some a => (Some a, s'')
       | None => Routes.update_application id caught s''
       end)
      = (Some tt,
         Effect.mkState (Observe.written id s' (Schema.with_users us' (Effect.db st)))
           (Effect.log st ++ mid ++ [Effect.UpdateApplication id s']))
      /\ (Schema.set_status s' = Some "failed" \/ Schema.set_status s' = Some "success")
      /\ Observe.fed_resumes mid = []
      /\ (forall i, Observe.updates_of i mid = [])
      /\ (List.length (Observe.submissions mid) <= 1)%nat
      /\ (List.length (Observe.refreshes mid) <= 1)%nat
      /\ (Schema.set_status s' = Some "success" ->
          List.length (Observe.submissions mid) = 1%nat)).
  { intros s caught Hs.
    specialize (Hdone s [] caught (or_introl eq_refl) (or_introl Hs)).
    now rewrite app_nil_r in Hdone. }
  unfold Routes.required at 1.
  destruct (Observe.token_of (Routes.hh w) userId (Effect.db st)) as [token|];
    [|now apply Hdone0].
  destruct (JS.truthy_str token); [|now apply Hdone0].
  unfold Effect.bind at 1. rewrite select_selected_run. cbn [Effect.db].
  destruct (Observe.selected_row w userId d2) as [resume|]; [|now apply Hdone0].
  unfold Routes.required at 1.
  destruct (Schema.hhResumeId resume) as [hhId|]; [|now apply Hdone0].
  destruct (JS.truthy_str hhId); [|now apply Hdone0].
  unfold Effect.bind at 1. rewrite applyToVacancy_run.
  cbn [Effect.db Effect.log].
  destruct (HhAuth.post_negotiations (Routes.hh w) token vacancyId hhId letter)
    as [response|]; cbn [option_map].
  - destruct (JS.truthy _); apply Hdone.
    + right. now exists token, vacancyId, hhId, letter.
    + now left.
    + right. now exists token, vacancyId, hhId, letter.
    + right. now split.
  - exists (Schema.mkSet None None (Some "failed")
              (Some (Some "Внутренняя ошибка обработки")) None),
      us, (l ++ [Effect.Negotiate token vacancyId hhId letter])%list.
    rewrite update_application_run. cbn [Effect.db Effect.log].
    destruct (middle_of_log l [Effect.Negotiate token vacancyId hhId letter] Hl)
      as (Hfed & Hupd & Hsub & Href).
    { right. now exists token, vacancyId, hhId, letter. }
    split; [now rewrite <- !app_assoc|]. split; [now left|].
    split; [exact Hfed|]. split; [exact Hupd|].
    split; [rewrite Hsub; cbn; lia|]. split; [exact Href|]. discriminate.
Qed.

(** The whole task, however it ends. *)
Lemma background_outcome (w : Routes.World) (req : Routes.ApplyRequest)
  (vacancyId : string) (id : Z) (d : Schema.Db) :
  exists s us mid,
    Effect.run (Routes.background w req vacancyId id) d
    = (Some tt,
       Effect.mkState (Observe.written id s (Schema.with_users us d))
         (Effect.Generate (Observe.resume_text w (Routes.ap_userId req) d)
            (Routes.background_vacancy vacancyId (Routes.ap_vacancyData req))
          :: mid ++ [Effect.UpdateApplication id s]))
    /\ (exists t, Schema.set_status s = Some t /\ Observe.terminal t)
    /\ Observe.fed_resumes mid = []
    /\ (forall i, Observe.updates_of i mid = [])
    /\ (List.length (Observe.submissions mid) <= 1)%nat
    /\ (List.length (Observe.refreshes mid) <= 1)%nat
    /\ (Schema.set_status s = Some "success" ->
        List.length (Observe.submissions mid) = 1%nat).
Proof.
  unfold Effect.run.
  assert (Hdemo : Routes.ap_isDemo req = true \/ JS.truthy (Routes.ap_userId req) = false ->
          exists s us mid,
            Routes.background w req vacancyId id (Effect.mkState d [])
            = (Some tt,
               Effect.mkState (Observe.written id s (Schema.with_users us d))
                 (Effect.Generate (Observe.resume_text w (Routes.ap_userId req) d)
                    (Routes.background_vacancy vacancyId (Routes.ap_vacancyData req))
                  :: mid ++ [Effect.UpdateApplication id s]))
            /\ (exists t, Schema.set_status s = Some t /\ Observe.terminal t)
            /\ Observe.fed_resumes mid = []
            /\ (forall i, Observe.updates_of i mid = [])
            /\ (List.length (Observe.submissions mid) <= 1)%nat
            /\ (List.length (Observe.refreshes mid) <= 1)%nat
            /\ (Schema.set_status s = Some "success" ->
                List.length (Observe.submissions mid) = 1%nat)).
  { intros H. rewrite (background_demo w req vacancyId id _ H).
    cbn [Effect.db Effect.log app].
    eexists. exists (Schema.users d), []. rewrite with_users_same.
    split; [reflexivity|]. cbn [Schema.set_status].
    split; [exists "demo"; split; [reflexivity|now left]|].
    repeat split; cbn; try lia. discriminate. }
  destruct (Routes.ap_isDemo req) eqn:Edemo; [apply Hdemo; now left|].
  destruct (JS.truthy (Routes.ap_userId req)) eqn:Eu; [|apply Hdemo; now right].
  destruct (Routes.ap_userId req) as [userId|] eqn:Euser; [|discriminate].
  rewrite (background_user w req vacancyId userId id _ Edemo Euser Eu).
  cbn [Effect.db Effect.log app]. rewrite Euser.
  destruct (background_submit_outcome w userId vacancyId
              (Observe.cover_letter w req vacancyId d) id
              (Effect.mkState d
                 [Effect.Generate (Observe.resume_text w (Some userId) d)
                    (Routes.background_vacancy vacancyId (Routes.ap_vacancyData req))]))
    as (s & us & mid & E & Hs & Hfed & Hupd & Hsub & Href & Hsucc).
  exists s, us, mid. rewrite E. cbn [Effect.db Effect.log app].
  split; [reflexivity|].
  split; [destruct Hs as [Hs | Hs]; eexists; (split; [exact Hs|]);
          [right; now left|right; now right]|].
  repeat split; assumption.
Qed.

Lemma post_apply_async_explicit (w : Routes.World) (req : Routes.ApplyRequest)
  (d : Schema.Db) (vacancyId : string) :
  Routes.ap_vacancyId req = Some vacancyId ->
  JS.truthy_str vacancyId = true ->
  Observe.storable req d = true ->
  let row :=
    Schema.mkApplication (Schema.applications_seq d) (JS.or_null (Routes.ap_userId req))
      (Some vacancyId) (JS.int_or (JS.parseInt vacancyId) (@Some Z) None)
      (JS.or_else (Routes.opt_field (Routes.ap_vacancyData req) Routes.vd_title)
                  "Вакансия")
      (JS.or_else (Routes.opt_field (Routes.ap_vacancyData req) Routes.vd_company)
                  "Компания")
      None None None "pending" None (HhAuth.now (Routes.hh w)) in
  let d1 :=
    Schema.with_applications (Schema.applications d ++ [row])
      (Schema.applications_seq d + 1) d in
  Routes.post_apply_async w req d
  = (Routes.ApplyQueued
       (Routes.mkQueued "queued" (Schema.applications_seq d) "Отклик поставлен в очередь"),
     Routes.required (Routes.ap_userId req) d1
       (fun userId => Storage.deleteCompatibility userId vacancyId d1),
     Some (Routes.background w req vacancyId (Schema.applications_seq d))).
Proof.
  intros Hv Ht Hst row d1. rewrite (storable_checks req d vacancyId Hv) in Hst.
  apply andb_true_iff in Hst as [Hjob Huser].
  unfold Routes.post_apply_async. rewrite Hv.
  rewrite (required_truthy _ _ _ Ht). cbn [Schema.app_userId].
  now rewrite Hjob, Huser.
Qed.

(** The store at the acknowledgement differs from the one before in the
    applications table and the compatibility cache only. *)
Lemma post_apply_async_tables (w : Routes.World) (req : Routes.ApplyRequest)
  (d : Schema.Db) (vacancyId : string) (row : Schema.Application) :
  let d1 :=
    Schema.with_applications (Schema.applications d ++ [row])
      (Schema.applications_seq d + 1) d in
  let d' :=
    Routes.required (Routes.ap_userId req) d1
      (fun userId => Storage.deleteCompatibility userId vacancyId d1) in
  Schema.applications d' = (Schema.applications d ++ [row])%list
  /\ Schema.applications_seq d' = (Schema.applications_seq d + 1)%Z
  /\ Schema.users d' = Schema.users d
  /\ Schema.resumes d' = Schema.resumes d
  /\ Schema.swipes d' = Schema.swipes d.
Proof.
  intros d1 d'. subst d' d1. unfold Routes.required.
  destruct (Routes.ap_userId req) as [u|]; [destruct (JS.truthy_str u)|];
    repeat split; reflexivity.
Qed.

Lemma observe_whole_log (g : Effect.event) (mid : list Effect.event) (id : Z)
  (s : Schema.ApplicationSet) :
  Observe.is_negotiate g = false -> Observe.is_refresh g = false ->
  (forall i, Observe.updates_of i [g] = []) ->
  (forall i, Observe.updates_of i mid = []) ->
  Observe.updates_of id (g :: mid ++ [Effect.UpdateApplication id s]) = [s]
  /\ Observe.submissions (g :: mid ++ [Effect.UpdateApplication id s])
     = Observe.submissions mid
  /\ Observe.refreshes (g :: mid ++ [Effect.UpdateApplication id s])
     = Observe.refreshes mid.
Proof.
  intros Hn Hr Hg Hmid.
  unfold Observe.updates_of, Observe.submissions, Observe.refreshes in *.
  change (g :: mid ++ [Effect.UpdateApplication id s])
    with ([g] ++ mid ++ [Effect.UpdateApplication id s])%list.
  rewrite !flat_map_app, !filter_app, Hg, Hmid.
  cbn [filter flat_map app Observe.is_negotiate Observe.is_refresh].
  rewrite Hn, Hr, Z.eqb_refl, !app_nil_r. now repeat split.
Qed.



(** X2. No application is ever retried: whatever the outside world answers,
    one run of the operation calls the generator at most once, the token
    endpoint at most once and the negotiation endpoint at most once. *)
Theorem pipeline_never_retries (w : Routes.World) (req : Routes.ApplyRequest)
  (d : Schema.Db) :
  let l := Effect.log (snd (Routes.submitApplication w req d)) in
  (List.length (Observe.fed_resumes l) <= 1)%nat
  /\ (List.length (Observe.refreshes l) <= 1)%nat
  /\ (List.length (Observe.submissions l) <= 1)%nat.
Proof.
  cbv zeta. unfold Routes.submitApplication.
  destruct (JS.truthy (Routes.ap_vacancyId req)) eqn:Ht.
  - destruct (Routes.ap_vacancyId req) as [vacancyId|] eqn:Hv; [|discriminate].
    destruct (Observe.storable req d) eqn:Hst.
    2: { destruct (post_apply_async_refused w req d vacancyId Hv Ht Hst)
           as (d' & E & _).
         rewrite E. cbn. repeat split; lia. }
    rewrite (post_apply_async_explicit w req d vacancyId Hv Ht Hst).
    match goal with
    | |- context [Routes.required (Routes.ap_userId req) ?d1 ?k] =>
        set (d' := Routes.required (Routes.ap_userId req) d1 k)
    end.
    destruct (background_outcome w req vacancyId (Schema.applications_seq d) d')
      as (s & us & mid & E & _ & Hfed & Hupd & Hsub & Href & _).
    rewrite E. cbn [snd Effect.log].
    destruct (observe_whole_log
                (Effect.Generate (Observe.resume_text w (Routes.ap_userId req) d')
                   (Routes.background_vacancy vacancyId (Routes.ap_vacancyData req)))
                mid (Schema.applications_seq d) s eq_refl eq_refl
                (fun _ => eq_refl) Hupd) as (_ & Hsubs & Hrefs).
    rewrite Hsubs, Hrefs. split; [|now split].
    unfold Observe.fed_resumes in *. cbn [flat_map].
    rewrite flat_map_app, Hfed. cbn. lia.
  - unfold Routes.post_apply_async. rewrite (required_falsy _ _ _ Ht).
    cbn. repeat split; lia.
Qed.

Lemma deleteCompatibility_rows (userId vacancyId : string) (d : Schema.Db)
  (c : Schema.AiCompatibility) :
  In c (Schema.aiCompatibility (Storage.deleteCompatibility userId vacancyId d))
  <-> In c (Schema.aiCompatibility d) /\ Observe.cached_for userId vacancyId c = false.
Proof.
  destruct d. unfold Storage.deleteCompatibility, Observe.cached_for.
  cbn [Schema.with_aiCompatibility Schema.aiCompatibility].
  rewrite filter_In. now rewrite negb_true_iff.
Qed.

(** The token manager writes new tokens into the rows of its user, or
    nothing. *)
Lemma getValidAccessToken_users (e : HhAuth.Env) (userId : string) (st : Effect.state) :
  exists d' l,
    HhAuth.getValidAccessToken e userId st
    = (Some (Observe.token_of e userId (Effect.db st)),
       Effect.mkState d' (Effect.log st ++ l))
    /\ Observe.refreshed (Some userId) (Schema.users (Effect.db st)) (Schema.users d').
Proof.
  unfold Observe.token_of, Effect.run, HhAuth.getValidAccessToken,
    HhAuth.refreshHHToken.
  unfold_effects. cbn [Effect.db Effect.log fst].
  assert (Hsame : forall o : option string,
             exists d' l,
               (Some o, st) = (Some o, Effect.mkState d' (Effect.log st ++ l))
               /\ Observe.refreshed (Some userId) (Schema.users (Effect.db st))
                    (Schema.users d')).
  { intros o. exists (Effect.db st), []. rewrite app_nil_r. destruct st.
    split; [reflexivity|now left]. }
  destruct (find _ (Schema.users (Effect.db st))) as [user|]; [|apply Hsame].
  destruct (Schema.hhAccessToken user) as [access|]; [|apply Hsame].
  destruct (Schema.hhRefreshToken user) as [refresh|]; [|apply Hsame].
  destruct (negb (JS.truthy_str access) || negb (JS.truthy_str refresh));
    [apply Hsame|].
  destruct (negb (HhAuth.expired e (Schema.hhTokenExpiresAt user)));
    [cbn [fst]; apply Hsame|].
  destruct (HhAuth.post_token_refresh e refresh) as [tokens|];
    cbn [fst Effect.db Effect.log].
  - eexists. exists [Effect.RefreshToken refresh]. split; [reflexivity|].
    cbn [Schema.with_users Schema.users]. right.
    exists userId. do 3 eexists. split; reflexivity.
  - exists (Effect.db st), [Effect.RefreshToken refresh]. split; [reflexivity|now left].
Qed.

Lemma background_submit_users (w : Routes.World) (userId vacancyId letter : string)
  (id : Z) (caught : Schema.ApplicationSet) (st : Effect.state) :
  Observe.refreshed (Some userId) (Schema.users (Effect.db st))
    (Schema.users
       (Effect.db
          (snd (Effect.try_catch (Routes.background_submit w userId vacancyId letter id)
                  (Routes.update_application id caught) st)))).
Proof.
  unfold Effect.try_catch, Routes.background_submit. unfold Effect.bind at 1.
  destruct (getValidAccessToken_users (Routes.hh w) userId st)
    as (d2 & l & Etok & Husers).
  rewrite Etok.
  assert (Hdone : forall s more,
             Schema.users
               (Effect.db
                  (snd (let (o, s') :=
                          Routes.update_application id s (Effect.mkState d2 more) in
                        match o with
                        | Some a => (Some a, s')
                        | None => Routes.update_application id caught s'
                        end)))
             = Schema.users d2).
  { intros s more. now rewrite update_application_run. }
  unfold Routes.required at 1.
  destruct (Observe.token_of (Routes.hh w) userId (Effect.db st)) as [token|];
    [|now rewrite Hdone].
  destruct (JS.truthy_str token); [|now rewrite Hdone].
  unfold Effect.bind at 1. rewrite select_selected_run. cbn [Effect.db].
  destruct (Observe.selected_row w userId d2) as [resume|]; [|now rewrite Hdone].
  unfold Routes.required at 1.
  destruct (Schema.hhResumeId resume) as [hhId|]; [|now rewrite Hdone].
  destruct (JS.truthy_str hhId); [|now rewrite Hdone].
  unfold Effect.bind at 1. rewrite applyToVacancy_run.
  cbn [Effect.db Effect.log].
  destruct (HhAuth.post_negotiations (Routes.hh w) token vacancyId hhId letter)
    as [response|]; cbn [option_map].
  - destruct (JS.truthy _); now rewrite Hdone.
  - now rewrite update_application_run.
Qed.

(** The task writes to the users table through the token manager only. *)
Lemma background_users (w : Routes.World) (req : Routes.ApplyRequest)
  (vacancyId : string) (id : Z) (d : Schema.Db) :
  Observe.refreshed (Routes.ap_userId req) (Schema.users d)
    (Schema.users
       (Effect.db (snd (Effect.run (Routes.background w req vacancyId id) d)))).
Proof.
  unfold Effect.run.
  destruct (Routes.ap_isDemo req) eqn:Hdemo.
  - rewrite (background_demo w req vacancyId id _ (or_introl Hdemo)). now left.
  - destruct (JS.truthy (Routes.ap_userId req)) eqn:Hu.
    + destruct (Routes.ap_userId req) as [userId|] eqn:Euser; [|discriminate].
      rewrite (background_user w req vacancyId userId id _ Hdemo Euser Hu).
      apply (background_submit_users w userId vacancyId _ id _
               (Effect.mkState d _)).
    + rewrite (background_demo w req vacancyId id _ (or_intror Hu)). now left.
Qed.

Lemma refreshed_same_users (userId : option string) (before after : list Schema.User) :
  Observe.refreshed userId before after ->
  map Schema.user_id after = map Schema.user_id before
  /\ (forall u, In u before -> Some (Schema.user_id u) <> userId -> In u after).
Proof.
  intros [-> | (u & access & refresh & expires & -> & ->)]; [now split|].
  unfold Schema.update_where. split.
  - rewrite map_map. apply map_ext. intros r.
    now destruct (Schema.user_id r =? u)%string.
  - intros r Hr Hother. apply in_map_iff. exists r. split; [|exact Hr].
    destruct (Schema.user_id r =? u)%string eqn:E; [|reflexivity].
    apply String.eqb_eq in E. congruence.
Qed.

(** X3. What an application writes.  Besides its own application row, one
    run of the operation changes the stored tokens of the user of the
    request and removes the cached score of that user for the vacancy,
    nothing else: the swipes and the resumes are as before, every application
    row that was there under another id is still there unchanged, the users
    table has the same users and the rows of every other user unchanged, and
    the cache loses no row but those of the user and the vacancy of the
    request and gains none. *)
Theorem pipeline_touches_own_row (w : Routes.World) (req : Routes.ApplyRequest)
  (d : Schema.Db) :
  let after := Effect.db (snd (Routes.submitApplication w req d)) in
  Schema.swipes after = Schema.swipes d
  /\ Schema.resumes after = Schema.resumes d
  /\ (forall a, In a (Schema.applications d) ->
                Schema.app_id a <> Schema.applications_seq d ->
                In a (Schema.applications after))
  /\ map Schema.user_id (Schema.users after) = map Schema.user_id (Schema.users d)
  /\ (forall u, In u (Schema.users d) ->
                Some (Schema.user_id u) <> Routes.ap_userId req ->
                In u (Schema.users after))
  /\ (forall c, In c (Schema.aiCompatibility after) -> In c (Schema.aiCompatibility d))
  /\ (forall c, In c (Schema.aiCompatibility d) ->
                (forall userId vacancyId,
                   Routes.ap_userId req = Some userId ->
                   Routes.ap_vacancyId req = Some vacancyId ->
                   Observe.cached_for userId vacancyId c = false) ->
                In c (Schema.aiCompatibility after)).
Proof.
  cbv zeta.
  assert (Hsame : forall d0 : Schema.Db,
    Schema.swipes d0 = Schema.swipes d ->
    Schema.resumes d0 = Schema.resumes d ->
    Schema.applications d0 = Schema.applications d ->
    Schema.users d0 = Schema.users d ->
    Schema.aiCompatibility d0 = Schema.aiCompatibility d ->
    Schema.swipes d0 = Schema.swipes d
    /\ Schema.resumes d0 = Schema.resumes d
    /\ (forall a, In a (Schema.applications d) ->
                  Schema.app_id a <> Schema.applications_seq d ->
                  In a (Schema.applications d0))
    /\ map Schema.user_id (Schema.users d0) = map Schema.user_id (Schema.users d)
    /\ (forall u, In u (Schema.users d) ->
                  Some (Schema.user_id u) <> Routes.ap_userId req ->
                  In u (Schema.users d0))
    /\ (forall c, In c (Schema.aiCompatibility d0) -> In c (Schema.aiCompatibility d))
    /\ (forall c, In c (Schema.aiCompatibility d) ->
                  (forall userId vacancyId,
                     Routes.ap_userId req = Some userId ->
                     Routes.ap_vacancyId req = Some vacancyId ->
                     Observe.cached_for userId vacancyId c = false) ->
                  In c (Schema.aiCompatibility d0))).
  { intros d0 -> -> -> -> ->. repeat split; auto. }
  unfold Routes.submitApplication.
  destruct (JS.truthy (Routes.ap_vacancyId req)) eqn:Ht.
  2: { unfold Routes.post_apply_async. rewrite (required_falsy _ _ _ Ht).
       cbn [snd Effect.db]. now apply Hsame. }
  destruct (Routes.ap_vacancyId req) as [vacancyId|] eqn:Hv; [|discriminate].
  destruct (Observe.storable req d) eqn:Hst.
  2: { destruct (post_apply_async_refused w req d vacancyId Hv Ht Hst)
         as (d' & E & Happ & Hus & Hres & Hsw & Hai).
       rewrite E. cbn [snd Effect.db]. now apply Hsame. }
  rewrite (post_apply_async_explicit w req d vacancyId Hv Ht Hst).
  match goal with
  | |- context [Schema.mkApplication ?a ?b ?c ?e ?f ?g ?h ?i ?j ?k ?l ?m] =>
      set (row := Schema.mkApplication a b c e f g h i j k l m) in *
  end.
  match goal with
  | |- context [Routes.required (Routes.ap_userId req) ?d1 ?k] =>
      set (d' := Routes.required (Routes.ap_userId req) d1 k)
  end.
  destruct (post_apply_async_tables w req d vacancyId row)
    as (Happ & _ & Hus & Hres & Hsw).
  fold d' in Happ, Hus, Hres, Hsw.
  pose proof (background_users w req vacancyId (Schema.applications_seq d) d')
    as Hrefreshed.
  rewrite Hus in Hrefreshed.
  apply refreshed_same_users in Hrefreshed as [Hids Hothers].
  destruct (background_outcome w req vacancyId (Schema.applications_seq d) d')
    as (s & us & mid & E & _).
  rewrite E in Hids, Hothers |- *. cbn [snd Effect.db] in *.
  unfold Observe.written in *.
  cbn [Schema.with_applications Schema.with_users Schema.swipes Schema.resumes
       Schema.applications Schema.users Schema.aiCompatibility] in *.
  split; [exact Hsw|]. split; [exact Hres|]. split.
  { intros a Ha Hid. rewrite Happ. unfold Schema.update_where.
    apply in_map_iff. exists a. split; [|apply in_or_app; now left].
    destruct (Schema.app_id a =? Schema.applications_seq d)%Z eqn:E1; [|reflexivity].
    apply Z.eqb_eq in E1. contradiction. }
  split; [exact Hids|]. split; [exact Hothers|].
  unfold d', Routes.required.
  destruct (Routes.ap_userId req) as [userId|];
    [destruct (JS.truthy_str userId)|]; cbn [Schema.with_applications
      Schema.aiCompatibility]; try (split; auto).
  - intros c Hc. now apply deleteCompatibility_rows in Hc.
  - intros c Hc Hkeep. apply deleteCompatibility_rows. split; [exact Hc|].
    now apply Hkeep.
Qed.

Lemma pipeline_touches_own_row_witness :
  In Sample.waiting_row
     (Schema.applications
        (Effect.db (snd (Routes.submitApplication Sample.accepting_world
                           Sample.user_request Sample.waiting_db)))).
Proof.
  apply (proj1 (proj2 (proj2 (pipeline_touches_own_row Sample.accepting_world
                                Sample.user_request Sample.waiting_db)))).
  - left. reflexivity.
  - discriminate.
Defined.

Lemma filter_length_map_as {A : Type} (p q : A -> bool) (g : A -> A) (l : list A) :
  (forall a, p (g a) = q a) ->
  List.length (filter p (map g l)) = List.length (filter q l).
Proof.
  intros H. induction l as [|a l IH]; [reflexivity|].
  cbn [map filter]. rewrite H. destruct (q a); cbn [List.length]; now rewrite IH.
Qed.








Lemma find_only_last {A : Type} (p : A -> bool) (l : list A) (x : A) :
  (forall a, In a l -> p a = false) -> p x = true -> find p (l ++ [x]) = Some x.
Proof.
  intros Hl Hx. induction l as [|b l IH]; cbn [app find].
  - now rewrite Hx.
  - rewrite (Hl b (or_introl eq_refl)). apply IH. intros a Ha. apply Hl. now right.
Qed.




(** ** The token manager *)

(** X7. A refreshed token is kept: when the stored token has expired and
    hh.ru grants a new pair, the call returns the new access token after one
    call to the token endpoint, and until the new expiry every further call
    returns that same token from the store, without calling hh.ru and
    without writing. *)
Theorem refreshed_token_is_reused (e e' : HhAuth.Env) (userId : string) (d : Schema.Db)
  (user : Schema.User) (access refresh : string) (tokens : HhAuth.TokenResponse) :
  find (fun u => String.eqb (Schema.user_id u) userId) (Schema.users d) = Some user ->
  Schema.hhAccessToken user = Some access -> JS.truthy_str access = true ->
  Schema.hhRefreshToken user = Some refresh -> JS.truthy_str refresh = true ->
  HhAuth.expired e (Schema.hhTokenExpiresAt user) = true ->
  HhAuth.post_token_refresh e refresh = Some tokens ->
  JS.truthy_str (HhAuth.access_token tokens) = true ->
  JS.truthy_str (HhAuth.refresh_token tokens) = true ->
  (HhAuth.now e' < HhAuth.now e + HhAuth.expires_in tokens * 1000)%Z ->
  exists d1,
    Effect.run (HhAuth.getValidAccessToken e userId) d
    = (Some (Some (HhAuth.access_token tokens)),
       Effect.mkState d1 [Effect.RefreshToken refresh])
    /\ Effect.run (HhAuth.getValidAccessToken e' userId) d1
       = (Some (Some (HhAuth.access_token tokens)), Effect.mkState d1 []).
Proof.
  intros Hfind Ha Hat Hr Hrt Hexp Hpost Hnew Hnewr Hclock.
  unfold Effect.run, HhAuth.getValidAccessToken, HhAuth.refreshHHToken.
  unfold_effects. cbn [Effect.db Effect.log].
  rewrite Hfind, Ha, Hr, Hat, Hrt, Hexp, Hpost. cbn [negb orb app].
  eexists. split; [reflexivity|].
  cbn [Effect.db Effect.log Schema.with_users Schema.users].
  rewrite find_update_where by reflexivity. rewrite Hfind.
  cbn [option_map Schema.set_tokens Schema.hhAccessToken Schema.hhRefreshToken
       Schema.hhTokenExpiresAt HhAuth.expired].
  rewrite Hnew, Hnewr. cbn [negb orb].
  apply Z.ltb_lt in Hclock. rewrite Hclock. reflexivity.
Qed.

Lemma refreshed_token_is_reused_witness :
  exists d1,
    Effect.run (HhAuth.getValidAccessToken Sample.refreshing_hh "u1") Sample.expired_db
    = (Some (Some "token2"), Effect.mkState d1 [Effect.RefreshToken "refresh"])
    /\ Effect.run (HhAuth.getValidAccessToken Sample.refreshing_hh "u1") d1
       = (Some (Some "token2"), Effect.mkState d1 []).
Proof.
  apply (refreshed_token_is_reused Sample.refreshing_hh Sample.refreshing_hh "u1"
           Sample.expired_db
           (Schema.mkUser "u1" (Some "hh1") (Some "token") (Some "refresh") (Some 1000))
           "token" "refresh" (HhAuth.mkTokens "token2" "refresh2" 3600));
    reflexivity.
Defined.

(** ** The negotiation request *)

(** X8. What [applyToVacancy] returns never holds both an id and an error.
    It holds an error, a non-empty one, exactly when the status of the answer
    is outside 200..299, and an id only for a 201 answer with a Location
    header. *)
Theorem negotiation_of_cases (r : HhAuth.HttpResponse) :
  let n := HhAuth.negotiation_of r in
  (HhAuth.neg_error n = None <-> HhAuth.response_ok r = true)
  /\ (HhAuth.response_ok r = false -> JS.truthy (HhAuth.neg_error n) = true)
  /\ (HhAuth.neg_id n <> None ->
      HhAuth.neg_error n = None
      /\ HhAuth.http_status r = 201%Z
      /\ JS.truthy (HhAuth.header_Location r) = true).
Proof.
  cbv zeta. split; [|split].
  - split.
    + intros H. destruct (HhAuth.response_ok r) eqn:E; [reflexivity|].
      pose proof (negotiation_of_error r E) as Ht. rewrite H in Ht. discriminate.
    + intros Hok. unfold HhAuth.negotiation_of. rewrite Hok. cbn [negb].
      destruct (HhAuth.header_Location r) as [location|]; [|reflexivity].
      now destruct ((HhAuth.http_status r =? 201)%Z && JS.truthy_str location).
  - apply negotiation_of_error.
  - unfold HhAuth.negotiation_of.
    destruct (HhAuth.header_Location r) as [location|].
    + destruct (HhAuth.http_status r =? 201)%Z eqn:Es;
        destruct (JS.truthy_str location) eqn:El; cbn [andb].
      * intros _. apply Z.eqb_eq in Es. now repeat split.
      * destruct (negb (HhAuth.response_ok r)); intros H; now elim H.
      * destruct (negb (HhAuth.response_ok r)); intros H; now elim H.
      * destruct (negb (HhAuth.response_ok r)); intros H; now elim H.
    + destruct (negb (HhAuth.response_ok r)); intros H; now elim H.
Qed.

Lemma negotiation_of_cases_witness :
  HhAuth.neg_error
    (HhAuth.negotiation_of
       (HhAuth.mkHttp 201 (Some "https://api.hh.ru/negotiations/777") None))
  = None.
Proof.
  apply (proj2 (proj2 (negotiation_of_cases
                         (HhAuth.mkHttp 201 (Some "https://api.hh.ru/negotiations/777")
                            None)))).
  vm_compute. discriminate.
Defined.

Lemma append_empty_r (s : string) : s ++ "" = s.
Proof. induction s as [|c s IH]; [reflexivity|]. cbn [append]. now rewrite IH. Qed.

Lemma append_associative (a b c : string) : (a ++ b) ++ c = a ++ (b ++ c).
Proof. induction a as [|x a IH]; [reflexivity|]. cbn [append]. now rewrite IH. Qed.

Lemma occurs_append (c : ascii) (a b : string) :
  Observe.occurs c (a ++ b) = Observe.occurs c a || Observe.occurs c b.
Proof.
  induction a as [|x a IH]; [reflexivity|].
  cbn [append Observe.occurs]. now rewrite IH, orb_assoc.
Qed.

Lemma after_last_slash_acc (s acc : string) :
  Observe.occurs "/" acc = false ->
  Observe.occurs "/" (HhAuth.after_last_slash s acc) = false
  /\ exists before,
       (acc ++ s = before ++ HhAuth.after_last_slash s acc)
       /\ (before = "" \/ exists q, before = q ++ "/").
Proof.
  revert acc. induction s as [|c s IH]; intros acc Hacc; cbn [HhAuth.after_last_slash].
  - split; [exact Hacc|]. exists "". split; [apply append_empty_r|now left].
  - destruct (Ascii.eqb c "/") eqn:E.
    + apply Ascii.eqb_eq in E. subst c.
      destruct (IH "" eq_refl) as (Hno & before & Heq & Hb). split; [exact Hno|].
      cbn [append] in Heq.
      exists (acc ++ "/" ++ before). split.
      * rewrite Heq at 1. rewrite !append_associative. reflexivity.
      * right. destruct Hb as [-> | [q ->]].
        -- exists acc. now rewrite append_empty_r.
        -- exists (acc ++ "/" ++ q). now rewrite !append_associative.
    + assert (Hacc' : Observe.occurs "/" (acc ++ String c "") = false).
      { rewrite occurs_append, Hacc. cbn [Observe.occurs]. now rewrite E. }
      destruct (IH _ Hacc') as (Hno & before & Heq & Hb). split; [exact Hno|].
      exists before. split; [|exact Hb].
      rewrite <- Heq, append_associative. reflexivity.
Qed.

(** X9. The negotiation id taken from a Location header is what follows its
    last slash: it holds no slash, the header ends with it, and what precedes
    it is empty or ends with a slash. *)
Theorem negotiation_id_is_last_segment (location : string) :
  let id := HhAuth.after_last_slash location "" in
  Observe.occurs "/" id = false
  /\ exists before,
       location = before ++ id /\ (before = "" \/ exists q, before = q ++ "/").
Proof.
  cbv zeta. destruct (after_last_slash_acc location "" eq_refl) as (H & before & E & Hb).
  split; [exact H|]. now exists before.
Qed.

(** ** Swipes and the feed *)

Lemma post_swipes_records (now : Z) (userId vacancyId direction : string)
  (d : Schema.Db) :
  JS.truthy_str userId = true ->
  JS.truthy_str vacancyId = true ->
  direction = "left" \/ direction = "right" ->
  Schema.has_user userId d = true ->
  Storage.hasSwipedVacancy userId vacancyId
    (snd (Routes.post_swipes now
            (Routes.mkSwipeRequest (Some vacancyId) (Some direction) (Some userId)) d))
  = true.
Proof.
  intros Hu Hv Hdir Huser. unfold Routes.post_swipes.
  cbn [Routes.sw_userId Routes.sw_vacancyId Routes.sw_direction].
  rewrite (required_truthy _ _ _ Hu), (required_truthy _ _ _ Hv).
  assert (Hd : JS.truthy_str direction = true) by (destruct Hdir; now subst).
  rewrite (required_truthy _ _ _ Hd).
  assert (Hin : existsb (String.eqb direction) ["left"; "right"] = true)
    by (destruct Hdir; now subst).
  rewrite Hin. cbn [negb].
  destruct (Storage.hasSwipedVacancy userId vacancyId d) eqn:Has; [exact Has|].
  unfold Storage.createSwipe. rewrite Huser. cbn [snd].
  apply (hasSwipedVacancy_row
           (Schema.mkSwipe (Schema.swipes_seq d) userId vacancyId direction now)).
  cbn [Storage.deleteCompatibility Schema.with_aiCompatibility Schema.with_swipes
       Schema.swipes].
  apply in_or_app. right. now left.
Qed.

(** X10. A vacancy a user has swiped does not come back: after a well-formed
    swipe request of a user who has a row in the users table, whether it
    created the swipe or found one, a search made for that user returns no
    job with that vacancy id, whatever page hh.ru answers with. *)
Theorem swiped_vacancy_leaves_feed (now : Z) (userId vacancyId direction : string)
  (d : Schema.Db) (data : Routes.HHPage) (batch : option string) :
  JS.truthy_str userId = true ->
  JS.truthy_str vacancyId = true ->
  direction = "left" \/ direction = "right" ->
  Schema.has_user userId d = true ->
  let d' :=
    snd (Routes.post_swipes now
           (Routes.mkSwipeRequest (Some vacancyId) (Some direction) (Some userId)) d) in
  exists r,
    Routes.get_hh_jobs (Some data) (Some userId) batch d' = Routes.JobsOk r
    /\ forall job, In job (Routes.jobs r) -> Routes.hh_id job <> vacancyId.
Proof.
  intros Hu Hv Hdir Huser d'.
  pose proof (post_swipes_records now userId vacancyId direction d Hu Hv Hdir Huser)
    as Has.
  fold d' in Has. unfold Routes.get_hh_jobs. rewrite (required_truthy _ _ _ Hu).
  eexists. split; [reflexivity|]. cbn [Routes.jobs]. intros job Hjob Heq.
  apply filter_In in Hjob as [_ Hnot]. apply negb_true_iff in Hnot.
  assert (Hin : Routes.Set_has (Storage.getSwipedVacancyIds userId d')
                  (Routes.hh_id job) = true).
  { apply Set_has_In. rewrite Heq. apply getSwipedVacancyIds_In.
    unfold Storage.hasSwipedVacancy in Has.
    destruct (filter _ (Schema.swipes d')) as [|s l] eqn:F; [discriminate|].
    assert (Hs : In s (filter (fun s => String.eqb (Schema.swipe_userId s) userId
                                        && String.eqb (Schema.swipe_vacancyId s) vacancyId)
                         (Schema.swipes d'))) by (rewrite F; now left).
    apply filter_In in Hs as [Hs Hp]. apply andb_true_iff in Hp as [H1 H2].
    apply String.eqb_eq in H1, H2. now exists s. }
  congruence.
Qed.

Lemma swiped_vacancy_leaves_feed_witness :
  exists r,
    Routes.get_hh_jobs (Some Sample.page) (Some "u1") None
      (snd (Routes.post_swipes 2000
              (Routes.mkSwipeRequest (Some "v8") (Some "left") (Some "u1"))
              Sample.swiping_db))
    = Routes.JobsOk r
    /\ Routes.jobs r = [Sample.job "v9"].
Proof.
  destruct (swiped_vacancy_leaves_feed 2000 "u1" "v8" "left" Sample.swiping_db
              Sample.page None eq_refl eq_refl (or_introl eq_refl) eq_refl)
    as (r & E & _).
  exists r. split; [exact E|]. now injection E as <-.
Defined.

(** X11. Repeating a swipe changes nothing: a well-formed request of a user
    who has a row in the users table, sent a second time, at any later moment
    and with either direction, is answered [alreadySwiped] and leaves the
    store exactly as the first one left it. *)
Theorem repeated_swipe_is_ignored (now now' : Z) (userId vacancyId direction
  direction' : string) (d : Schema.Db) :
  JS.truthy_str userId = true ->
  JS.truthy_str vacancyId = true ->
  direction = "left" \/ direction = "right" ->
  direction' = "left" \/ direction' = "right" ->
  Schema.has_user userId d = true ->
  let d' :=
    snd (Routes.post_swipes now
           (Routes.mkSwipeRequest (Some vacancyId) (Some direction) (Some userId)) d) in
  Routes.post_swipes now'
    (Routes.mkSwipeRequest (Some vacancyId) (Some direction') (Some userId)) d'
  = (Routes.SwipeAlready, d').
Proof.
  intros Hu Hv Hdir Hdir' Huser d'.
  pose proof (post_swipes_records now userId vacancyId direction d Hu Hv Hdir Huser)
    as Has.
  fold d' in Has. unfold Routes.post_swipes at 1.
  cbn [Routes.sw_userId Routes.sw_vacancyId Routes.sw_direction].
  rewrite (required_truthy _ _ _ Hu), (required_truthy _ _ _ Hv).
  assert (Hd : JS.truthy_str direction' = true) by (destruct Hdir'; now subst).
  rewrite (required_truthy _ _ _ Hd).
  assert (Hin : existsb (String.eqb direction') ["left"; "right"] = true)
    by (destruct Hdir'; now subst).
  rewrite Hin. cbn [negb]. now rewrite Has.
Qed.

Lemma repeated_swipe_is_ignored_witness :
  let d' :=
    snd (Routes.post_swipes 2000
           (Routes.mkSwipeRequest (Some "v8") (Some "left") (Some "u1"))
           Sample.swiping_db) in
  Observe.count_swipes "u1" "v8" d' = 1%nat
  /\ Routes.post_swipes 3000
       (Routes.mkSwipeRequest (Some "v8") (Some "right") (Some "u1")) d'
     = (Routes.SwipeAlready, d').
Proof.
  split; [reflexivity|].
  apply (repeated_swipe_is_ignored 2000 3000 "u1" "v8" "left" "right"
           Sample.swiping_db eq_refl eq_refl (or_introl eq_refl) (or_intror eq_refl)
           eq_refl).
Defined.

Lemma filter_filter_keep {A : Type} (p q : A -> bool) (l : list A) :
  (forall a, p a = true -> q a = true) -> filter p (filter q l) = filter p l.
Proof.
  intros H. induction l as [|a l IH]; [reflexivity|].
  cbn [filter]. destruct (q a) eqn:Eq; cbn [filter].
  - now rewrite IH.
  - destruct (p a) eqn:Ep; [|exact IH]. apply H in Ep. congruence.
Qed.

Lemma filter_filter_none {A : Type} (p q : A -> bool) (l : list A) :
  (forall a, q a = true -> p a = false) -> filter p (filter q l) = [].
Proof.
  intros H. induction l as [|a l IH]; [reflexivity|].
  cbn [filter]. destruct (q a) eqn:Eq; [|exact IH].
  cbn [filter]. now rewrite (H a Eq).
Qed.

(** X12. A reset forgets the swipes of one user and of nobody else: that
    user has no swiped vacancy left, so a search for them returns the page of
    hh.ru whole, while the swiped ids of every other user are as before. *)
Theorem reset_clears_one_user (userId : string) (d : Schema.Db) :
  JS.truthy_str userId = true ->
  let d' := snd (Routes.post_swipes_reset (Some userId) d) in
  Storage.getSwipedVacancyIds userId d' = []
  /\ (forall other, other <> userId ->
        Storage.getSwipedVacancyIds other d' = Storage.getSwipedVacancyIds other d)
  /\ (forall data batch, exists r,
        Routes.get_hh_jobs (Some data) (Some userId) batch d' = Routes.JobsOk r
        /\ Routes.jobs r = Routes.page_jobs data).
Proof.
  intros Hu d'. subst d'. unfold Routes.post_swipes_reset.
  rewrite (required_truthy _ _ _ Hu). cbn [snd].
  assert (Hnone : Storage.getSwipedVacancyIds userId
                    (Storage.deleteAllSwipes userId d) = []).
  { unfold Storage.getSwipedVacancyIds, Storage.deleteAllSwipes.
    cbn [Schema.with_swipes Schema.swipes].
    rewrite filter_filter_none; [reflexivity|].
    intros s Hs. now apply negb_true_iff in Hs. }
  split; [exact Hnone|]. split.
  - intros other Hother. unfold Storage.getSwipedVacancyIds, Storage.deleteAllSwipes.
    cbn [Schema.with_swipes Schema.swipes]. f_equal.
    apply filter_filter_keep. intros s Hs. apply String.eqb_eq in Hs.
    apply negb_true_iff, String.eqb_neq. congruence.
  - intros data batch. unfold Routes.get_hh_jobs. rewrite (required_truthy _ _ _ Hu).
    eexists. split; [reflexivity|]. cbn [Routes.jobs]. rewrite Hnone.
    induction (Routes.page_jobs data) as [|job l IH]; [reflexivity|].
    cbn [filter Routes.Set_has existsb negb] in *. now rewrite IH.
Qed.

Lemma reset_clears_one_user_witness :
  let d' := snd (Routes.post_swipes_reset (Some "u1") Sample.swiped_db) in
  Storage.getSwipedVacancyIds "u1" d' = []
  /\ Storage.getSwipedVacancyIds "u2" d' = ["v9"].
Proof.
  destruct (reset_clears_one_user "u1" Sample.swiped_db eq_refl) as (H1 & H2 & _).
  split; [exact H1|]. rewrite (H2 "u2"); [reflexivity|discriminate].
Defined.

(** ** Resumes: selection *)



Lemma filter_update_where_others {A : Type} (p : A -> bool) (f : A -> A) (l : list A) :
  (forall a, p (f a) = p a) ->
  filter (fun r => negb (p r)) (Schema.update_where p f l)
  = filter (fun r => negb (p r)) l.
Proof.
  intros H. unfold Schema.update_where. induction l as [|r l IH]; [reflexivity|].
  cbn [map filter]. destruct (p r) eqn:E.
  - rewrite H, E. cbn [negb]. exact IH.
  - rewrite E. cbn [negb]. now rewrite IH.
Qed.

Lemma filter_all_false {A : Type} (p : A -> bool) (l : list A) :
  (forall a, In a l -> p a = false) -> filter p l = [].
Proof.
  intros H. induction l as [|a l IH]; [reflexivity|].
  cbn [filter]. rewrite (H a (or_introl eq_refl)).
  apply IH. intros b Hb. apply H. now right.
Qed.





(** The first update of the select route leaves the user no selected row. *)
Lemma deselected_rows (userId : string) (l : list Schema.Resume) :
  filter (fun r => Schema.eq_col (Schema.resume_userId r) userId && Schema.selected r)
         (Schema.update_where (fun r => Schema.eq_col (Schema.resume_userId r) userId)
            (Schema.set_selected false) l)
  = [].
Proof.
  apply filter_all_false. intros r Hin. unfold Schema.update_where in Hin.
  apply in_map_iff in Hin as (x & <- & _).
  destruct (Schema.eq_col (Schema.resume_userId x) userId) eqn:Er.
  - cbn [Schema.set_selected Schema.resume_userId Schema.selected].
    apply andb_false_r.
  - now rewrite Er.
Qed.



(** X14. A selection that names no resume of the user fails, yet it has
    already cleared the selection. For a user id that is not empty, a resume
    id other than zero that JavaScript holds exactly (below 2^53 in absolute
    value) and a store where no resume of the user has that id, the select
    route answers not found when the id is a value of the integer column and
    with a server error when it is not; either way the user is left with no
    selected resume at all, so the application task reads an empty resume
    text for them, and the rows of other users are as before. *)
Theorem failed_selection_clears (userId : string) (resumeId : Z) (d : Schema.Db) :
  JS.truthy_str userId = true ->
  resumeId <> 0%Z ->
  (Z.abs resumeId < 2 ^ 53)%Z ->
  (forall r, In r (Schema.resumes d) ->
             Schema.resume_userId r = Some userId -> Schema.resume_id r <> resumeId) ->
  let reply :=
    fst (Routes.post_resumes_select
           (Routes.mkSelectRequest (Some userId) (Some resumeId)) d) in
  let d' :=
    snd (Routes.post_resumes_select
           (Routes.mkSelectRequest (Some userId) (Some resumeId)) d) in
  reply = (if Schema.int4 resumeId then Routes.SelectNotFound
           else Routes.SelectFailed "Failed to select resume")
  /\ Routes.selected_rows userId d' = []
  /\ (forall w, Observe.selected_row w userId d' = None
                /\ Observe.resume_text w (Some userId) d' = "")
  /\ Observe.count_selected_external userId d' = 0%nat
  /\ filter (fun r => negb (Schema.eq_col (Schema.resume_userId r) userId))
            (Schema.resumes d')
     = filter (fun r => negb (Schema.eq_col (Schema.resume_userId r) userId))
              (Schema.resumes d).
Proof.
  intros Hu Hz _ Hnone reply d'.
  set (deselected :=
         Schema.update_where (fun r => Schema.eq_col (Schema.resume_userId r) userId)
           (Schema.set_selected false) (Schema.resumes d)).
  assert (Hchosen : forall r, In r deselected ->
            (Schema.resume_id r =? resumeId)%Z
            && Schema.eq_col (Schema.resume_userId r) userId = false).
  { intros r Hin. unfold deselected, Schema.update_where in Hin.
    apply in_map_iff in Hin as (x & <- & Hx).
    destruct (Schema.eq_col (Schema.resume_userId x) userId) eqn:Er.
    - cbn [Schema.set_selected Schema.resume_id Schema.resume_userId]. rewrite Er.
      rewrite andb_true_r. apply Z.eqb_neq. apply (Hnone x Hx).
      unfold Schema.eq_col in Er. destruct (Schema.resume_userId x) as [u|];
        [|discriminate].
      apply String.eqb_eq in Er. now subst.
    - rewrite Er. apply andb_false_r. }
  assert (Hsame : Schema.update_where
                    (fun r => (Schema.resume_id r =? resumeId)%Z
                              && Schema.eq_col (Schema.resume_userId r) userId)
                    (Schema.set_selected true) deselected = deselected).
  { unfold Schema.update_where at 1. rewrite <- (map_id deselected) at 2.
    apply map_ext_in. intros r Hin. now rewrite (Hchosen r Hin). }
  assert (Hrun : Routes.post_resumes_select
                   (Routes.mkSelectRequest (Some userId) (Some resumeId)) d
                 = (if Schema.int4 resumeId then Routes.SelectNotFound
                    else Routes.SelectFailed "Failed to select resume",
                    Schema.with_resumes deselected (Schema.resumes_seq d) d)).
  { unfold Routes.post_resumes_select.
    cbn [Routes.sel_userId Routes.sel_resumeId].
    rewrite (required_truthy _ _ _ Hu).
    apply Z.eqb_neq in Hz. rewrite Hz. fold deselected.
    destruct (Schema.int4 resumeId); cbn [negb]; [|reflexivity].
    cbn [Schema.with_resumes Schema.resumes]. rewrite Hsame.
    destruct (find _ deselected) as [r|] eqn:F; [|reflexivity].
    apply find_some in F as [Hin Hr]. rewrite (Hchosen r Hin) in Hr. discriminate. }
  subst reply d'. rewrite Hrun. cbn [fst snd].
  assert (Hrows : Routes.selected_rows userId
                    (Schema.with_resumes deselected (Schema.resumes_seq d) d) = []).
  { unfold Routes.selected_rows. cbn [Schema.with_resumes Schema.resumes].
    apply deselected_rows. }
  split; [reflexivity|]. split; [exact Hrows|]. split; [|split].
  - intros w. unfold Observe.resume_text, Observe.selected_row. rewrite Hrows.
    now split.
  - unfold Observe.count_selected_external.
    rewrite filter_all_false; [reflexivity|]. intros r Hin.
    destruct (Observe.selected_external userId r) eqn:E; [|reflexivity]. exfalso.
    unfold Observe.selected_external in E.
    apply andb_true_iff in E as [E Hs]. apply andb_true_iff in E as [E _].
    assert (Hf : In r (Routes.selected_rows userId
                         (Schema.with_resumes deselected (Schema.resumes_seq d) d)))
      by (apply filter_In; split; [exact Hin|now rewrite E, Hs]).
    rewrite Hrows in Hf. destruct Hf.
  - cbn [Schema.with_resumes Schema.resumes]. unfold deselected.
    apply filter_update_where_others. intros r. reflexivity.
Qed.

Lemma failed_selection_clears_witness :
  Routes.selected_rows "u1" Sample.one_selected_db <> []
  /\ (fst (Routes.post_resumes_select (Routes.mkSelectRequest (Some "u1") (Some 99%Z))
             Sample.one_selected_db)
      = Routes.SelectNotFound
      /\ Routes.selected_rows "u1"
           (snd (Routes.post_resumes_select
                   (Routes.mkSelectRequest (Some "u1") (Some 99%Z))
                   Sample.one_selected_db))
         = [])
  /\ (fst (Routes.post_resumes_select
             (Routes.mkSelectRequest (Some "u1") (Some 3000000000%Z))
             Sample.one_selected_db)
      = Routes.SelectFailed "Failed to select resume"
      /\ Routes.selected_rows "u1"
           (snd (Routes.post_resumes_select
                   (Routes.mkSelectRequest (Some "u1") (Some 3000000000%Z))
                   Sample.one_selected_db))
         = []).
Proof.
  split; [discriminate|].
  assert (H : forall id, id <> 1%Z ->
                forall r, In r (Schema.resumes Sample.one_selected_db) ->
                  Schema.resume_userId r = Some "u1" -> Schema.resume_id r <> id).
  { intros id Hid r Hin _ E. cbn in Hin.
    destruct Hin as [<- | []]. now apply Hid. }
  split.
  - pose proof (failed_selection_clears "u1" 99 Sample.one_selected_db eq_refl
                  ltac:(discriminate) eq_refl (H 99%Z ltac:(discriminate)))
      as (H1 & H2 & _).
    split; [exact H1|exact H2].
  - pose proof (failed_selection_clears "u1" 3000000000 Sample.one_selected_db eq_refl
                  ltac:(discriminate) eq_refl (H 3000000000%Z ltac:(discriminate)))
      as (H1 & H2 & _).
    split; [exact H1|exact H2].
Defined.

(** ** Resumes: synchronisation with hh.ru *)

Lemma find_none_filter {A : Type} (p : A -> bool) (l : list A) :
  find p l = None -> filter p l = [].
Proof.
  induction l as [|a l IH]; [reflexivity|].
  cbn [find filter]. destruct (p a); [discriminate|exact IH].
Qed.

(** One turn of the loop of the sync route. *)
Lemma sync_loop_cons (e : HhAuth.Env) (userId accessToken : string)
  (hhResume : HhAuth.HHResumeShort) (rest : list HhAuth.HHResumeShort)
  (synced : list Schema.Resume) (st : Effect.state) :
  Routes.sync_loop e userId accessToken (hhResume :: rest) synced st
  = match HhAuth.get_resume e accessToken (HhAuth.short_id hhResume) with
    | None => (None, st)
    | Some detail =>
        match Routes.find_synced userId (HhAuth.short_id hhResume) (Effect.db st) with
        | Some existing =>
            let f := Schema.set_synced (HhAuth.detail_title detail)
                       (HhAuth.resumeToText detail) (HhAuth.now e) in
            Routes.sync_loop e userId accessToken rest (synced ++ [f existing])
              (Effect.mkState
                 (Schema.with_resumes
                    (Schema.update_where
                       (fun r => (Schema.resume_id r =? Schema.resume_id existing)%Z) f
                       (Schema.resumes (Effect.db st)))
                    (Schema.resumes_seq (Effect.db st)) (Effect.db st))
                 (Effect.log st))
        | None =>
            let created :=
              Schema.mkResume (Schema.resumes_seq (Effect.db st)) (Some userId)
                (Some (HhAuth.short_id hhResume)) (Some (HhAuth.detail_title detail))
                (HhAuth.resumeToText detail) (List.length synced =? 0)%nat
                (HhAuth.now e) in
            Routes.sync_loop e userId accessToken rest (synced ++ [created])
              (Effect.mkState
                 (Schema.with_resumes (Schema.resumes (Effect.db st) ++ [created])
                    (Schema.resumes_seq (Effect.db st) + 1) (Effect.db st))
                 (Effect.log st))
        end
    end.
Proof.
  cbn [Routes.sync_loop]. unfold HhAuth.getHHResumeDetail.
  unfold Effect.bind at 1. unfold Effect.await.
  destruct (HhAuth.get_resume e accessToken (HhAuth.short_id hhResume)) as [detail|];
    [|reflexivity].
  unfold Effect.ret at 1. unfold Effect.bind at 1. unfold Effect.get_db at 1.
  destruct (Routes.find_synced userId (HhAuth.short_id hhResume) (Effect.db st));
    reflexivity.
Qed.

Lemma set_synced_keeps (p : Schema.Resume -> bool) (title text : string) (t : Z)
  (id : Z) (l : list Schema.Resume) :
  (forall r, p (Schema.set_synced title text t r) = p r) ->
  List.length (filter p (Schema.update_where (fun r => (Schema.resume_id r =? id)%Z)
                           (Schema.set_synced title text t) l))
  = List.length (filter p l).
Proof.
  intros H. unfold Schema.update_where. apply filter_length_map.
  intros r. destruct (Schema.resume_id r =? id)%Z; [apply H|reflexivity].
Qed.

(** The loop selects a resume only while nothing has been synced yet, and
    inserts a row only for a resume that has none. *)
Lemma sync_loop_counts (e : HhAuth.Env) (userId accessToken : string)
  (hhResumes : list HhAuth.HHResumeShort) :
  forall (synced : list Schema.Resume) (st : Effect.state) (u h : string),
    let after := Effect.db (snd (Routes.sync_loop e userId accessToken hhResumes
                                   synced st)) in
    (Observe.count_selected_external u after
     <= Observe.count_selected_external u (Effect.db st)
        + (if (List.length synced =? 0)%nat then 1 else 0))%nat
    /\ (Observe.count_synced u h after
        <= Nat.max 1 (Observe.count_synced u h (Effect.db st)))%nat.
Proof.
  induction hhResumes as [|hhResume rest IH]; intros synced st u h.
  - cbn [Routes.sync_loop Effect.ret snd].
    split; [destruct (List.length synced =? 0)%nat|]; lia.
  - cbv zeta. rewrite sync_loop_cons.
    destruct (HhAuth.get_resume e accessToken (HhAuth.short_id hhResume)) as [detail|];
      [|cbn [snd]; split; [destruct (List.length synced =? 0)%nat|]; lia].
    destruct (Routes.find_synced userId (HhAuth.short_id hhResume) (Effect.db st))
      as [existing|] eqn:F; cbv zeta.
    + match goal with
      | |- context [Routes.sync_loop e userId accessToken rest ?sy ?s1] =>
          specialize (IH sy s1 u h); cbv zeta in IH; destruct IH as [IH1 IH2]
      end.
      cbn [Effect.db] in IH1, IH2.
      unfold Observe.count_selected_external, Observe.count_synced in *.
      cbn [Schema.with_resumes Schema.resumes] in IH1, IH2.
      rewrite set_synced_keeps in IH1 by reflexivity.
      rewrite set_synced_keeps in IH2 by reflexivity.
      split; [|exact IH2].
      rewrite length_app in IH1. cbn [List.length] in IH1.
      rewrite Nat.add_1_r in IH1. cbn [Nat.eqb] in IH1.
      destruct (List.length synced =? 0)%nat; lia.
    + match goal with
      | |- context [Routes.sync_loop e userId accessToken rest ?sy ?s1] =>
          specialize (IH sy s1 u h); cbv zeta in IH; destruct IH as [IH1 IH2]
      end.
      cbn [Effect.db] in IH1, IH2.
      unfold Observe.count_selected_external, Observe.count_synced in *.
      cbn [Schema.with_resumes Schema.resumes] in IH1, IH2.
      rewrite filter_app, length_app in IH1, IH2. cbn [filter] in IH1, IH2.
      rewrite length_app in IH1. cbn [List.length] in IH1.
      rewrite Nat.add_1_r in IH1. cbn [Nat.eqb] in IH1. rewrite Nat.add_0_r in IH1.
      split.
      * eapply Nat.le_trans; [exact IH1|].
        destruct (Observe.selected_external u _) eqn:Es; cbn [List.length];
          [|destruct (List.length synced =? 0)%nat; lia].
        unfold Observe.selected_external in Es.
        cbn [Schema.selected] in Es. apply andb_true_iff in Es as [_ Es].
        rewrite Es. lia.
      * eapply Nat.le_trans; [exact IH2|].
        match goal with
        | |- context [if ?c then _ else _] => destruct c eqn:Ec
        end; cbn [List.length]; [|lia].
        cbn [Schema.resume_userId Schema.hhResumeId Schema.eq_col] in Ec.
        apply andb_true_iff in Ec as [E1 E2]. apply String.eqb_eq in E1, E2. subst.
        unfold Routes.find_synced in F. apply find_none_filter in F.
        rewrite F. cbn. lia.
Qed.

(** X15. The sync route selects at most one resume per run and never stores
    a resume of hh.ru twice: for every user the number of selected hh.ru
    resumes grows by at most one, and for every resume id of hh.ru the number
    of rows stays at one or at what it was.  This holds whatever hh.ru
    answers, a failure halfway included. *)
Theorem sync_adds_at_most_one_selected (e : HhAuth.Env) (userId : option string)
  (d : Schema.Db) (u h : string) :
  let after := Effect.db (snd (Effect.run (Routes.post_resumes_sync e userId) d)) in
  (Observe.count_selected_external u after
   <= S (Observe.count_selected_external u d))%nat
  /\ (Observe.count_synced u h after <= Nat.max 1 (Observe.count_synced u h d))%nat.
Proof.
  cbv zeta.
  remember (Effect.run (Routes.post_resumes_sync e userId) d) as result eqn:Hr.
  assert (Hstay : forall us l (o : option Routes.sync_reply),
            result = (o, Effect.mkState (Schema.with_users us d) l) ->
            (Observe.count_selected_external u (Effect.db (snd result))
             <= S (Observe.count_selected_external u d))%nat
            /\ (Observe.count_synced u h (Effect.db (snd result))
                <= Nat.max 1 (Observe.count_synced u h d))%nat).
  { intros us l o ->. cbn [snd Effect.db].
    unfold Observe.count_selected_external, Observe.count_synced.
    cbn [Schema.with_users Schema.resumes]. split; lia. }
  unfold Effect.run, Routes.post_resumes_sync, Routes.required in Hr.
  destruct userId as [userId|];
    [|apply (Hstay (Schema.users d) [] (Some (Routes.SyncBadRequest "User ID required")));
      now rewrite with_users_same].
  destruct (JS.truthy_str userId);
    [|apply (Hstay (Schema.users d) [] (Some (Routes.SyncBadRequest "User ID required")));
      now rewrite with_users_same].
  unfold Effect.try_catch in Hr. unfold Effect.bind at 1 in Hr.
  destruct (getValidAccessToken_frame e userId (Effect.mkState d []))
    as (us & l & Etok & _).
  rewrite Etok in Hr. cbn [Effect.db Effect.log app] in Hr.
  destruct (Observe.token_of e userId d) as [token|];
    [|now apply (Hstay us l (Some Routes.SyncUnauthorized))].
  destruct (JS.truthy_str token);
    [|now apply (Hstay us l (Some Routes.SyncUnauthorized))].
  unfold HhAuth.getHHResumes in Hr. unfold Effect.bind at 1 in Hr.
  unfold Effect.await in Hr.
  destruct (HhAuth.get_resumes_mine e token) as [hhResumes|];
    [|now apply (Hstay us l (Some Routes.SyncFailed))].
  unfold Effect.ret at 1 in Hr. unfold Effect.bind at 1 in Hr.
  pose proof (sync_loop_counts e userId token hhResumes []
                (Effect.mkState (Schema.with_users us d) l) u h) as Hloop.
  cbv zeta in Hloop. cbn [List.length Nat.eqb Effect.db] in Hloop.
  assert (Hd : Observe.count_selected_external u (Schema.with_users us d)
               = Observe.count_selected_external u d
               /\ Observe.count_synced u h (Schema.with_users us d)
                  = Observe.count_synced u h d) by (split; reflexivity).
  destruct Hd as [Hd1 Hd2]. rewrite Hd1, Hd2 in Hloop.
  destruct (Routes.sync_loop e userId token hhResumes []
              (Effect.mkState (Schema.with_users us d) l)) as [[synced|] st2];
    subst result; cbn [snd Effect.ret] in *; split; lia.
Qed.

(** One turn of the loop of the sign-in callback. *)
Lemma callback_loop_cons (e : HhAuth.Env) (userId accessToken : string)
  (hhResume : HhAuth.HHResumeShort) (rest : list HhAuth.HHResumeShort)
  (st : Effect.state) :
  Routes.callback_loop e userId accessToken (hhResume :: rest) st
  = match HhAuth.get_resume e accessToken (HhAuth.short_id hhResume) with
    | None => (None, st)
    | Some detail =>
        match Routes.find_synced userId (HhAuth.short_id hhResume) (Effect.db st) with
        | Some existing =>
            let f := Schema.set_synced (HhAuth.detail_title detail)
                       (HhAuth.resumeToText detail) (HhAuth.now e) in
            Routes.callback_loop e userId accessToken rest
              (Effect.mkState
                 (Schema.with_resumes
                    (Schema.update_where
                       (fun r => (Schema.resume_id r =? Schema.resume_id existing)%Z) f
                       (Schema.resumes (Effect.db st)))
                    (Schema.resumes_seq (Effect.db st)) (Effect.db st))
                 (Effect.log st))
        | None =>
            let created :=
              Schema.mkResume (Schema.resumes_seq (Effect.db st)) (Some userId)
                (Some (HhAuth.short_id hhResume)) (Some (HhAuth.detail_title detail))
                (HhAuth.resumeToText detail) true (HhAuth.now e) in
            Routes.callback_loop e userId accessToken rest
              (Effect.mkState
                 (Schema.with_resumes (Schema.resumes (Effect.db st) ++ [created])
                    (Schema.resumes_seq (Effect.db st) + 1) (Effect.db st))
                 (Effect.log st))
        end
    end.
Proof.
  cbn [Routes.callback_loop]. unfold HhAuth.getHHResumeDetail.
  unfold Effect.bind at 1. unfold Effect.await.
  destruct (HhAuth.get_resume e accessToken (HhAuth.short_id hhResume)) as [detail|];
    [|reflexivity].
  unfold Effect.ret at 1. unfold Effect.bind at 1. unfold Effect.get_db at 1.
  destruct (Routes.find_synced userId (HhAuth.short_id hhResume) (Effect.db st));
    reflexivity.
Qed.

(** X16. The sign-in callback never stores a resume of hh.ru twice either,
    and it leaves the resumes typed by hand alone: for every user and resume
    id of hh.ru the number of rows stays at one or at what it was, and the
    number of manual resumes of every user is unchanged. *)
Theorem callback_never_duplicates (e : HhAuth.Env) (userId accessToken : string)
  (d : Schema.Db) (u h : string) :
  let after :=
    Effect.db (snd (Effect.run (Routes.callback_sync e userId accessToken) d)) in
  (Observe.count_synced u h after <= Nat.max 1 (Observe.count_synced u h d))%nat
  /\ Observe.count_manual u after = Observe.count_manual u d.
Proof.
  cbv zeta.
  assert (Hloop : forall hhResumes st,
            let after := Effect.db (snd (Routes.callback_loop e userId accessToken
                                           hhResumes st)) in
            (Observe.count_synced u h after
             <= Nat.max 1 (Observe.count_synced u h (Effect.db st)))%nat
            /\ Observe.count_manual u after = Observe.count_manual u (Effect.db st)).
  { induction hhResumes as [|hhResume rest IH]; intros st.
    - cbn [Routes.callback_loop Effect.ret snd]. split; [lia|reflexivity].
    - cbv zeta. rewrite callback_loop_cons.
      destruct (HhAuth.get_resume e accessToken (HhAuth.short_id hhResume))
        as [detail|]; [|cbn [snd]; split; [lia|reflexivity]].
      destruct (Routes.find_synced userId (HhAuth.short_id hhResume) (Effect.db st))
        as [existing|] eqn:F; cbv zeta.
      + match goal with
        | |- context [Routes.callback_loop e userId accessToken rest ?s1] =>
            specialize (IH s1); cbv zeta in IH; destruct IH as [IH1 IH2]
        end.
        cbn [Effect.db] in IH1, IH2.
        unfold Observe.count_manual, Observe.count_synced in *.
        cbn [Schema.with_resumes Schema.resumes] in IH1, IH2.
        rewrite set_synced_keeps in IH1 by reflexivity.
        rewrite set_synced_keeps in IH2 by reflexivity.
        now split.
      + match goal with
        | |- context [Routes.callback_loop e userId accessToken rest ?s1] =>
            specialize (IH s1); cbv zeta in IH; destruct IH as [IH1 IH2]
        end.
        cbn [Effect.db] in IH1, IH2.
        unfold Observe.count_manual, Observe.count_synced in *.
        cbn [Schema.with_resumes Schema.resumes] in IH1, IH2.
        rewrite filter_app, length_app in IH1, IH2. cbn [filter] in IH1, IH2.
        split.
        * eapply Nat.le_trans; [exact IH1|].
          match goal with
          | |- context [if ?c then _ else _] => destruct c eqn:Ec
          end; cbn [List.length]; [|lia].
          cbn [Schema.resume_userId Schema.hhResumeId Schema.eq_col] in Ec.
          apply andb_true_iff in Ec as [E1 E2]. apply String.eqb_eq in E1, E2. subst.
          unfold Routes.find_synced in F. apply find_none_filter in F.
          rewrite F. cbn [List.length]. lia.
        * rewrite IH2. unfold Storage.is_manual at 2.
          cbn [Schema.hhResumeId]. rewrite andb_false_r. cbn [List.length]. lia. }
  remember (Effect.run (Routes.callback_sync e userId accessToken) d) as result eqn:Hr.
  unfold Effect.run, Routes.callback_sync, Effect.try_catch in Hr.
  unfold HhAuth.getHHResumes in Hr. unfold Effect.bind at 1 in Hr.
  unfold Effect.await in Hr.
  destruct (HhAuth.get_resumes_mine e accessToken) as [hhResumes|];
    [|subst result; cbn [Effect.throw Effect.ret snd Effect.db]; split; [lia|reflexivity]].
  unfold Effect.ret at 1 in Hr.
  specialize (Hloop hhResumes (Effect.mkState d [])). cbv zeta in Hloop.
  cbn [Effect.db] in Hloop.
  destruct (Routes.callback_loop e userId accessToken hhResumes (Effect.mkState d []))
    as [[[]|] st2]; subst result; cbn [snd Effect.ret] in *; exact Hloop.
Qed.

(** ** Resumes: the manual resume *)

Lemma latest_spec (l : list Schema.Resume) :
  forall best r,
    Storage.latest l best = Some r ->
    (best = Some r \/ In r l)
    /\ (forall x, In x l -> (Schema.updatedAt x <= Schema.updatedAt r)%Z)
    /\ (forall b, best = Some b -> (Schema.updatedAt b <= Schema.updatedAt r)%Z).
Proof.
  induction l as [|a l IH]; intros best r H; cbn [Storage.latest] in H.
  - subst best. split; [now left|]. split; [intros x []|].
    intros b [= ->]. apply Z.le_refl.
  - destruct best as [b|].
    + destruct (Schema.updatedAt b <? Schema.updatedAt a)%Z eqn:E.
      * apply IH in H as (Hin & Hmax & Hbest). apply Z.ltb_lt in E.
        specialize (Hbest a eq_refl).
        split; [right; destruct Hin as [[= ->] | Hin]; [now left|now right]|].
        split; [intros x [<- | Hx]; [exact Hbest|now apply Hmax]|].
        intros b' [= <-]. lia.
      * apply IH in H as (Hin & Hmax & Hbest). apply Z.ltb_ge in E.
        specialize (Hbest b eq_refl).
        split; [destruct Hin as [Hin | Hin]; [now left|right; now right]|].
        split; [intros x [<- | Hx]; [lia|now apply Hmax]|].
        intros b' [= <-]. exact Hbest.
    + apply IH in H as (Hin & Hmax & Hbest). specialize (Hbest a eq_refl).
      split; [right; destruct Hin as [[= ->] | Hin]; [now left|now right]|].
      split; [intros x [<- | Hx]; [exact Hbest|now apply Hmax]|].
      discriminate.
Qed.

Lemma latest_some (l : list Schema.Resume) (b : Schema.Resume) :
  Storage.latest l (Some b) <> None.
Proof.
  revert b. induction l as [|a l IH]; intros b; cbn [Storage.latest]; [discriminate|].
  destruct (Schema.updatedAt b <? Schema.updatedAt a)%Z; apply IH.
Qed.

Lemma latest_none (l : list Schema.Resume) : Storage.latest l None = None -> l = [].
Proof.
  destruct l as [|a l]; [reflexivity|]. cbn [Storage.latest]. intros H.
  now apply latest_some in H.
Qed.

(** X17. Saving the manual resume keeps one manual resume per user. For a
    user who has a row in the users table the first save creates it and every
    later save rewrites it, so the number of manual resumes of the user
    becomes one if it was zero and is unchanged otherwise. For a user id that
    names no user and has no manual resume the insert is refused: the route
    answers with a server error and the resumes table is as before. A save
    never selects or deselects anything. *)
Theorem manual_save_keeps_one (now : Z) (userId content : string) (d : Schema.Db) :
  JS.truthy_str userId = true ->
  let reply :=
    fst (Routes.post_resume now (Routes.mkResumeRequest (Some content) (Some userId)) d) in
  let d' :=
    snd (Routes.post_resume now (Routes.mkResumeRequest (Some content) (Some userId)) d) in
  (Schema.has_user userId d = true ->
   Observe.count_manual userId d' = Nat.max 1 (Observe.count_manual userId d)
   /\ exists saved, reply = Routes.ResumeSaved saved)
  /\ (Schema.has_user userId d = false ->
      Observe.count_manual userId d = 0%nat ->
      reply = Routes.ResumeFailed "Failed to save resume"
      /\ Schema.resumes d' = Schema.resumes d)
  /\ forall u, Observe.count_selected_external u d' = Observe.count_selected_external u d.
Proof.
  intros Hu reply d'.
  split; [|split; [|intros u; apply post_resume_keeps_selection]].
  - intros Huser. subst reply d'. unfold Routes.post_resume.
    cbn [Routes.rs_content Routes.rs_userId].
    rewrite (required_truthy _ _ _ Hu). unfold Storage.saveManualResume.
    unfold Observe.count_manual.
    destruct (Storage.getManualResume userId d) as [existing|] eqn:G;
      [|rewrite Huser]; cbn [fst snd Schema.with_resumes Schema.resumes].
    + split; [|eexists; reflexivity].
      unfold Schema.update_where. rewrite filter_length_map.
      * unfold Storage.getManualResume in G.
        destruct (filter (Storage.is_manual userId) (Schema.resumes d)) as [|x l] eqn:F;
          [discriminate|].
        cbn [List.length]. lia.
      * intros r. now destruct (Schema.resume_id r =? Schema.resume_id existing)%Z.
    + split; [|eexists; reflexivity].
      unfold Storage.getManualResume in G. apply latest_none in G.
      rewrite filter_app, length_app, G. cbn [filter].
      unfold Storage.is_manual at 1.
      cbn [Schema.resume_userId Schema.hhResumeId Schema.eq_col].
      now rewrite String.eqb_refl.
  - intros Huser Hzero. subst reply d'. unfold Routes.post_resume.
    cbn [Routes.rs_content Routes.rs_userId].
    rewrite (required_truthy _ _ _ Hu). unfold Storage.saveManualResume.
    unfold Observe.count_manual in Hzero. unfold Storage.getManualResume.
    destruct (filter (Storage.is_manual userId) (Schema.resumes d)) as [|x l];
      [|discriminate].
    cbn [Storage.latest]. rewrite Huser. now split.
Qed.

Lemma manual_save_keeps_one_witness :
  (Observe.count_manual "u1" Sample.manual_selected_db = 1%nat
   /\ Observe.count_manual "u1"
        (snd (Routes.post_resume 7000
                (Routes.mkResumeRequest (Some "Аналитик") (Some "u1"))
                Sample.manual_selected_db)) = 1%nat)
  /\ (Observe.count_manual "u1" Sample.one_selected_db = 0%nat
      /\ Observe.count_manual "u1"
           (snd (Routes.post_resume 7000
                   (Routes.mkResumeRequest (Some "Аналитик") (Some "u1"))
                   Sample.one_selected_db)) = 1%nat)
  /\ fst (Routes.post_resume 7000
            (Routes.mkResumeRequest (Some "Аналитик") (Some "u2"))
            Sample.manual_selected_db)
     = Routes.ResumeFailed "Failed to save resume".
Proof.
  split; [split; [reflexivity|]|split; [split; [reflexivity|]|]].
  - exact (proj1 (proj1 (manual_save_keeps_one 7000 "u1" "Аналитик"
                           Sample.manual_selected_db eq_refl) eq_refl)).
  - exact (proj1 (proj1 (manual_save_keeps_one 7000 "u1" "Аналитик"
                           Sample.one_selected_db eq_refl) eq_refl)).
  - exact (proj1 (proj1 (proj2 (manual_save_keeps_one 7000 "u2" "Аналитик"
                                  Sample.manual_selected_db eq_refl))
                    eq_refl eq_refl)).
Defined.

(** X18. What is saved is what is read back: after a save made for a user who
    has a row in the users table, at a moment later than every stamp in the
    resumes table, the route answers with the saved row, and the manual
    resume of the user is a row with the content just saved. *)
Theorem manual_save_reads_back (now : Z) (userId content : string) (d : Schema.Db) :
  JS.truthy_str userId = true ->
  Schema.has_user userId d = true ->
  (forall r, In r (Schema.resumes d) -> (Schema.updatedAt r < now)%Z) ->
  let reply :=
    fst (Routes.post_resume now (Routes.mkResumeRequest (Some content) (Some userId)) d) in
  let d' :=
    snd (Routes.post_resume now (Routes.mkResumeRequest (Some content) (Some userId)) d) in
  (exists saved, reply = Routes.ResumeSaved saved /\ Schema.content saved = content)
  /\ exists r, Storage.getManualResume userId d' = Some r /\ Schema.content r = content.
Proof.
  intros Hu Huser Hclock reply d'. subst reply d'. unfold Routes.post_resume.
  cbn [Routes.rs_content Routes.rs_userId].
  rewrite (required_truthy _ _ _ Hu). unfold Storage.saveManualResume.
  destruct (Storage.getManualResume userId d) as [existing|] eqn:G;
    [|rewrite Huser]; cbn [fst snd].
  - split; [eexists; split; reflexivity|].
    unfold Storage.getManualResume in G |- *.
    cbn [Schema.with_resumes Schema.resumes].
    apply latest_spec in G as ([G | G] & _); [discriminate|].
    apply filter_In in G as [Gin Gman].
    set (g := fun r => if (Schema.resume_id r =? Schema.resume_id existing)%Z
                       then Schema.set_content content now r else r).
    change (Schema.update_where _ _ (Schema.resumes d)) with (map g (Schema.resumes d)).
    assert (Hex : In (g existing)
                    (filter (Storage.is_manual userId) (map g (Schema.resumes d)))).
    { apply filter_In. split; [now apply in_map|].
      unfold g. now rewrite Z.eqb_refl. }
    destruct (Storage.latest (filter (Storage.is_manual userId)
                                (map g (Schema.resumes d))) None) as [r|] eqn:L.
    + exists r. split; [reflexivity|].
      apply latest_spec in L as ([L | L] & Hmax & _); [discriminate|].
      specialize (Hmax _ Hex). unfold g at 1 in Hmax. rewrite Z.eqb_refl in Hmax.
      cbn [Schema.set_content Schema.updatedAt] in Hmax.
      apply filter_In in L as [L _]. apply in_map_iff in L as (r0 & <- & Hr0).
      unfold g in *.
      destruct (Schema.resume_id r0 =? Schema.resume_id existing)%Z; [reflexivity|].
      specialize (Hclock r0 Hr0). lia.
    + apply latest_none in L. rewrite L in Hex. destruct Hex.
  - split; [eexists; split; reflexivity|].
    unfold Storage.getManualResume in G |- *.
    cbn [Schema.with_resumes Schema.resumes].
    apply latest_none in G. rewrite filter_app, G. cbn [filter app].
    unfold Storage.is_manual.
    cbn [Schema.resume_userId Schema.hhResumeId Schema.eq_col].
    rewrite String.eqb_refl. cbn [andb Storage.latest]. eexists. now split.
Qed.

Lemma manual_save_reads_back_witness :
  exists r,
    Storage.getManualResume "u1"
      (snd (Routes.post_resume 7000
              (Routes.mkResumeRequest (Some "Аналитик") (Some "u1"))
              Sample.manual_selected_db)) = Some r
    /\ Schema.content r = "Аналитик".
Proof.
  apply (manual_save_reads_back 7000 "u1" "Аналитик" Sample.manual_selected_db eq_refl
           eq_refl).
  intros r [<- | []]. reflexivity.
Defined.

(** ** The texts the LLM module returns *)

Lemma every_trimStart (p : ascii -> bool) (s : string) :
  Observe.every p s = true -> Observe.every p (JS.trimStart s) = true.
Proof.
  induction s as [|c s IH]; [reflexivity|]. cbn [JS.trimStart].
  destruct (JS.is_space c); [|trivial].
  cbn [Observe.every]. intros H. apply andb_true_iff in H as [_ H]. now apply IH.
Qed.

Lemma every_trimEnd (p : ascii -> bool) (s : string) :
  Observe.every p s = true -> Observe.every p (JS.trimEnd s) = true.
Proof.
  induction s as [|c s IH]; [reflexivity|]. cbn [JS.trimEnd Observe.every].
  intros H. apply andb_true_iff in H as [Hc H]. specialize (IH H).
  destruct (JS.trimEnd s) as [|c2 r2].
  - destruct (JS.is_space c); [reflexivity|]. cbn [Observe.every]. now rewrite Hc.
  - cbn [Observe.every] in *. now rewrite Hc, IH.
Qed.

Lemma every_collapse (p : ascii -> bool) (b : bool) (s : string) :
  p " "%char = true ->
  Observe.every p s = true -> Observe.every p (OpenRouter.collapse_spaces b s) = true.
Proof.
  intros Hsp. revert b. induction s as [|c s IH]; intros b; [reflexivity|].
  cbn [OpenRouter.collapse_spaces Observe.every]. intros H.
  apply andb_true_iff in H as [Hc H].
  destruct (JS.is_space c); [destruct b|]; cbn [Observe.every];
    rewrite ?Hsp, ?Hc; cbn [andb]; now apply IH.
Qed.

Lemma every_replace_markup (s : string) :
  Observe.every Observe.not_markup (OpenRouter.replace_markup s) = true.
Proof.
  induction s as [|c s IH]; [reflexivity|].
  cbn [OpenRouter.replace_markup Observe.every]. rewrite IH, andb_true_r.
  unfold Observe.not_markup. destruct (OpenRouter.is_markup c) eqn:E; [reflexivity|].
  now rewrite E.
Qed.

Lemma sanitize_no_markup (text : string) :
  Observe.every Observe.not_markup (OpenRouter.sanitize text) = true.
Proof.
  unfold OpenRouter.sanitize, JS.trim.
  apply every_trimEnd, every_trimStart, every_collapse; [reflexivity|].
  apply every_replace_markup.
Qed.

Lemma collapse_spaced (s : string) :
  forall b,
    Observe.spaces_single true (OpenRouter.collapse_spaces b s) = true
    /\ (b = true -> Observe.starts_unspaced (OpenRouter.collapse_spaces b s) = true).
Proof.
  induction s as [|c s IH]; intros b; [now split|].
  cbn [OpenRouter.collapse_spaces].
  destruct (JS.is_space c) eqn:Ec.
  - destruct b.
    + apply IH.
    + split; [|discriminate]. destruct (IH true) as [H1 H2]. specialize (H2 eq_refl).
      cbn [Observe.spaces_single]. rewrite H1, andb_true_r.
      change (JS.is_space " "%char) with true. cbn [Ascii.eqb Bool.eqb andb].
      destruct (OpenRouter.collapse_spaces true s); [reflexivity|exact H2].
  - split; [|intros _; cbn [Observe.starts_unspaced]; now rewrite Ec].
    cbn [Observe.spaces_single]. rewrite Ec. cbn [andb]. apply IH.
Qed.

Lemma spaced_trimStart (s : string) :
  Observe.spaces_single true s = true ->
  Observe.spaces_single true (JS.trimStart s) = true
  /\ Observe.starts_unspaced (JS.trimStart s) = true.
Proof.
  induction s as [|c s IH]; [now split|]. cbn [JS.trimStart].
  destruct (JS.is_space c) eqn:Ec.
  - cbn [Observe.spaces_single]. intros H. apply andb_true_iff in H as [_ H].
    now apply IH.
  - intros H. split; [exact H|]. cbn [Observe.starts_unspaced]. now rewrite Ec.
Qed.

Lemma trimEnd_head (s : string) (c : ascii) (r : string) :
  JS.trimEnd s = String c r -> exists r', s = String c r'.
Proof.
  destruct s as [|x s]; [discriminate|]. cbn [JS.trimEnd].
  destruct (JS.trimEnd s); [destruct (JS.is_space x)|]; intros [= <- _];
    now eexists.
Qed.

Lemma spaced_trimEnd (s : string) :
  Observe.spaces_single true s = true ->
  Observe.spaces_single false (JS.trimEnd s) = true.
Proof.
  induction s as [|c s IH]; [reflexivity|].
  cbn [Observe.spaces_single JS.trimEnd]. intros H.
  apply andb_true_iff in H as [Hc H]. specialize (IH H).
  destruct (JS.trimEnd s) as [|c2 r2] eqn:T.
  - destruct (JS.is_space c) eqn:Ec; [reflexivity|].
    cbn [Observe.spaces_single]. now rewrite Ec.
  - cbn [Observe.spaces_single] in IH |- *. rewrite IH, andb_true_r.
    destruct (JS.is_space c); [|reflexivity].
    apply trimEnd_head in T as [r' ->].
    apply andb_true_iff in Hc as [Hc1 Hc2]. now rewrite Hc1, Hc2.
Qed.

Lemma unspaced_trimEnd (s : string) :
  Observe.starts_unspaced s = true -> Observe.starts_unspaced (JS.trimEnd s) = true.
Proof.
  destruct s as [|c s]; [reflexivity|]. cbn [Observe.starts_unspaced JS.trimEnd].
  intros Hc. apply negb_true_iff in Hc.
  destruct (JS.trimEnd s); rewrite ?Hc; cbn [Observe.starts_unspaced]; now rewrite Hc.
Qed.

Lemma sanitize_tidy (text : string) : Observe.tidy (OpenRouter.sanitize text) = true.
Proof.
  unfold Observe.tidy, OpenRouter.sanitize, JS.trim.
  destruct (collapse_spaced (OpenRouter.replace_markup text) false) as [H _].
  apply spaced_trimStart in H as [H1 H2].
  now rewrite (unspaced_trimEnd _ H2), (spaced_trimEnd _ H1).
Qed.

(** X19. A sanitised text holds none of the characters [*], [#], [_] and [-],
    begins and ends with a character that is not ASCII white space, and has
    no ASCII white space inside other than single plain spaces. *)
Theorem sanitize_is_clean (text : string) :
  Observe.every Observe.not_markup (OpenRouter.sanitize text) = true
  /\ Observe.tidy (OpenRouter.sanitize text) = true.
Proof.
  split.
  - apply sanitize_no_markup.
  - apply sanitize_tidy.
Qed.

Lemma replace_markup_clean (s : string) :
  Observe.every Observe.not_markup s = true -> OpenRouter.replace_markup s = s.
Proof.
  induction s as [|c s IH]; [reflexivity|].
  cbn [Observe.every OpenRouter.replace_markup]. intros H.
  apply andb_true_iff in H as [Hc H]. rewrite (IH H).
  unfold Observe.not_markup in Hc. apply negb_true_iff in Hc. now rewrite Hc.
Qed.

Lemma collapse_tidy (s : string) :
  Observe.spaces_single false s = true ->
  OpenRouter.collapse_spaces false s = s
  /\ (Observe.starts_unspaced s = true -> OpenRouter.collapse_spaces true s = s).
Proof.
  induction s as [|c s IH]; [now split|].
  cbn [Observe.spaces_single OpenRouter.collapse_spaces Observe.starts_unspaced].
  intros H. apply andb_true_iff in H as [Hc H]. destruct (IH H) as [IH1 IH2].
  destruct (JS.is_space c) eqn:Ec.
  - split; [|discriminate].
    apply andb_true_iff in Hc as [Hc1 Hc2]. apply Ascii.eqb_eq in Hc1. subst c.
    f_equal. apply IH2. destruct s; [discriminate|exact Hc2].
  - split; [now rewrite IH1|intros _; now rewrite IH1].
Qed.

Lemma trimStart_unspaced (s : string) :
  Observe.starts_unspaced s = true -> JS.trimStart s = s.
Proof.
  destruct s as [|c s]; [reflexivity|]. cbn [Observe.starts_unspaced JS.trimStart].
  intros H. apply negb_true_iff in H. now rewrite H.
Qed.

Lemma trimEnd_tidy (s : string) :
  Observe.spaces_single false s = true -> JS.trimEnd s = s.
Proof.
  induction s as [|c s IH]; [reflexivity|].
  cbn [Observe.spaces_single JS.trimEnd]. intros H.
  apply andb_true_iff in H as [Hc H]. rewrite (IH H).
  destruct s as [|c2 s2]; [|reflexivity].
  destruct (JS.is_space c); [|reflexivity].
  apply andb_true_iff in Hc as [_ Hc]. discriminate.
Qed.

(** X20. Sanitising is idempotent: a text that went through [sanitize] once
    comes back unchanged from a second pass. *)
Theorem sanitize_idempotent (text : string) :
  OpenRouter.sanitize (OpenRouter.sanitize text) = OpenRouter.sanitize text.
Proof.
  pose proof (sanitize_no_markup text) as Hm.
  pose proof (sanitize_tidy text) as Ht.
  apply andb_true_iff in Ht as [Hs Hi].
  set (t := OpenRouter.sanitize text) in *.
  unfold OpenRouter.sanitize at 1. unfold JS.trim.
  rewrite (replace_markup_clean t Hm).
  rewrite (proj1 (collapse_tidy t Hi)).
  now rewrite (trimStart_unspaced t Hs), (trimEnd_tidy t Hi).
Qed.

(** X21. A cover letter never holds markdown punctuation: whatever the LLM
    answers and whether or not it answers, the text [generateCoverLetter]
    returns has none of the characters [*], [#], [_] and [-]. *)
Theorem cover_letter_has_no_markup (e : OpenRouter.Env) (resume : string)
  (vacancy : OpenRouter.Job) :
  Observe.every Observe.not_markup (OpenRouter.generateCoverLetter e resume vacancy)
  = true.
Proof.
  assert (Hfall : Observe.every Observe.not_markup (OpenRouter.fallbackLetter vacancy)
                  = true) by (vm_compute; reflexivity).
  unfold OpenRouter.generateCoverLetter.
  destruct (negb (JS.truthy (OpenRouter.OPENROUTER_API_KEY e))); [exact Hfall|].
  unfold OpenRouter.coverLetter_try.
  destruct (OpenRouter.chat e _) as [|status|content]; try exact Hfall.
  destruct (JS.value_truthy content); [|exact Hfall].
  destruct content; try exact Hfall. apply sanitize_no_markup.
Qed.

Lemma explanation_no_markup (e : OpenRouter.Env) (resume : string)
  (vacancy : OpenRouter.Job) :
  Observe.every Observe.not_markup
    (OpenRouter.explanation (OpenRouter.calculateCompatibility e resume vacancy))
  = true.
Proof.
  assert (Hext : forall id text,
    Observe.every Observe.not_markup
      (OpenRouter.explanation (OpenRouter.extracted e id text)) = true).
  { intros id text. unfold OpenRouter.extracted.
    destruct (OpenRouter.scoreMatch e text); [|vm_compute; reflexivity].
    cbn [OpenRouter.explanation].
    destruct (OpenRouter.explMatch e text);
      [apply sanitize_no_markup|vm_compute; reflexivity]. }
  unfold OpenRouter.calculateCompatibility.
  destruct (_ || _ || _); [vm_compute; reflexivity|].
  destruct (OpenRouter.compatibility_try _ _ _) as [r|] eqn:E;
    [|vm_compute; reflexivity].
  unfold OpenRouter.compatibility_try in E.
  destruct (OpenRouter.chat e _) as [|status|content]; [discriminate| |].
  - injection E as <-. vm_compute; reflexivity.
  - destruct (if JS.value_truthy content then content else JS.VStr "");
      try discriminate.
    destruct (OpenRouter.jsonMatch s) as [json|].
    + destruct (OpenRouter.parsed_try e _ json) as [r'|] eqn:P.
      * injection E as <-. unfold OpenRouter.parsed_try in P.
        destruct (OpenRouter.JSON_parse e json) as [parsed|]; [|discriminate].
        destruct (if JS.value_truthy (OpenRouter.resp_explanation parsed)
                  then OpenRouter.resp_explanation parsed
                  else JS.VStr _); try discriminate.
        injection P as <-. apply sanitize_no_markup.
      * injection E as <-. apply Hext.
    + injection E as <-. apply Hext.
Qed.

(** X22. Whatever the LLM answers, the scorer returns a well-formed result:
    the score is NaN or an integer from 0 to 100, the colour is the bucket
    of that score, and the explanation holds no markdown punctuation. *)
Theorem compatibility_result_well_formed (e : OpenRouter.Env) (resume : string)
  (vacancy : OpenRouter.Job) :
  let r := OpenRouter.calculateCompatibility e resume vacancy in
  (OpenRouter.score r = JS.NaN
   \/ exists z, (0 <= z <= 100)%Z /\ OpenRouter.score r = JS.of_Z z)
  /\ OpenRouter.color r = Bucket.scoreToColor (OpenRouter.score r)
  /\ Observe.every Observe.not_markup (OpenRouter.explanation r) = true.
Proof.
  intros r. destruct (calculateCompatibility_sound e resume vacancy) as [Hs Hc].
  split; [exact Hs|]. split; [exact Hc|]. apply explanation_no_markup.
Qed.

Lemma upto_close_shape (s m : string) :
  OpenRouter.upto_close s = Some m ->
  exists body post,
    m = body ++ "}" /\ s = m ++ post /\ Observe.occurs "}" body = false.
Proof.
  revert m. induction s as [|c s IH]; intros m; [discriminate|].
  cbn [OpenRouter.upto_close]. destruct (Ascii.eqb c "}") eqn:Ec.
  - intros [= <-]. apply Ascii.eqb_eq in Ec. subst c.
    exists "", s. now repeat split.
  - destruct (OpenRouter.upto_close s) as [m'|]; [|discriminate].
    intros [= <-]. destruct (IH m' eq_refl) as (body & post & -> & Hs & Hb).
    exists (String c body), post. cbn [append Observe.occurs].
    rewrite Ec, Hb. repeat split. now rewrite Hs at 1.
Qed.

Lemma upto_close_none (s : string) :
  OpenRouter.upto_close s = None <-> Observe.occurs "}" s = false.
Proof.
  induction s as [|c s IH]; [now split|].
  cbn [OpenRouter.upto_close Observe.occurs].
  destruct (Ascii.eqb c "}"); cbn [orb]; [split; discriminate|].
  rewrite <- IH. destruct (OpenRouter.upto_close s); cbn [option_map]; split;
    intros; congruence.
Qed.

(** X23. The JSON object the scorer parses is the shortest brace-delimited
    piece that starts at the first opening brace of the answer: it runs from
    that brace to the first closing brace after it; and there is no such
    piece exactly when no closing brace follows the first opening one. *)
Theorem jsonMatch_is_first_object (text : string) :
  match OpenRouter.jsonMatch text with
  | Some m =>
      exists pre body post,
        text = pre ++ m ++ post
        /\ m = "{" ++ body ++ "}"
        /\ Observe.occurs "{" pre = false
        /\ Observe.occurs "}" body = false
  | None =>
      forall pre rest, text = pre ++ "{" ++ rest -> Observe.occurs "{" pre = false ->
                       Observe.occurs "}" rest = false
  end.
Proof.
  induction text as [|c text IH].
  - intros [|x pre] rest H; discriminate.
  - cbn [OpenRouter.jsonMatch]. destruct (Ascii.eqb c "{") eqn:Ec.
    + apply Ascii.eqb_eq in Ec. subst c.
      destruct (OpenRouter.upto_close text) as [m|] eqn:U; cbn [option_map].
      * apply upto_close_shape in U as (body & post & -> & Ht & Hb).
        exists "", body, post. cbn [append]. repeat split; [|exact Hb].
        now rewrite Ht at 1.
      * intros [|x pre] rest H Hp.
        -- cbn [append] in H. injection H as ->. now apply upto_close_none.
        -- cbn [append] in H. injection H as <- _. cbn in Hp. discriminate.
    + destruct (OpenRouter.jsonMatch text) as [m|].
      * destruct IH as (pre & body & post & Ht & Hm & Hp & Hb).
        exists (String c pre), body, post. cbn [append Observe.occurs].
        rewrite Ec, Hp. repeat split; [now rewrite Ht at 1|exact Hm|exact Hb].
      * intros [|x pre] rest H Hp.
        -- cbn [append] in H. injection H as -> _. cbn in Ec. discriminate.
        -- cbn [append] in H. injection H as <- H. cbn [Observe.occurs] in Hp.
           apply orb_false_iff in Hp as [_ Hp]. now apply (IH pre rest).
Qed.

Lemma jsonMatch_is_first_object_witness :
  OpenRouter.jsonMatch "no { brace" = None /\ Observe.occurs "}" " brace" = false.
Proof.
  split; [reflexivity|].
  exact (jsonMatch_is_first_object "no { brace" "no " " brace" eq_refl eq_refl).
Defined.

(** ** The cache of compatibility scores *)

Lemma getCompatibility_absent (userId vacancyId : string) (d : Schema.Db) :
  (forall c, In c (Schema.aiCompatibility d) ->
             Observe.cached_for userId vacancyId c = false) ->
  Storage.getCompatibility userId vacancyId d = None.
Proof.
  unfold Storage.getCompatibility, Observe.cached_for.
  induction (Schema.aiCompatibility d) as [|c l IH]; intros H; [reflexivity|].
  cbn [find]. rewrite (H c (or_introl eq_refl)). apply IH.
  intros c' Hc'. apply H. now right.
Qed.


Lemma deleteCompatibility_has_user (u userId vacancyId : string) (d : Schema.Db) :
  Schema.has_user u (Storage.deleteCompatibility userId vacancyId d)
  = Schema.has_user u d.
Proof. now destruct d. Qed.

(** X24. Saving a score is an upsert. When the score is a value of the
    integer column and the user id names a user, the cache afterwards holds
    exactly one row for the user and the vacancy, the one just saved, and a
    lookup returns it. When the score is no such value (a fraction, a number
    out of range, NaN or an infinity) or the user id names no user, the
    insert fails after the delete has run: nothing is returned and the cache
    holds no row for the user and the vacancy. Either way the rows of every
    other user or vacancy are as before. *)
Theorem saved_score_replaces_cached_one (id : Z) (userId vacancyId : string)
  (score : JS.number) (color explanation : string) (d : Schema.Db) :
  let result :=
    fst (Storage.saveCompatibility id userId vacancyId score color explanation d) in
  let d' :=
    snd (Storage.saveCompatibility id userId vacancyId score color explanation d) in
  (forall z, Storage.as_integer score = Some z -> Schema.has_user userId d = true ->
     let created := Schema.mkAiCompatibility id userId vacancyId z color explanation in
     result = Some created
     /\ Storage.getCompatibility userId vacancyId d' = Some created
     /\ filter (Observe.cached_for userId vacancyId) (Schema.aiCompatibility d')
        = [created])
  /\ (Storage.as_integer score = None \/ Schema.has_user userId d = false ->
      result = None
      /\ Storage.getCompatibility userId vacancyId d' = None
      /\ filter (Observe.cached_for userId vacancyId) (Schema.aiCompatibility d') = [])
  /\ forall c, Observe.cached_for userId vacancyId c = false ->
       (In c (Schema.aiCompatibility d') <-> In c (Schema.aiCompatibility d)).
Proof.
  intros result d'.
  assert (Hnone : forall c,
    In c (Schema.aiCompatibility (Storage.deleteCompatibility userId vacancyId d)) ->
    Observe.cached_for userId vacancyId c = false).
  { intros c Hc. now apply deleteCompatibility_rows in Hc. }
  pose proof (getCompatibility_absent userId vacancyId
                (Storage.deleteCompatibility userId vacancyId d) Hnone) as Habsent.
  assert (Hfailed :
    Storage.saveCompatibility id userId vacancyId score color explanation d
    = (None, Storage.deleteCompatibility userId vacancyId d) ->
    result = None
    /\ Storage.getCompatibility userId vacancyId d' = None
    /\ filter (Observe.cached_for userId vacancyId) (Schema.aiCompatibility d') = []
    /\ forall c, Observe.cached_for userId vacancyId c = false ->
         (In c (Schema.aiCompatibility d') <-> In c (Schema.aiCompatibility d))).
  { intros E. subst result d'. rewrite E. cbn [fst snd].
    split; [reflexivity|]. split; [exact Habsent|].
    split; [now apply find_none_filter|].
    intros c Hc. rewrite deleteCompatibility_rows. tauto. }
  assert (Hsaved : forall z,
    Storage.saveCompatibility id userId vacancyId score color explanation d
    = (Some (Schema.mkAiCompatibility id userId vacancyId z color explanation),
       Schema.with_aiCompatibility
         (Schema.aiCompatibility (Storage.deleteCompatibility userId vacancyId d)
          ++ [Schema.mkAiCompatibility id userId vacancyId z color explanation])
         (Storage.deleteCompatibility userId vacancyId d)) ->
    let created := Schema.mkAiCompatibility id userId vacancyId z color explanation in
    result = Some created
    /\ Storage.getCompatibility userId vacancyId d' = Some created
    /\ filter (Observe.cached_for userId vacancyId) (Schema.aiCompatibility d')
       = [created]
    /\ forall c, Observe.cached_for userId vacancyId c = false ->
         (In c (Schema.aiCompatibility d') <-> In c (Schema.aiCompatibility d))).
  { intros z E created. subst result d'. rewrite E. cbn [fst snd]. fold created.
    assert (Hkey : Observe.cached_for userId vacancyId created = true).
    { unfold Observe.cached_for, created. cbn [Schema.ai_userId Schema.ai_vacancyId].
      now rewrite !String.eqb_refl. }
    assert (Hrows : Schema.aiCompatibility
                      (Schema.with_aiCompatibility
                         (Schema.aiCompatibility
                            (Storage.deleteCompatibility userId vacancyId d)
                          ++ [created])
                         (Storage.deleteCompatibility userId vacancyId d))
                    = (Schema.aiCompatibility
                         (Storage.deleteCompatibility userId vacancyId d)
                       ++ [created])%list) by reflexivity.
    split; [reflexivity|]. split; [|split].
    - unfold Storage.getCompatibility. rewrite Hrows.
      now apply (find_only_last (Observe.cached_for userId vacancyId)).
    - rewrite Hrows, filter_app. cbn [filter]. rewrite Hkey.
      now rewrite (find_none_filter (Observe.cached_for userId vacancyId)).
    - intros c Hc. rewrite Hrows, in_app_iff, deleteCompatibility_rows.
      split.
      + intros [[H _] | [<- | []]]; [exact H|congruence].
      + intros H. left. now split. }
  split; [|split].
  - intros z Hz Huser created.
    destruct (Hsaved z) as (H1 & H2 & H3 & _); [|now repeat split].
    unfold Storage.saveCompatibility. rewrite Hz, deleteCompatibility_has_user.
    now rewrite Huser.
  - intros Hwhy.
    destruct Hfailed as (H1 & H2 & H3 & _); [|now repeat split].
    unfold Storage.saveCompatibility.
    destruct (Storage.as_integer score) as [z|]; [|reflexivity].
    destruct Hwhy as [Hwhy | Hwhy]; [discriminate|].
    now rewrite deleteCompatibility_has_user, Hwhy.
  - unfold Storage.saveCompatibility in Hfailed, Hsaved.
    destruct (Storage.as_integer score) as [z|].
    + rewrite deleteCompatibility_has_user in Hfailed, Hsaved.
      destruct (Schema.has_user userId d).
      * now destruct (Hsaved z eq_refl) as (_ & _ & _ & H).
      * now destruct (Hfailed eq_refl) as (_ & _ & _ & H).
    + now destruct (Hfailed eq_refl) as (_ & _ & _ & H).
Qed.

Lemma saved_score_replaces_cached_one_witness :
  Storage.getCompatibility "u1" "42"
    (snd (Storage.saveCompatibility 3 "u1" "42" (JS.of_Z 55) "yellow" "Частично."
            Sample.cached_db))
  = Some (Schema.mkAiCompatibility 3 "u1" "42" 55 "yellow" "Частично.")
  /\ Storage.getCompatibility "u1" "42"
       (snd (Storage.saveCompatibility 3 "u1" "42" JS.NaN "yellow" "Частично."
               Sample.cached_db))
     = None.
Proof.
  split.
  - exact (proj1 (proj2 (proj1 (saved_score_replaces_cached_one 3 "u1" "42" (JS.of_Z 55)
                                  "yellow" "Частично." Sample.cached_db)
                           55%Z eq_refl eq_refl))).
  - exact (proj1 (proj2 (proj1 (proj2 (saved_score_replaces_cached_one 3 "u1" "42" JS.NaN
                                         "yellow" "Частично." Sample.cached_db))
                           (or_introl eq_refl)))).
Defined.



(** ** The cache of regions *)

Lemma get_hh_areas_fresh (now : Z) (fetched : option (list Routes.AreaNode))
  (flat : list (string * string)) (t : Z) :
  t <> 0%Z -> (now - t < Routes.HH_AREAS_TTL_MS)%Z ->
  Routes.get_hh_areas now fetched (Routes.mkAreasCache (Some flat) (Some t))
  = (Routes.AreasOk flat, Routes.mkAreasCache (Some flat) (Some t)).
Proof.
  intros Ht Hnow. unfold Routes.get_hh_areas.
  cbn [Routes.hhAreasCache Routes.hhAreasCacheUpdatedAt].
  apply Z.eqb_neq in Ht. apply Z.ltb_lt in Hnow. now rewrite Ht, Hnow.
Qed.

Lemma get_hh_areas_stale (now : Z) (fetched : option (list Routes.AreaNode))
  (c : Routes.AreasCache) :
  Observe.fresh now c = false ->
  Routes.get_hh_areas now fetched c
  = match fetched with
    | Some data =>
        (Routes.AreasOk (flat_map Routes.walk data),
         Routes.mkAreasCache (Some (flat_map Routes.walk data)) (Some now))
    | None => (Routes.AreasFailed, c)
    end.
Proof.
  unfold Observe.fresh, Routes.get_hh_areas.
  destruct (Routes.hhAreasCache c), (Routes.hhAreasCacheUpdatedAt c);
    try reflexivity.
  now intros ->.
Qed.

(** X26. The list of regions is cached for an hour: when a request at a time
    [t] other than 0 finds the cache empty or stale and hh.ru answers, every
    request less than an hour after [t] gets the same list and leaves the
    cache alone, whether hh.ru answers then or not; a request an hour or more
    after [t] asks hh.ru again, and one that gets no answer then fails without
    serving the stale list. *)
Theorem areas_are_cached_for_an_hour (t : Z) (data : list Routes.AreaNode)
  (c : Routes.AreasCache) (calls : list (Z * option (list Routes.AreaNode))) :
  t <> 0%Z ->
  Observe.fresh t c = false ->
  (forall call, In call calls -> (fst call - t < Routes.HH_AREAS_TTL_MS)%Z) ->
  let flat := flat_map Routes.walk data in
  let loaded := Routes.mkAreasCache (Some flat) (Some t) in
  Observe.areas_session ((t, Some data) :: calls) c
  = (Routes.AreasOk flat :: map (fun _ => Routes.AreasOk flat) calls, loaded)
  /\ forall late, (Routes.HH_AREAS_TTL_MS <= late - t)%Z ->
       Routes.get_hh_areas late None loaded = (Routes.AreasFailed, loaded)
       /\ forall data',
            Routes.get_hh_areas late (Some data') loaded
            = (Routes.AreasOk (flat_map Routes.walk data'),
               Routes.mkAreasCache (Some (flat_map Routes.walk data')) (Some late)).
Proof.
  intros Ht Hstale Hcalls flat loaded. split.
  - cbn [Observe.areas_session]. rewrite (get_hh_areas_stale t (Some data) c Hstale).
    fold flat. fold loaded.
    assert (Hrest : Observe.areas_session calls loaded
                    = (map (fun _ => Routes.AreasOk flat) calls, loaded)).
    { induction calls as [|[now fetched] rest IH]; [reflexivity|].
      cbn [Observe.areas_session map]. unfold loaded at 1.
      rewrite (get_hh_areas_fresh now fetched flat t Ht
                 (Hcalls (now, fetched) (or_introl eq_refl))).
      fold loaded. rewrite IH; [reflexivity|].
      intros call Hin. apply Hcalls. now right. }
    now rewrite Hrest.
  - intros late Hlate.
    assert (Hexp : Observe.fresh late loaded = false).
    { unfold Observe.fresh, loaded.
      cbn [Routes.hhAreasCache Routes.hhAreasCacheUpdatedAt].
      apply andb_false_iff. right. apply Z.ltb_ge. exact Hlate. }
    split; [|intros data']; now rewrite get_hh_areas_stale.
Qed.

Lemma areas_are_cached_for_an_hour_witness :
  Observe.areas_session
    [(1000, Some Sample.regions); (2000, None); (3000, Some [])]%Z
    (Routes.mkAreasCache None None)
  = ([Routes.AreasOk [("113", "Россия"); ("1", "Москва")];
      Routes.AreasOk [("113", "Россия"); ("1", "Москва")];
      Routes.AreasOk [("113", "Россия"); ("1", "Москва")]],
     Routes.mkAreasCache (Some [("113", "Россия"); ("1", "Москва")]) (Some 1000%Z)).
Proof.
  apply (areas_are_cached_for_an_hour 1000 Sample.regions (Routes.mkAreasCache None None)
           [(2000, None); (3000, Some [])]%Z).
  - discriminate.
  - reflexivity.
  - intros call [<- | [<- | []]]; vm_compute; reflexivity.
Defined.

(** X27. The flattened list of regions never has a blank entry: every pair
    the walk collects, at whatever depth of the tree, has an id and a name
    that are not empty. *)
Theorem walk_lists_no_blank_region (data : list Routes.AreaNode) (id name : string) :
  In (id, name) (flat_map Routes.walk data) ->
  JS.truthy_str id = true /\ JS.truthy_str name = true.
Proof.
  assert (Hnode : forall node, In (id, name) (Routes.walk node) ->
                               JS.truthy_str id = true /\ JS.truthy_str name = true).
  { intros node. remember (Observe.nodes node) as k eqn:Hk.
    assert (Hle : (Observe.nodes node <= k)%nat) by (subst k; apply Nat.le_refl).
    clear Hk. revert node Hle.
    induction k as [|k IH]; intros [i n areas] Hle H;
      cbn [Observe.nodes] in Hle; [inversion Hle|].
    apply le_S_n in Hle.
    cbn [Routes.walk] in H. apply in_app_or in H. destruct H as [H | H].
    - destruct i as [i|], n as [n|]; try contradiction.
      destruct (JS.truthy_str i && JS.truthy_str n) eqn:E; [|contradiction].
      destruct H as [[= <- <-] | []]. now apply andb_true_iff in E.
    - destruct areas as [children|]; [|contradiction].
      induction children as [|child rest IHc]; [contradiction|].
      cbn [map list_sum fold_right] in Hle.
      cbn [flat_map] in H. apply in_app_or in H. destruct H as [H | H].
      + apply (IH child); [|exact H].
        eapply Nat.le_trans; [apply Nat.le_add_r|exact Hle].
      + apply IHc; [|exact H].
        eapply Nat.le_trans; [|exact Hle]. unfold list_sum.
        rewrite Nat.add_comm. apply Nat.le_add_r. }
  induction data as [|node rest IH]; [contradiction|].
  cbn [flat_map]. rewrite in_app_iff. intros [H | H]; [exact (Hnode node H)|exact (IH H)].
Qed.

Lemma walk_lists_no_blank_region_witness :
  JS.truthy_str "1" = true /\ JS.truthy_str "Москва" = true.
Proof.
  apply (walk_lists_no_blank_region Sample.regions "1" "Москва").
  vm_compute. right. left. reflexivity.
Defined.

(** ** The client's counter of pending applications *)

(** X28. The counter of the client never goes below zero and never exceeds
    what the increments account for, and the listeners are notified once per
    call that changes it: a decrement refused at zero notifies nobody. *)
Theorem pending_counter_invariant (l : list PendingStore.call) (s : PendingStore.store) :
  (0 <= PendingStore.pendingCount s)%Z ->
  let s' := PendingStore.calls l s in
  (0 <= PendingStore.getPendingCount s')%Z
  /\ (PendingStore.getPendingCount s'
      <= PendingStore.pendingCount s + PendingStore.increments l)%Z
  /\ (Z.of_nat (PendingStore.notified s') - Z.of_nat (PendingStore.notified s)
      = 2 * PendingStore.increments l
        - (PendingStore.getPendingCount s' - PendingStore.pendingCount s))%Z.
Proof.
  unfold PendingStore.calls, PendingStore.getPendingCount, PendingStore.increments.
  revert s. induction l as [|c l IH]; intros s Hs; cbn [fold_left filter List.length].
  - lia.
  - assert (Hstep : (0 <= PendingStore.pendingCount (PendingStore.step s c))%Z).
    { destruct c; cbn [PendingStore.step];
        unfold PendingStore.incrementPending, PendingStore.decrementPending;
        [|destruct (0 <? PendingStore.pendingCount s)%Z eqn:E;
          [apply Z.ltb_lt in E|]];
        cbn [PendingStore.pendingCount]; lia. }
    specialize (IH (PendingStore.step s c) Hstep). cbv zeta in IH.
    destruct IH as (IH1 & IH2 & IH3).
    destruct c; cbn [PendingStore.step] in *;
      unfold PendingStore.incrementPending, PendingStore.decrementPending in *.
    + cbn [PendingStore.pendingCount PendingStore.notified List.length] in *.
      rewrite Nat2Z.inj_succ in *. lia.
    + destruct (0 <? PendingStore.pendingCount s)%Z eqn:E.
      * cbn [PendingStore.pendingCount PendingStore.notified] in *.
        rewrite Nat2Z.inj_succ in *. lia.
      * lia.
Qed.

Lemma pending_counter_invariant_witness :
  PendingStore.getPendingCount
    (PendingStore.calls
       [PendingStore.Decrement; PendingStore.Increment; PendingStore.Decrement;
        PendingStore.Decrement]
       PendingStore.initial)
  = 0%Z
  /\ (0 <= PendingStore.getPendingCount
             (PendingStore.calls
                [PendingStore.Decrement; PendingStore.Increment; PendingStore.Decrement;
                 PendingStore.Decrement]
                PendingStore.initial))%Z.
Proof.
  split; [reflexivity|].
  apply (pending_counter_invariant
           [PendingStore.Decrement; PendingStore.Increment; PendingStore.Decrement;
            PendingStore.Decrement]
           PendingStore.initial).
  vm_compute. discriminate.
Defined.

(** ** Editing the letter of an application *)

Lemma update_where_none {A : Type} (p : A -> bool) (f : A -> A) (l : list A) :
  find p l = None -> Schema.update_where p f l = l.
Proof.
  unfold Schema.update_where. induction l as [|a l IH]; [reflexivity|].
  cbn [find map]. destruct (p a); [discriminate|]. intros H. now rewrite IH.
Qed.

Lemma with_applications_same (d : Schema.Db) :
  Schema.with_applications (Schema.applications d) (Schema.applications_seq d) d = d.
Proof. now destruct d. Qed.

Lemma to_int_of_Z (z : Z) : JS.to_int (JS.of_Z z) = Some z.
Proof. unfold JS.to_int, JS.of_Z. now rewrite Qfloor_Z. Qed.

(** X29. Editing the letter of an application: for an id that names no row
    the answer is not found and the store is unchanged; for one that names a
    row the answer is that row with the new letter and every other column as
    it was, the rows of other ids are untouched, and the row no longer counts
    as pending for anyone, whatever its status. *)
Theorem patch_cover_letter_outcome (id_param text : string) (id : Z) (d : Schema.Db) :
  JS.parseInt id_param = JS.of_Z id ->
  Routes.is_int4 id = true ->
  let hit (a : Schema.Application) := (Schema.app_id a =? id)%Z in
  let reply := fst (Routes.patch_cover_letter id_param (Some text) d) in
  let d' := snd (Routes.patch_cover_letter id_param (Some text) d) in
  match find hit (Schema.applications d) with
  | None => reply = Routes.PatchNotFound /\ d' = d
  | Some a =>
      reply
      = Routes.PatchOk
          (Schema.mkApplication (Schema.app_id a) (Schema.app_userId a)
             (Schema.app_vacancyId a) (Schema.jobId a) (Schema.jobTitle a)
             (Schema.company a) (Schema.resumeId a) (Some text)
             (Schema.hhNegotiationId a) (Schema.status a) (Schema.errorReason a)
             (Schema.appliedAt a))
      /\ filter (fun r => negb (hit r)) (Schema.applications d')
         = filter (fun r => negb (hit r)) (Schema.applications d)
      /\ forall userId,
           JS.truthy_str userId = true ->
           Routes.get_pending_count (Some userId) d'
           = List.length (filter (fun r => Storage.is_pending userId r && negb (hit r))
                            (Schema.applications d))
  end.
Proof.
  intros Hid Hrange hit reply d'.
  unfold reply, d', Routes.patch_cover_letter.
  rewrite Hid, to_int_of_Z, Hrange. unfold Storage.updateApplicationCoverLetter.
  fold hit. cbn [Schema.with_applications Schema.applications].
  set (upd := Schema.apply_set _).
  rewrite (find_update_where hit upd) by reflexivity.
  destruct (find hit (Schema.applications d)) as [a|] eqn:F; cbn [option_map fst snd].
  - split; [reflexivity|]. split.
    + cbn [Schema.with_applications Schema.applications].
      now apply filter_update_where_others.
    + intros userId Hu. unfold Routes.get_pending_count.
      rewrite (required_truthy _ _ _ Hu). unfold Storage.getPendingApplicationsCount.
      cbn [Schema.with_applications Schema.applications]. unfold Schema.update_where.
      apply filter_length_map_as. intros r. destruct (hit r); cbn [negb].
      * rewrite andb_false_r. unfold Storage.is_pending, upd.
        cbn [Schema.apply_set Schema.coverLetter Schema.set_coverLetter Schema.assign].
        now rewrite andb_false_r.
      * now rewrite andb_true_r.
  - split; [reflexivity|].
    rewrite (update_where_none hit upd _ F). apply with_applications_same.
Qed.

Lemma patch_cover_letter_outcome_witness :
  Routes.get_pending_count (Some "u1") Sample.waiting_db = 1%nat
  /\ Routes.get_pending_count (Some "u1")
       (snd (Routes.patch_cover_letter "7" (Some "Имею опыт.") Sample.waiting_db))
     = 0%nat.
Proof.
  split; [reflexivity|].
  pose proof (patch_cover_letter_outcome "7" "Имею опыт." 7 Sample.waiting_db
                eq_refl eq_refl) as H.
  cbv zeta in H.
  change (find _ (Schema.applications Sample.waiting_db))
    with (hd_error (Schema.applications Sample.waiting_db)) in H.
  cbn [hd_error Sample.waiting_db Schema.applications] in H.
  destruct H as (_ & _ & H). exact (H "u1" eq_refl).
Defined.

(** ** The synchronous route to apply *)






